(** * The Argon2 credential-encryption pipeline, embedded in Rocq

    A shallow embedding of the TypeScript sources
    [src/crypto/cryptoUtil.ts], [src/crypto/cryptoService.ts],
    [src/crypto/envFilesHandler.ts], [src/crypto/encryptionHandler.ts],
    [src/helpers/errorHandler.ts] and [src/helpers/utilityHelper.ts].

    The code runs on Node.js and calls into libraries that are not part of
    the repository (Node's [crypto] and [fs], [argon2], [crypto-js], the
    built-in [JSON] and [RegExp]).  Those appear here as the class
    [Platform]; what the proofs need from them is collected in
    [PlatformLaws].  Everything the repository itself does (guards, order
    of calls, logging, exceptions, the line loop, the file rewrite) is
    written out as functions in a state-and-exception monad over [world]. *)

From Stdlib Require Import ZArith String Ascii List Bool Lia Floats.
From Stdlib Require Import DecimalString Strings.Byte.
From stdpp Require Import gmap strings list.

Open Scope string_scope.
Open Scope Z_scope.

(** ** JavaScript strings

    A JavaScript string is a sequence of UTF-16 code units.  The embedding
    uses Rocq's [string]; an [ascii] stands for a code unit below 256. *)

Module JsString.

(** [WhiteSpace] and [LineTerminator] code units stripped by
    [String.prototype.trim], restricted to code units below 256:
    TAB, LF, VT, FF, CR, SPACE and NO-BREAK SPACE. *)
Definition isWhiteSpace (c : ascii) : bool :=
  match nat_of_ascii c with
  | 9%nat | 10%nat | 11%nat | 12%nat | 13%nat | 32%nat | 160%nat => true
  | _ => false
  end.

(** [LineTerminator] as used by RegExp [.], [^] and [$] in multiline
    mode, restricted to code units below 256: LF and CR. *)
Definition isLineTerminator (c : ascii) : bool :=
  match nat_of_ascii c with
  | 10%nat | 13%nat => true
  | _ => false
  end.

Fixpoint trimStart (s : string) : string :=
  match s with
  | EmptyString => EmptyString
  | String c r => if isWhiteSpace c then trimStart r else s
  end.

Fixpoint trimEnd (s : string) : string :=
  match s with
  | EmptyString => EmptyString
  | String c r =>
      match trimEnd r with
      | EmptyString => if isWhiteSpace c then EmptyString else String c EmptyString
      | t => String c t
      end
  end.

(** [String.prototype.trim]. *)
Definition trim (s : string) : string := trimEnd (trimStart s).

(** [s.includes(c)] for a one-character search string. *)
Fixpoint includes (s : string) (c : ascii) : bool :=
  match s with
  | EmptyString => false
  | String d r => if Ascii.eqb d c then true else includes r c
  end.

(** Cut [s] at every code unit satisfying [sep]; the separators
    themselves are removed.  The result always has at least one piece. *)
Fixpoint splitBy (sep : ascii -> bool) (s : string) : list string :=
  match s with
  | EmptyString => [EmptyString]
  | String c r =>
      if sep c then EmptyString :: splitBy sep r
      else match splitBy sep r with
           | hd :: tl => String c hd :: tl
           | [] => [String c EmptyString]
           end
  end.

(** [s.split(c)] for a one-character separator string. *)
Definition split (s : string) (c : ascii) : list string :=
  splitBy (Ascii.eqb c) s.

(** [Array.prototype.join] on an array of strings. *)
Definition join (parts : list string) (sep : string) : string :=
  String.concat sep parts.

(** The lines of a text as RegExp sees them in multiline mode. *)
Definition regexLines (s : string) : list string :=
  splitBy isLineTerminator s.

(** Longest prefix without a line terminator, and what follows it. *)
Fixpoint breakLine (s : string) : string * string :=
  match s with
  | EmptyString => (EmptyString, EmptyString)
  | String c r =>
      if isLineTerminator c then (EmptyString, s)
      else let '(l, rest) := breakLine r in (String c l, rest)
  end.

Fixpoint forallb (p : ascii -> bool) (s : string) : bool :=
  match s with
  | EmptyString => true
  | String c r => p c && forallb p r
  end.

(** Decimal rendering of a natural number, as done by template
    literals on non-negative integers. *)
Definition ofNat (n : nat) : string :=
  NilZero.string_of_uint (Nat.to_uint n).

(** JavaScript truthiness of a string. *)
Definition truthy (s : string) : bool :=
  negb (String.eqb s EmptyString).

(** The line feed, written [\n] in the sources. *)
Definition LF : ascii := ascii_of_nat 10.

Definition isDigit (c : ascii) : bool :=
  (48 <=? nat_of_ascii c)%nat && (nat_of_ascii c <=? 57)%nat.

Definition digitValue (c : ascii) : nat := (nat_of_ascii c - 48)%nat.

(** A capture group as inserted by a replacement pattern: groups are
    numbered from 1, and a group that did not take part inserts nothing. *)
Definition capture (captures : list (option string)) (n : nat) : string :=
  match n with
  | O => EmptyString
  | S i => match nth_error captures i with
           | Some (Some c) => c
           | _ => EmptyString
           end
  end.

Definition validGroup (captures : list (option string)) (n : nat) : bool :=
  (1 <=? n)%nat && (n <=? length captures)%nat.

(** [GetSubstitution] of ECMAScript for a regular expression without
    named groups: [$$], [$&], [$`], [$'], [$n] and [$nn] are expanded in
    the replacement text, any other [$] stands for itself. *)
Fixpoint getSubstitution (matched before after : string)
    (captures : list (option string)) (replacement : string) : string :=
  let go := getSubstitution matched before after captures in
  match replacement with
  | EmptyString => EmptyString
  | String c r =>
      if negb (Ascii.eqb c "$") then String c (go r)
      else
        match r with
        | EmptyString => String c EmptyString
        | String d r1 =>
            if Ascii.eqb d "$" then String "$" (go r1)
            else if Ascii.eqb d "&" then matched +:+ go r1
            else if Ascii.eqb d "`" then before +:+ go r1
            else if Ascii.eqb d "'" then after +:+ go r1
            else if isDigit d then
              let one :=
                if validGroup captures (digitValue d)
                then capture captures (digitValue d) +:+ go r1
                else String c (go r) in
              match r1 with
              | EmptyString => one
              | String d2 r2 =>
                  let nn := (10 * digitValue d + digitValue d2)%nat in
                  if isDigit d2 && validGroup captures nn
                  then capture captures nn +:+ go r2
                  else one
              end
            else String c (go r)
        end
  end.

End JsString.

(** ** Thrown values

    Every value thrown in the modelled code is an [Error] object (or an
    instance of one of its subclasses); [name] is the constructor name,
    [message] the message. *)

Record error : Type := JsError { name : string; message : string }.

Definition Error (msg : string) : error := JsError "Error" msg.

Inductive outcome (A : Type) : Type :=
| Ok (a : A)
| Throw (e : error).
Arguments Ok {A} a.
Arguments Throw {A} e.

(** ** The world

    - [files]: the file store, path to content (directories are not
      modelled);
    - [entropy]: the bytes the operating system's secure random source
      will hand out next;
    - [logged]: what went through the winston logger, oldest first;
    - [calls]: a ghost trace of the cryptographic library calls, oldest
      first, used to state ordering properties. *)

Inductive level : Type := Info | Warn | ErrorLevel | Debug.

Inductive call : Type :=
| CallRandomBytes (size : Z)
| CallArgon2 (secretKey : string) (salt : list Byte.byte)
| CallAesEncrypt
| CallAesDecrypt
| CallHmac (msg : string).

Record world : Type := World {
  files : gmap string string;
  entropy : list Byte.byte;
  logged : list (level * string);
  calls : list call
}.

Definition M (A : Type) : Type := world -> outcome A * world.

Definition ret {A} (a : A) : M A := fun w => (Ok a, w).

Definition throw {A} (e : error) : M A := fun w => (Throw e, w).

Definition bind {A B} (m : M A) (k : A -> M B) : M B :=
  fun w => match m w with
           | (Ok a, w') => k a w'
           | (Throw e, w') => (Throw e, w')
           end.

(** [try { body } catch (error) { handler(error) }]. *)
Definition tryCatch {A} (body : M A) (handler : error -> M A) : M A :=
  fun w => match body w with
           | (Ok a, w') => (Ok a, w')
           | (Throw e, w') => handler e w'
           end.

Declare Scope js_scope.
Delimit Scope js_scope with js.
Notation "x <- m ;; k" := (bind m (fun x => k))
  (at level 100, m at next level, right associativity) : js_scope.
Notation "m ;;; k" := (bind m (fun _ => k))
  (at level 100, right associativity) : js_scope.
Open Scope js_scope.

Definition liftOutcome {A} (r : error + A) : M A :=
  match r with
  | inl e => throw e
  | inr a => ret a
  end.

(** The world after more entries went to the logger. *)
Definition withLogged (w : world) (entries : list (level * string)) : world :=
  World (files w) (entropy w) (logged w ++ entries) (calls w).

Definition log (lv : level) (msg : string) : M unit :=
  fun w => (Ok tt, withLogged w [(lv, msg)]).

Definition trace (c : call) : M unit :=
  fun w => (Ok tt, World (files w) (entropy w) (logged w) (calls w ++ [c])).

(** The winston logger instance ([src/utils/winstonLogger]). *)
Module logger.
Definition info (msg : string) : M unit := log Info msg.
Definition warn (msg : string) : M unit := log Warn msg.
Definition error (msg : string) : M unit := log ErrorLevel msg.
End logger.

(** ** JSON values

    What [JSON.parse] returns.  Numbers are IEEE 754 doubles. *)

#[warnings="-register-all"]
Inductive json : Type :=
| JNull
| JBool (b : bool)
| JNumber (x : float)
| JString (s : string)
| JArray (items : list json)
| JObject (members : list (string * json)).

Module JsValue.

Fixpoint assoc (k : string) (members : list (string * json)) : option json :=
  match members with
  | [] => None
  | (k', v) :: rest => if String.eqb k k' then Some v else assoc k rest
  end.

(** Reading property [k] of a non-null value; [None] is [undefined].
    Only used with the keys [salt], [iv], [cipherText] and [mac], which
    no prototype defines, so every value that is not a plain object
    answers [undefined]. *)
Definition getMember (j : json) (k : string) : option json :=
  match j with
  | JObject members => assoc k members
  | _ => None
  end.

(** JavaScript truthiness ([!v] is its negation). *)
Definition truthy (v : option json) : bool :=
  match v with
  | None => false
  | Some JNull => false
  | Some (JBool b) => b
  | Some (JNumber x) => negb (PrimFloat.is_zero x || PrimFloat.is_nan x)
  | Some (JString s) => JsString.truthy s
  | Some (JArray _) => true
  | Some (JObject _) => true
  end.

End JsValue.

(** ** Types of the repository ([src/models/cryptoTypes]) *)

Record EncryptionParams : Type := {
  salt : string;
  iv : string;
  cipherText : string;
  mac : string
}.

(** The object literal [{ salt, iv, cipherText, mac }] as a JSON value. *)
Definition EncryptionParams_toJson (p : EncryptionParams) : json :=
  JObject [("salt", JString (salt p)); ("iv", JString (iv p));
           ("cipherText", JString (cipherText p)); ("mac", JString (mac p))].

(** Raw bytes: a Node [Buffer] or a crypto-js [WordArray]. *)
Abbreviation bytes := (list Byte.byte).

(** Options object passed to [argon2.hash]. *)
Record Argon2Options : Type := {
  hashLength : Z;
  argon2Salt : bytes;
  memoryCost : Z;
  timeCost : Z;
  parallelism : Z
}.

(** Result of a successful [RegExp.prototype.exec]: where the match
    starts, the matched text, and the capture groups ([None] for a group
    that did not take part). *)
Record RegExpMatch : Type := {
  matchIndex : nat;
  matched : string;
  captures : list (option string)
}.

(** ** The platform

    Library functions the repository calls.  A function that can throw
    returns [error + _].  [AES_encrypt] and [AES_decrypt] are crypto-js
    AES in CBC mode with PKCS#7 padding, the only configuration used.
    [RegExp_exec source flags input] is [new RegExp(source, flags)]
    followed by one match attempt on [input] from index 0 (the
    constructor throws on an invalid pattern). *)

Class Platform : Type := {
  Buffer_toString_base64 : bytes -> string;
  Buffer_from_base64 : string -> bytes;
  argon2_hash : string -> Argon2Options -> error + string;
  Base64_parse : string -> bytes;
  Base64_stringify : bytes -> string;
  Utf8_stringify : bytes -> error + string;
  Hex_stringify : bytes -> string;
  AES_encrypt : string -> bytes -> bytes -> error + bytes;
  AES_decrypt : bytes -> bytes -> bytes -> error + bytes;
  HmacSHA256 : string -> string -> bytes;
  JSON_parse : string -> error + json;
  JSON_stringify : json -> string;
  RegExp_exec : string -> string -> string -> error + option RegExpMatch;
  (** What the rest of [CryptoService.decrypt] does with a parsed value
      that passed validation but is not of the declared type
      [EncryptionParams] (a present field that is not a string).  The
      cast in [parseEncryptedData] is unchecked; the outcome depends on
      how each library treats a non-string argument and is left open. *)
  decrypt_untyped : json -> string -> M string;
  (** Errors raised by the runtime itself: [crypto.randomBytes] on a
      size outside [0, 2^31 - 1] and on a failing random source,
      [fs.readFileSync] on a missing file, and the destructuring of
      [null] in [validateParsedData]. *)
  randomBytes_RangeError : Z -> error;
  randomBytes_failure : error;
  readFileSync_ENOENT : string -> error;
  destructure_TypeError : error;
  process_cwd : string;
  path_resolve : string -> string -> string;
  path_join : string -> string -> string;
  path_relative : string -> string -> string
}.

(** [src/config/crypto-config.json] (not among the sources): the lengths
    and Argon2 costs are parameters. *)
Class CryptoConfig : Type := {
  IV_LENGTH : Z;
  SALT_LENGTH : Z;
  SECRET_KEY_LENGTH : Z;
  HASH_LENGTH : Z;
  TIME_COST : Z;
  PARALLELISM : Z
}.

(** ** Node built-ins modelled over the world *)

Module crypto.
Section WithPlatform.
Context `{Platform}.

(** [crypto.randomBytes(size)]: a [RangeError] unless
    [0 <= size <= 2^31 - 1]; otherwise the next [size] bytes of the
    secure random source, or an error when the source cannot deliver. *)
Definition randomBytes (size : Z) : M bytes :=
  fun w =>
    if (size <? 0) || (2 ^ 31 - 1 <? size) then
      (Throw (randomBytes_RangeError size), w)
    else if (Z.of_nat (length (entropy w)) <? size) then
      (Throw randomBytes_failure, w)
    else
      (Ok (take (Z.to_nat size) (entropy w)),
       World (files w) (drop (Z.to_nat size) (entropy w)) (logged w)
             (calls w ++ [CallRandomBytes size])).

End WithPlatform.
End crypto.

(** [fs].  Writing always succeeds: permissions, missing directories and
    full disks are not modelled, so that what is stated of a write is
    stated of a write the file system accepts. *)
Module fs.
Section WithPlatform.
Context `{Platform}.

Definition existsSync (path : string) : M bool :=
  fun w => (Ok (bool_decide (is_Some (files w !! path))), w).

Definition readFileSync (path : string) : M string :=
  fun w => match files w !! path with
           | Some content => (Ok content, w)
           | None => (Throw (readFileSync_ENOENT path), w)
           end.

Definition writeFileSync (path content : string) : M unit :=
  fun w => (Ok tt, World (<[path := content]> (files w)) (entropy w) (logged w) (calls w)).

End WithPlatform.
End fs.

(** ** [src/helpers/errorHandler.ts] *)

Module ErrorHandler.

(** Only the [error instanceof Error] branch can be reached: every
    thrown value is an [Error]. *)
Definition formatErrorMessage (err : error) (messagePrefix : string) : string :=
  messagePrefix +:+ "Error: " +:+ message err.

Definition logMessage (methodName msg : string) : M unit :=
  logger.error ("[Method: " +:+ methodName +:+ "] " +:+ msg).

Definition logError (err : error) (methodName : string)
    (customMessage : option string) : M unit :=
  let messagePrefix :=
    match customMessage with
    | Some c => if JsString.truthy c then c +:+ ": " else ""
    | None => ""
    end in
  logMessage methodName (formatErrorMessage err messagePrefix).

Definition logThrowError {A} (errorMessage : string) : M A :=
  logger.error errorMessage ;;; throw (Error errorMessage).

End ErrorHandler.

(** The recurring [try { body } catch (error) { logError(...); throw error; }]. *)
Definition tryLogRethrow {A} (body : M A) (methodName : string)
    (customMessage : option string) : M A :=
  tryCatch body
    (fun err => ErrorHandler.logError err methodName customMessage ;;; throw err).

(** ** [src/helpers/utilityHelper.ts] *)

Module utilityHelper.
Section WithPlatform.
Context `{Platform}.

Definition writeFile (path content keyName : string) : M unit :=
  if negb (JsString.truthy content) then
    logger.warn ("No content provided for file: " +:+ keyName) ;;;
    throw (Error ("No content provided for file: " +:+ keyName))
  else
    tryLogRethrow
      (fs.writeFileSync path content ;;;
       logger.info ("Successfully saved file: " +:+ keyName))
      "saveFile" None.

End WithPlatform.
End utilityHelper.


(** ** [src/config/constantsConfig.ts] *)

Module ConstantsConfig.

Definition MEMORY_COST : Z := 2 ^ 17.

Definition getMemoryCost : Z := MEMORY_COST.

End ConstantsConfig.

(** ** [src/crypto/cryptoUtil.ts]

    A parameter with a default value ([length: number = ...]) is an
    [option]; [None] is an omitted argument. *)

Module CryptoUtil.
Section WithPlatform.
Context `{Platform} `{CryptoConfig}.

Definition generateIvAsBase64 (length : option Z) : M string :=
  let length := default IV_LENGTH length in
  if length <=? 0 then throw (Error "IV length must be greater than zero.")
  else
    tryLogRethrow
      (buf <- crypto.randomBytes length ;;
       ret (Buffer_toString_base64 buf))
      "generateIv"
      (Some ("Failed to generate IV of length " +:+ JsString.ofNat (Z.to_nat length))).

Definition generateIvAsBuffer (length : option Z) : M bytes :=
  let length := default IV_LENGTH length in
  if length <=? 0 then throw (Error "IV length must be greater than zero.")
  else
    tryLogRethrow
      (crypto.randomBytes length)
      "generateIvAsBuffer"
      (Some ("Failed to generate IV of length " +:+ JsString.ofNat (Z.to_nat length))).

Definition generateSalt (length : option Z) : M string :=
  let length := default SALT_LENGTH length in
  if length <=? 0 then throw (Error "Salt length must be greater than zero.")
  else
    tryLogRethrow
      (buf <- crypto.randomBytes length ;;
       ret (Buffer_toString_base64 buf))
      "generateSalt"
      (Some ("Failed to generate salt of length " +:+ JsString.ofNat (Z.to_nat length))).

Definition generateSecretKey (length : option Z) : M string :=
  let length := default SECRET_KEY_LENGTH length in
  tryLogRethrow
    (buf <- crypto.randomBytes length ;;
     ret (Buffer_toString_base64 buf))
    "generateKey"
    (Some "Failed to generate key").

(** The [options] object literal of [deriveKeyWithArgon2]. *)
Definition argon2Options (salt : string) : Argon2Options :=
  {| hashLength := HASH_LENGTH;
     argon2Salt := Buffer_from_base64 salt;
     memoryCost := ConstantsConfig.getMemoryCost;
     timeCost := TIME_COST;
     parallelism := PARALLELISM |}.

Definition deriveKeyWithArgon2 (secretKey salt : string) : M bytes :=
  tryLogRethrow
    (let options := argon2Options salt in
     trace (CallArgon2 secretKey (argon2Salt options)) ;;;
     derivedKey <- liftOutcome (argon2_hash secretKey options) ;;
     ret (Base64_parse derivedKey))
    "deriveKeyWithArgon2"
    (Some "Failed to derive key with Argon2.").

(** [CryptoJS.AES.encrypt(...).toString()] is the Base64 rendering of
    the ciphertext (the key is a [WordArray], so no salt is prepended). *)
Definition encryptData (value : string) (key : bytes) (iv : string) : M string :=
  tryLogRethrow
    (trace CallAesEncrypt ;;;
     cipher <- liftOutcome (AES_encrypt value key (Base64_parse iv)) ;;
     ret (Base64_stringify cipher))
    "encryptData"
    (Some "Failed to encrypt text").

(** [const { salt, iv, cipherText, mac } = parsedData] throws a
    [TypeError] on [null]; otherwise each name is read as a property. *)
Definition validateParsedData (parsedData : json) : M unit :=
  tryLogRethrow
    (match parsedData with
     | JNull => throw destructure_TypeError
     | _ =>
         let salt := JsValue.getMember parsedData "salt" in
         let iv := JsValue.getMember parsedData "iv" in
         let cipherText := JsValue.getMember parsedData "cipherText" in
         let mac := JsValue.getMember parsedData "mac" in
         if negb (JsValue.truthy salt) || negb (JsValue.truthy iv)
            || negb (JsValue.truthy cipherText) || negb (JsValue.truthy mac)
         then ErrorHandler.logThrowError "Missing required properties in parsed data."
         else ret tt
     end)
    "validateParsedData"
    (Some "Failed to validate parsed data.").

Definition parseEncryptedData (encryptedData : string) : M json :=
  tryLogRethrow
    ((if negb (JsString.truthy encryptedData)
      then ErrorHandler.logThrowError "Encrypted data is required."
      else ret tt) ;;;
     parsedData <- liftOutcome (JSON_parse encryptedData) ;;
     validateParsedData parsedData ;;;
     ret parsedData)
    "parseEncryptedData"
    (Some "Failed to parse encrypted data").

Definition decryptData (decodedCipherText key decodedIv : bytes) : M string :=
  tryLogRethrow
    (trace CallAesDecrypt ;;;
     decryptedBytes <- liftOutcome (AES_decrypt decodedCipherText key decodedIv) ;;
     liftOutcome (Utf8_stringify decryptedBytes))
    "decryptData"
    (Some "Failed to decrypt text").

Definition generateMac (salt iv cipherText : string) (key : bytes) : M string :=
  tryLogRethrow
    (let msg := salt +:+ ":" +:+ iv +:+ ":" +:+ cipherText in
     trace (CallHmac msg) ;;;
     ret (Hex_stringify (HmacSHA256 msg (Base64_stringify key))))
    "generateMac"
    (Some "Failed to generate MAC.").

Definition verifyMac (computedMac mac : string) : M unit :=
  tryLogRethrow
    (if negb (String.eqb computedMac mac)
     then ErrorHandler.logThrowError
            "MAC verification failed. The data may have been tampered with."
     else ret tt)
    "verifyMac"
    (Some "Failed to verify MAC").

End WithPlatform.
End CryptoUtil.

(** ** [src/crypto/cryptoService.ts] *)

Module CryptoService.
Section WithPlatform.
Context `{Platform} `{CryptoConfig}.

Definition encrypt (value secretKey : string) : M EncryptionParams :=
  tryLogRethrow
    (salt <- CryptoUtil.generateSalt None ;;
     iv <- CryptoUtil.generateIvAsBase64 None ;;
     key <- CryptoUtil.deriveKeyWithArgon2 secretKey salt ;;
     cipherText <- CryptoUtil.encryptData value key iv ;;
     mac <- CryptoUtil.generateMac salt iv cipherText key ;;
     ret {| salt := salt; iv := iv; cipherText := cipherText; mac := mac |})
    "encrypt"
    (Some "Failed to encrypt with Argon2.").

(** The four destructured fields when all of them are strings, as the
    declared type [EncryptionParams] promises. *)
Definition asEncryptionParams (parsedData : json) : option EncryptionParams :=
  match JsValue.getMember parsedData "salt", JsValue.getMember parsedData "iv",
        JsValue.getMember parsedData "cipherText", JsValue.getMember parsedData "mac" with
  | Some (JString salt), Some (JString iv), Some (JString cipherText), Some (JString mac) =>
      Some {| salt := salt; iv := iv; cipherText := cipherText; mac := mac |}
  | _, _, _, _ => None
  end.

Definition decrypt (encryptedData secretKey : string) : M string :=
  parsedData <- CryptoUtil.parseEncryptedData encryptedData ;;
  match asEncryptionParams parsedData with
  | None => decrypt_untyped parsedData secretKey
  | Some {| salt := salt; iv := iv; cipherText := cipherText; mac := mac |} =>
      tryLogRethrow
        (key <- CryptoUtil.deriveKeyWithArgon2 secretKey salt ;;
         computedMac <- CryptoUtil.generateMac salt iv cipherText key ;;
         CryptoUtil.verifyMac computedMac mac ;;;
         decrypted <- CryptoUtil.decryptData
                        (Base64_parse cipherText) key (Base64_parse iv) ;;
         (if negb (JsString.truthy decrypted)
          then ErrorHandler.logThrowError
                 "Decryption failed. The result is empty or malformed."
          else ret tt) ;;;
         ret decrypted)
        "decrypt"
        (Some "Failed to decrypt with Argon2.")
  end.

End WithPlatform.
End CryptoService.


(** ** [RegExp] methods and [String.prototype.replace]

    The regular expressions of the repository are built from a source
    text and the flag [m], never [g]: every method below starts its
    single match attempt at index 0. *)

Module JsRegExp.
Section WithPlatform.
Context `{Platform}.

(** [new RegExp(source, flags).test(input)]. *)
Definition test (source flags input : string) : M bool :=
  r <- liftOutcome (RegExp_exec source flags input) ;;
  ret (bool_decide (is_Some r)).

(** [input.replace(new RegExp(source, flags), replacement)] with a
    string replacement: the first match is replaced by the expansion of
    the replacement text. *)
Definition replace (input source flags replacement : string) : M string :=
  r <- liftOutcome (RegExp_exec source flags input) ;;
  match r with
  | None => ret input
  | Some m =>
      let before := String.substring 0 (matchIndex m) input in
      let endIndex := (matchIndex m + String.length (matched m))%nat in
      let after := String.substring endIndex (String.length input - endIndex) input in
      ret (before +:+
           JsString.getSubstitution (matched m) before after (captures m) replacement +:+
           after)
  end.

(** [input.match(new RegExp(source, flags))]. *)
Definition match_ (input source flags : string) : M (option RegExpMatch) :=
  liftOutcome (RegExp_exec source flags input).

End WithPlatform.
End JsRegExp.

(** ** [src/config/environment.config.ts] and [src/config/app.settings.ts] *)

Module EnvironmentConfig.
Definition ENV_DIR : string := "envs".
Definition BASE_ENV_FILE : string := ".env".
End EnvironmentConfig.

Module FileEncoding.
Definition UTF8 : string := "utf8".
End FileEncoding.

(** ** [src/crypto/envFilesHandler.ts]

    The object state shared by [EnvFilesHandler] and its subclass
    [EncryptionHandler].  The constructor, which creates the directory
    of the environment files and the base file, is not modelled: the
    file store has no directories.  Every method below starts from an
    object that was constructed. *)

Record Handler : Type := {
  envDirPath : string;
  envFilePath : string;
  secretKey : string;
  baseEnvFilePath : string
}.

Module EnvFilesHandler.
Section WithPlatform.
Context `{Platform}.

Definition writeKeyToBaseEnvFile (this : Handler) (content keyName : string) : M unit :=
  tryLogRethrow
    (utilityHelper.writeFile (baseEnvFilePath this) content keyName ;;;
     logger.info (keyName +:+ " written to .env file"))
    "writeEnvFile"
    (Some ("Failed to write " +:+ keyName +:+ " to .env file")).

Definition readBaseEnvFile (this : Handler) : M string :=
  tryLogRethrow
    (fs.readFileSync (baseEnvFilePath this))
    "readEnvFile"
    (Some "Failed to read .env file").

(** [match ? match[1] : undefined]; [None] is [undefined]. *)
Definition getKeyValue (this : Handler) (keyName : string) : M (option string) :=
  tryLogRethrow
    (envConfig <- readBaseEnvFile this ;;
     m <- JsRegExp.match_ envConfig ("^" +:+ keyName +:+ "=(.*)$") "m" ;;
     ret (match m with
          | Some r => match nth_error (captures r) 0 with
                      | Some c => c
                      | None => None
                      end
          | None => None
          end))
    "getKeyValue"
    (Some ("Failed to read " +:+ keyName +:+ " from .env file")).

Definition storeBaseEnvKey (this : Handler) (keyName keyValue : string) : M unit :=
  tryLogRethrow
    (envConfig <- readBaseEnvFile this ;;
     let source := "^" +:+ keyName +:+ "=.*" in
     found <- JsRegExp.test source "m" envConfig ;;
     envConfig' <-
       (if found
        then JsRegExp.replace envConfig source "m" (keyName +:+ "=" +:+ keyValue)
        else ret (envConfig +:+ keyName +:+ "=" +:+ keyValue +:+ String JsString.LF "")) ;;
     writeKeyToBaseEnvFile this envConfig' keyName)
    "storeKeyInEnv"
    (Some ("Failed to store " +:+ keyName +:+ " in .env file")).

End WithPlatform.
End EnvFilesHandler.


(** ** [src/crypto/encryptionHandler.ts] *)

Module EncryptionHandler.
Section WithPlatform.
Context `{Platform} `{CryptoConfig}.

Definition generateSecretKey (this : Handler) : M string :=
  tryLogRethrow
    (CryptoUtil.generateSecretKey None)
    "generateSecretKey"
    (Some "Failed to generate secret key").

Definition getSecretKey (this : Handler) (secretKey : string) : M string :=
  tryLogRethrow
    ((if negb (JsString.truthy secretKey)
      then ErrorHandler.logThrowError "Key not found in .env file"
      else ret tt) ;;;
     ret secretKey)
    "getSecretKey"
    (Some "Failed to get secret key").

(** Assigns [this.envFilePath], then [this.secretKey]; the updated
    object is returned.  (When [getSecretKey] throws, the first
    assignment has already happened; nothing below looks at the object
    after a failed call.) *)
Definition initializeEncryption (this : Handler) (env secretKey : string) : M Handler :=
  tryLogRethrow
    (let path := path_resolve (envDirPath this) env in
     key <- getSecretKey this secretKey ;;
     ret {| envDirPath := envDirPath this; envFilePath := path;
            secretKey := key; baseEnvFilePath := baseEnvFilePath this |})
    "initializeEncryption"
    (Some "Failed to initialize encryption").

(** The [try] block is a template literal over a number and a string,
    which cannot throw: the [catch] block is unreachable and the method
    is a function. *)
Definition handleInvalidFormatError (this : Handler) (index : nat) (line : string) : string :=
  "Line " +:+ JsString.ofNat (index + 1) +:+
  " doesn't contain any variables or has invalid format: " +:+ line.

(** A destructured array element inside a template literal. *)
Definition templateElement (v : option string) : string :=
  default "undefined" v.

(** The [for] statement of [encryptLines]: [index] runs over the
    positions of the remaining [lines]; [encryptedLines] and [errors] are
    the two arrays being filled. *)
Fixpoint encryptLines_for (this : Handler) (index : nat) (lines : list string)
    (encryptedLines errors : list string) : M (list string * list string) :=
  match lines with
  | [] => ret (encryptedLines, errors)
  | line :: rest =>
      let trimmedLine := JsString.trim line in
      if String.eqb trimmedLine "" then
        encryptLines_for this (S index) rest (encryptedLines ++ [""]) errors
      else if negb (JsString.includes trimmedLine "=") then
        let errorMessage := handleInvalidFormatError this index line in
        logger.error errorMessage ;;;
        encryptLines_for this (S index) rest encryptedLines (errors ++ [errorMessage])
      else
        let parts := JsString.split trimmedLine "=" in
        let key := nth_error parts 0 in
        let value := nth_error parts 1 in
        match value with
        | Some v =>
            if JsString.truthy v then
              encryptionResult <- CryptoService.encrypt (JsString.trim v) (secretKey this) ;;
              let encryptedValue := JSON_stringify (EncryptionParams_toJson encryptionResult) in
              encryptLines_for this (S index) rest
                (encryptedLines ++ [templateElement key +:+ "=" +:+ encryptedValue]) errors
            else
              encryptLines_for this (S index) rest (encryptedLines ++ [line]) errors
        | None =>
            encryptLines_for this (S index) rest (encryptedLines ++ [line]) errors
        end
  end.

(** The guard on [Array.isArray] and [typeof line === "string"] cannot
    fail on a [list string] and is omitted. *)
Definition encryptLines (this : Handler) (lines : list string) : M (list string) :=
  tryLogRethrow
    ((if List.forallb (fun line => String.eqb (JsString.trim line) "") lines
      then ErrorHandler.logThrowError
             "File is completely empty or contains only whitespace."
      else ret tt) ;;;
     r <- encryptLines_for this 0 lines [] [] ;;
     let '(encryptedLines, errors) := r in
     (if (0 <? length errors)%nat
      then ErrorHandler.logError
             (Error (JsString.join errors (String JsString.LF "")))
             "encryptLines" (Some "Failed to encrypt some lines")
      else ret tt) ;;;
     ret encryptedLines)
    "encryptLines"
    (Some "Failed to encrypt lines").

Definition readEnvFileAsLines (this : Handler) : M (list string) :=
  tryLogRethrow
    (content <- fs.readFileSync (envFilePath this) ;;
     ret (JsString.split content JsString.LF))
    "readEnvFile"
    (Some "Failed to read environment file").

Definition writeEnvFileLines (this : Handler) (lines : list string) : M unit :=
  tryLogRethrow
    (utilityHelper.writeFile (envFilePath this)
       (JsString.join lines (String JsString.LF "")) FileEncoding.UTF8)
    "writeEnvFile"
    (Some "Failed to write encrypted lines to environment file").

Definition logEncryptionSuccess (this : Handler) (originalCount encryptedCount : nat) : M unit :=
  tryLogRethrow
    (let relativePath := path_relative process_cwd (envFilePath this) in
     logger.info ("Encryption complete. Successfully encrypted " +:+
                  JsString.ofNat encryptedCount +:+ " variable(s) in the " +:+
                  relativePath +:+ " file."))
    "logEncryptionSuccess"
    (Some "Failed to log encryption success").

Definition encryptEnvVariables (this : Handler) : M unit :=
  tryLogRethrow
    (envFileContent <- readEnvFileAsLines this ;;
     encryptedLines <- encryptLines this envFileContent ;;
     writeEnvFileLines this encryptedLines ;;;
     logEncryptionSuccess this (length envFileContent) (length encryptedLines))
    "encryptEnvParameters"
    (Some "Failed to encrypt environment parameters").

End WithPlatform.
End EncryptionHandler.


(** ** What the proofs assume about the platform

    Each class below states documented behaviour of one library, and a
    theorem names the classes it relies on. *)

(** [JSON.stringify] followed by [JSON.parse] gives back an object of
    four string members, and never produces the empty text. *)
Class JsonLaws `{Platform} : Prop := {
  JSON_parse_stringify : forall p : EncryptionParams,
    JSON_parse (JSON_stringify (EncryptionParams_toJson p)) =
    inr (EncryptionParams_toJson p);
  JSON_stringify_nonempty : forall p : EncryptionParams,
    JSON_stringify (EncryptionParams_toJson p) <> ""
}.

(** Encodings are injective where the code decodes again, encodings of
    at least one byte are not empty, an AES ciphertext is not empty and
    decrypts, under the same key and IV, to the text it was made from. *)
Class CryptoLaws `{Platform} : Prop := {
  Buffer_base64_nonempty : forall b : bytes,
    b <> [] -> Buffer_toString_base64 b <> "";
  Base64_parse_stringify : forall b : bytes,
    Base64_parse (Base64_stringify b) = b;
  Base64_stringify_nonempty : forall b : bytes,
    b <> [] -> Base64_stringify b <> "";
  Hex_stringify_Hmac_nonempty : forall msg key : string,
    Hex_stringify (HmacSHA256 msg key) <> "";
  AES_encrypt_nonempty : forall (v : string) (key iv c : bytes),
    AES_encrypt v key iv = inr c -> c <> [];
  AES_decrypt_encrypt : forall (v : string) (key iv c : bytes),
    AES_encrypt v key iv = inr c ->
    exists d, AES_decrypt c key iv = inr d /\ Utf8_stringify d = inr v
}.

(** *** Reference semantics of the two regular expressions

    The repository builds two patterns with the flag [m]: a line start,
    the key name, [=] and any run of characters; and the same with the
    run captured as group 1, up to the end of the line.  When the key
    name [K] consists of characters that stand for themselves, both are
    matched by the first line that starts with [K=], the match being
    that whole line; the second captures what follows [K=]. *)

Module RegExpSemantics.

(** Characters with a meaning of their own in a pattern. *)
Definition isSyntaxCharacter (c : ascii) : bool :=
  JsString.includes "^$\.*+?()[]{}|" c.

(** A pattern text that matches exactly itself, inside one line. *)
Definition isLiteral (s : string) : bool :=
  JsString.forallb
    (fun c => negb (isSyntaxCharacter c) && negb (JsString.isLineTerminator c)) s.

(** Leftmost position at the start of a line where [lit] begins;
    returns the position and the input from there on. *)
Fixpoint searchLineStart (lit : string) (atLineStart : bool) (input : string)
    {struct input} : option (nat * string) :=
  if atLineStart && String.prefix lit input then Some (O, input)
  else match input with
       | EmptyString => None
       | String c r =>
           match searchLineStart lit (JsString.isLineTerminator c) r with
           | Some (i, m) => Some (S i, m)
           | None => None
           end
       end.

(** Line start, [lit], any run of characters; flag [m]. *)
Definition execLine (lit input : string) : option RegExpMatch :=
  match searchLineStart lit true input with
  | Some (i, m) =>
      Some {| matchIndex := i; matched := fst (JsString.breakLine m); captures := [] |}
  | None => None
  end.

(** Line start, [lit], a captured run of characters, line end; flag [m]. *)
Definition execLineCapture (lit input : string) : option RegExpMatch :=
  match searchLineStart lit true input with
  | Some (i, m) =>
      let line := fst (JsString.breakLine m) in
      Some {| matchIndex := i; matched := line;
              captures := [Some (String.substring (String.length lit)
                                   (String.length line - String.length lit) line)] |}
  | None => None
  end.

End RegExpSemantics.

Class RegExpLaws `{Platform} : Prop := {
  RegExp_exec_line : forall K input : string,
    RegExpSemantics.isLiteral K = true ->
    RegExp_exec ("^" +:+ K +:+ "=.*") "m" input =
    inr (RegExpSemantics.execLine (K +:+ "=") input);
  RegExp_exec_line_capture : forall K input : string,
    RegExpSemantics.isLiteral K = true ->
    RegExp_exec ("^" +:+ K +:+ "=(.*)$") "m" input =
    inr (RegExpSemantics.execLineCapture (K +:+ "=") input)
}.

(** ** Vocabulary of the statements *)

(** Only the log differs between two worlds. *)
Definition onlyLogged (w w' : world) : Prop :=
  files w' = files w /\ entropy w' = entropy w /\ calls w' = calls w.


(** The names every envelope must carry. *)
Definition requiredFields : list string := ["salt"; "iv"; "cipherText"; "mac"].

(** A text that is no envelope: empty, rejected by [JSON.parse], or
    parsed to a value in which a required field is missing (or present
    with a falsy value, such as the empty string). *)
Definition malformedEnvelope `{Platform} (text : string) : Prop :=
  text = ""
  \/ (exists e, JSON_parse text = inl e)
  \/ (exists j f, JSON_parse text = inr j /\ In f requiredFields /\
                  JsValue.truthy (JsValue.getMember j f) = false).

(** The errors [parseEncryptedData] raises on such a text. *)
Definition envelopeError `{Platform} (text : string) (e : error) : Prop :=
  e = Error "Encrypted data is required."
  \/ JSON_parse text = inl e
  \/ e = Error "Missing required properties in parsed data."
  \/ e = destructure_TypeError.

(** The error of a failed MAC comparison. *)
Definition integrityError : error :=
  Error "MAC verification failed. The data may have been tampered with.".

(** All four fields are present and not empty: what
    [validateParsedData] lets through. *)
Definition complete (p : EncryptionParams) : Prop :=
  salt p <> "" /\ iv p <> "" /\ cipherText p <> "" /\ mac p <> "".

(** The text [generateMac] feeds to HMAC-SHA256. *)
Definition macInput (p : EncryptionParams) : string :=
  salt p +:+ ":" +:+ iv p +:+ ":" +:+ cipherText p.

(** The MAC [generateMac] computes for the first three fields under a
    derived key. *)
Definition hmacOf `{Platform} (p : EncryptionParams) (key : bytes) : string :=
  Hex_stringify (HmacSHA256 (macInput p) (Base64_stringify key)).

(** [s'] is [s] with exactly one character replaced by another. *)
Definition singleCharacterChange (s s' : string) : Prop :=
  exists pre c c' post,
    c <> c' /\ s = pre +:+ String c post /\ s' = pre +:+ String c' post.

(** How an envelope presented to [decrypt] can disagree with its MAC
    under the derived key: the recomputed MAC differs from the stored
    one; or the envelope is an authentic one in which one character of
    [mac] was changed; or one in which one character of [cipherText] was
    changed, HMAC-SHA256 giving different tags to the two texts. *)
Inductive macDisagrees `{Platform} (key : bytes) (p : EncryptionParams) : Prop :=
| macMismatch :
    hmacOf p key <> mac p -> macDisagrees key p
| macChanged (original : EncryptionParams) :
    mac original = hmacOf original key ->
    salt p = salt original -> iv p = iv original ->
    cipherText p = cipherText original ->
    singleCharacterChange (mac original) (mac p) ->
    macDisagrees key p
| cipherTextChanged (original : EncryptionParams) :
    mac original = hmacOf original key ->
    salt p = salt original -> iv p = iv original ->
    mac p = mac original ->
    singleCharacterChange (cipherText original) (cipherText p) ->
    hmacOf p key <> hmacOf original key ->
    macDisagrees key p.

(** The three kinds of line the loop of [encryptLines] tells apart by
    its first two tests. *)
Definition isBlank (line : string) : bool :=
  String.eqb (JsString.trim line) "".

Definition isMalformed (line : string) : bool :=
  negb (isBlank line) && negb (JsString.includes (JsString.trim line) "=").

(** The message [writeFile] throws when handed no content, for the key
    name [writeEnvFileLines] passes. *)
Definition noContentError : error :=
  Error ("No content provided for file: " +:+ FileEncoding.UTF8).

Definition emptyFileError : error :=
  Error "File is completely empty or contains only whitespace.".

(** A value that reads back as written: no [$] (which the replacement
    text of [String.prototype.replace] interprets) and no line
    terminator. *)
Definition isPlainValue (v : string) : bool :=
  JsString.forallb
    (fun c => negb (Ascii.eqb c "$") && negb (JsString.isLineTerminator c)) v.

(** [ls] with its first element satisfying [p] replaced by [x]. *)
Fixpoint replaceFirst (p : string -> bool) (x : string) (ls : list string) : list string :=
  match ls with
  | [] => []
  | l :: rest => if p l then x :: rest else l :: replaceFirst p x rest
  end.

(** A text without line terminator. *)
Abbreviation noTerminator s :=
  (JsString.forallb (fun c => negb (JsString.isLineTerminator c)) s).

(** The lines among which a search that starts at a line start ([b]
    true) or inside the first line ([b] false) can match. *)
Definition fromLineStart (b : bool) (ls : list string) : list string :=
  if b then ls else tl ls.

(** [x] occurs in [ls], and no other element satisfies [p]. *)
Definition soleEntry (p : string -> bool) (x : string) (ls : list string) : Prop :=
  exists A B, ls = (A ++ x :: B)%list
              /\ Forall (fun l => p l = false) A
              /\ Forall (fun l => p l = false) B.

(** What [storeBaseEnvKey] does to the lines of the file, [p]
    recognising the lines of the key and [x] being the new line: the
    first such line is replaced; without one, [x] and a line feed are
    appended to the text, which extends the last line by [x] and opens
    an empty one. *)
Definition upsertLines (p : string -> bool) (x : string) (ls : list string) : list string :=
  match List.find p ls with
  | Some _ => replaceFirst p x ls
  | None => (removelast ls ++ [List.last ls "" +:+ x; ""])%list
  end.


(** ** A test double for the platform

    A small, executable stand-in for the libraries, used to run the code
    on concrete inputs.  Bytes are rendered in hexadecimal wherever the
    real libraries use Base64; the cipher is a one-byte XOR stream with
    one byte of padding; the MAC is the key and the message side by
    side; the key derivation returns an encoded hash that starts as
    Argon2's does; JSON is limited to objects of string members; the
    regular expression engine knows the two shapes the repository
    builds.  It satisfies [JsonLaws], [CryptoLaws] and [RegExpLaws]. *)

Module TestPlatform.

Definition DQUOTE : ascii := ascii_of_nat 34.
Definition BACKSLASH : ascii := ascii_of_nat 92.

(** *** Hexadecimal *)

Definition hexDigit (n : N) : ascii :=
  match String.get (N.to_nat n) "0123456789abcdef" with
  | Some c => c
  | None => "0"%char
  end.

Definition hexValue (c : ascii) : option N :=
  let n := N_of_ascii c in
  if (48 <=? n)%N && (n <=? 57)%N then Some (n - 48)%N
  else if (97 <=? n)%N && (n <=? 102)%N then Some (n - 87)%N
  else None.

Fixpoint hexEncode (bs : bytes) : string :=
  match bs with
  | [] => EmptyString
  | b :: rest =>
      String (hexDigit (Byte.to_N b / 16)) (String (hexDigit (Byte.to_N b mod 16))
        (hexEncode rest))
  end.

(** Decoding stops at the first pair that is not hexadecimal. *)
Fixpoint hexDecode (s : string) : bytes :=
  match s with
  | String h (String l rest) =>
      match hexValue h, hexValue l with
      | Some hv, Some lv =>
          match Byte.of_N (16 * hv + lv) with
          | Some b => b :: hexDecode rest
          | None => []
          end
      | _, _ => []
      end
  | _ => []
  end.

(** *** Cipher and MAC *)

Definition xorBits (a b : bool * (bool * (bool * (bool * (bool * (bool * (bool * bool)))))))
  : bool * (bool * (bool * (bool * (bool * (bool * (bool * bool)))))) :=
  let '(a0, (a1, (a2, (a3, (a4, (a5, (a6, a7))))))) := a in
  let '(b0, (b1, (b2, (b3, (b4, (b5, (b6, b7))))))) := b in
  (xorb a0 b0, (xorb a1 b1, (xorb a2 b2, (xorb a3 b3,
   (xorb a4 b4, (xorb a5 b5, (xorb a6 b6, xorb a7 b7))))))).

Definition xorByte (a b : Byte.byte) : Byte.byte :=
  Byte.of_bits (xorBits (Byte.to_bits a) (Byte.to_bits b)).

(** One byte made of the key and the IV. *)
Definition streamByte (key iv : bytes) : Byte.byte :=
  fold_right xorByte Byte.x00 (key ++ iv).

Definition encryptBytes (v : string) (key iv : bytes) : error + bytes :=
  inr (map (xorByte (streamByte key iv)) (String.list_byte_of_string v ++ [Byte.x01])).

Definition decryptBytes (c key iv : bytes) : error + bytes :=
  inr (removelast (map (xorByte (streamByte key iv)) c)).

Definition hmac (msg key : string) : bytes :=
  String.list_byte_of_string (key +:+ "|" +:+ msg).

(** Like [argon2.hash] called without the [raw] option, the stand-in
    insists on a salt of eight bytes or more and returns the encoded form
    of the hash: the variant, the version, the salt and the tag. *)
Definition hash (secretKey : string) (options : Argon2Options) : error + string :=
  if (length (argon2Salt options) <? 8)%nat then inl (Error "Invalid salt length")
  else inr ("$argon2id$v=19$" +:+ hexEncode (argon2Salt options) +:+ "$" +:+
            hexEncode (argon2Salt options ++ String.list_byte_of_string secretKey)).

(** *** JSON, for objects of string members *)

Fixpoint escape (s : string) : string :=
  match s with
  | EmptyString => EmptyString
  | String c r =>
      if Ascii.eqb c DQUOTE || Ascii.eqb c BACKSLASH
      then String BACKSLASH (String c (escape r))
      else String c (escape r)
  end.

(** The string literal for [s], followed by [rest]. *)
Definition quoteThen (s rest : string) : string :=
  String DQUOTE (escape s +:+ String DQUOTE rest).

Fixpoint stringifyMembers (members : list (string * string)) : string :=
  match members with
  | [] => "}"
  | (k, v) :: rest =>
      quoteThen k (String ":" (quoteThen v
        match rest with
        | [] => "}"
        | _ :: _ => String "," (stringifyMembers rest)
        end))
  end.

Fixpoint stringMembers (members : list (string * json)) : option (list (string * string)) :=
  match members with
  | [] => Some []
  | (k, JString v) :: rest =>
      match stringMembers rest with
      | Some ms => Some ((k, v) :: ms)
      | None => None
      end
  | _ :: _ => None
  end.

Definition stringify (j : json) : string :=
  match j with
  | JString s => quoteThen s ""
  | JObject members =>
      match stringMembers members with
      | Some ms => String "{" (stringifyMembers ms)
      | None => "null"
      end
  | _ => "null"
  end.

Inductive token : Type :=
| TLeftBrace | TRightBrace | TColon | TComma
| TString (s : string)
| TBad.

Inductive lexState : Type :=
| Outside
| Inside (acc : string)
| Escaped (acc : string).

Fixpoint lex (st : lexState) (s : string) : list token :=
  match s with
  | EmptyString => match st with Outside => [] | _ => [TBad] end
  | String c r =>
      match st with
      | Outside =>
          if Ascii.eqb c DQUOTE then lex (Inside "") r
          else if Ascii.eqb c "{" then TLeftBrace :: lex Outside r
          else if Ascii.eqb c "}" then TRightBrace :: lex Outside r
          else if Ascii.eqb c ":" then TColon :: lex Outside r
          else if Ascii.eqb c "," then TComma :: lex Outside r
          else if JsString.isWhiteSpace c then lex Outside r
          else TBad :: lex Outside r
      | Inside acc =>
          if Ascii.eqb c DQUOTE then TString acc :: lex Outside r
          else if Ascii.eqb c BACKSLASH then lex (Escaped acc) r
          else lex (Inside (acc +:+ String c "")) r
      | Escaped acc => lex (Inside (acc +:+ String c "")) r
      end
  end.

Fixpoint parseMembers (ts : list token) : option (list (string * json)) :=
  match ts with
  | TString k :: TColon :: TString v :: rest =>
      match rest with
      | [TRightBrace] => Some [(k, JString v)]
      | TComma :: rest' =>
          match parseMembers rest' with
          | Some ms => Some ((k, JString v) :: ms)
          | None => None
          end
      | _ => None
      end
  | _ => None
  end.

Definition syntaxError : error :=
  JsError "SyntaxError" "Unexpected token in JSON".

Definition parse (text : string) : error + json :=
  match lex Outside text with
  | [TString s] => inr (JString s)
  | [TLeftBrace; TRightBrace] => inr (JObject [])
  | TLeftBrace :: ts =>
      match parseMembers ts with
      | Some ms => inr (JObject ms)
      | None => inl syntaxError
      end
  | _ => inl syntaxError
  end.

(** *** Regular expressions *)

Definition isLiteralCharacter (c : ascii) : bool :=
  negb (RegExpSemantics.isSyntaxCharacter c) && negb (JsString.isLineTerminator c).

Fixpoint spanLiteral (s : string) : string * string :=
  match s with
  | EmptyString => (EmptyString, EmptyString)
  | String c r =>
      if isLiteralCharacter c
      then let '(lit, rest) := spanLiteral r in (String c lit, rest)
      else (EmptyString, s)
  end.

Definition unsupported : error :=
  JsError "SyntaxError" "Pattern outside the test double".

Definition exec (source flags input : string) : error + option RegExpMatch :=
  match source with
  | String c body =>
      let '(lit, rest) := spanLiteral body in
      if negb (Ascii.eqb c "^") || negb (String.eqb flags "m") then inl unsupported
      else if String.eqb rest ".*" then inr (RegExpSemantics.execLine lit input)
      else if String.eqb rest "(.*)$" then inr (RegExpSemantics.execLineCapture lit input)
      else inl unsupported
  | EmptyString => inl unsupported
  end.

(** *** The instance *)

Definition platform : Platform := {|
  Buffer_toString_base64 := hexEncode;
  Buffer_from_base64 := hexDecode;
  argon2_hash := hash;
  Base64_parse := hexDecode;
  Base64_stringify := hexEncode;
  Utf8_stringify := fun d => inr (String.string_of_list_byte d);
  Hex_stringify := hexEncode;
  AES_encrypt := encryptBytes;
  AES_decrypt := decryptBytes;
  HmacSHA256 := hmac;
  JSON_parse := parse;
  JSON_stringify := stringify;
  RegExp_exec := exec;
  decrypt_untyped := fun _ _ =>
    throw (JsError "TypeError" "The salt argument must be of type string.");
  randomBytes_RangeError := fun _ =>
    JsError "RangeError" "The value of size is out of range.";
  randomBytes_failure := Error "Secure random source unavailable.";
  readFileSync_ENOENT := fun path =>
    Error ("ENOENT: no such file or directory, open '" +:+ path +:+ "'");
  destructure_TypeError :=
    JsError "TypeError"
      "Cannot destructure property 'salt' of 'parsedData' as it is null.";
  process_cwd := "/work";
  path_resolve := fun a b => a +:+ "/" +:+ b;
  path_join := fun a b => a +:+ "/" +:+ b;
  path_relative := fun _ p => p
|}.

Definition config : CryptoConfig := {|
  IV_LENGTH := 16;
  SALT_LENGTH := 16;
  SECRET_KEY_LENGTH := 32;
  HASH_LENGTH := 32;
  TIME_COST := 3;
  PARALLELISM := 1
|}.

(** A world with an empty file store and 64 bytes of entropy. *)
Definition world0 : world :=
  {| files := ∅;
     entropy := repeat Byte.x3a 16 ++ repeat Byte.xc5 16 ++
                repeat Byte.x5e 16 ++ repeat Byte.x81 16;
     logged := [];
     calls := [] |}.

Definition handler : Handler :=
  {| envDirPath := "/work/envs";
     envFilePath := "/work/envs/.env.uat";
     secretKey := "s3cret";
     baseEnvFilePath := "/work/envs/.env" |}.

(** The same world with one file in the store. *)
Definition worldWith (path content : string) : world :=
  {| files := {[ path := content ]};
     entropy := entropy world0;
     logged := [];
     calls := [] |}.

Definition lines (ls : list string) : string :=
  JsString.join ls (String JsString.LF "").

(** The envelope [encrypt] makes of [hunter2] in [world0]. *)
Definition sampleEnvelope : EncryptionParams :=
  Eval vm_compute in
    match @CryptoService.encrypt platform config "hunter2" "s3cret" world0 with
    | (Ok p, _) => p
    | (Throw _, _) => {| salt := ""; iv := ""; cipherText := ""; mac := "" |}
    end.

(** The same envelope with the first character of its MAC replaced. *)
Definition tamperedEnvelope : EncryptionParams :=
  {| salt := salt sampleEnvelope;
     iv := iv sampleEnvelope;
     cipherText := cipherText sampleEnvelope;
     mac := match mac sampleEnvelope with
            | String _ r => String "f" r
            | EmptyString => EmptyString
            end |}.

End TestPlatform.


(** * The rest of the repository

    The callers of the pipeline ([src/crypto/cryptoManager.ts]), the
    remaining helpers of [src/helpers/utilityHelper.ts] and the
    environment selection of [src/utils/globalEnvConfig.ts]. *)

(** ** More of JavaScript's strings and numbers *)

Module JsText.

(** [s.replace(/\s+/g, r)] for a replacement text [r] without [$]:
    every maximal run of white space becomes [r].  The class [\s] is
    the set [String.prototype.trim] strips.  [inRun] tells that the
    character before was white space. *)
Fixpoint replaceWhiteSpaceRuns (r : string) (inRun : bool) (s : string) : string :=
  match s with
  | EmptyString => EmptyString
  | String c rest =>
      if JsString.isWhiteSpace c
      then if inRun then replaceWhiteSpaceRuns r true rest
           else r +:+ replaceWhiteSpaceRuns r true rest
      else String c (replaceWhiteSpaceRuns r false rest)
  end.

(** [s.replace(/\s/g, e)] with [e] the empty string. *)
Fixpoint removeWhiteSpace (s : string) : string :=
  match s with
  | EmptyString => EmptyString
  | String c rest =>
      if JsString.isWhiteSpace c then removeWhiteSpace rest
      else String c (removeWhiteSpace rest)
  end.

(** [s.replace(/R\s/g, e)] with [e] the empty string: matches are
    looked for from left to right and do not overlap. *)
Fixpoint removeRWhiteSpace (s : string) : string :=
  match s with
  | EmptyString => EmptyString
  | String c rest =>
      match rest with
      | String d rest' =>
          if Ascii.eqb c "R" && JsString.isWhiteSpace d
          then removeRWhiteSpace rest'
          else String c (removeRWhiteSpace rest)
      | EmptyString => String c EmptyString
      end
  end.

(** [s.padStart(targetLength, padString)]. *)
Definition padStart (s : string) (targetLength : nat) (padString : string) : string :=
  let len := String.length s in
  if (targetLength <=? len)%nat || String.eqb padString "" then s
  else
    let fillLen := (targetLength - len)%nat in
    String.substring 0 fillLen (String.concat "" (repeat padString fillLen)) +:+ s.

(** [s.slice(0, end)] for an integer [end]; a negative [end] counts
    from the end of the string. *)
Definition slice0 (s : string) (end_ : Z) : string :=
  if end_ <? 0
  then String.substring 0 (String.length s - Z.to_nat (- end_)) s
  else String.substring 0 (Z.to_nat end_) s.

End JsText.

Module JsNumber.

Definition digit16 (n : N) : ascii :=
  match String.get (N.to_nat n) "0123456789abcdef" with
  | Some c => c
  | None => "0"%char
  end.

Fixpoint toRadix16 (fuel : nat) (n : N) : string :=
  match fuel with
  | O => EmptyString
  | S f =>
      if (n <? 16)%N then String (digit16 n) EmptyString
      else toRadix16 f (n / 16)%N +:+ String (digit16 (n mod 16)%N) EmptyString
  end.

(** [n.toString(16)] for a non-negative integer. *)
Definition toString16 (n : N) : string :=
  toRadix16 (S (N.to_nat (N.log2 n))) n.

(** [Math.ceil(n / 2)] for an integer [n]. *)
Definition ceilHalf (n : Z) : Z := - ((- n) / 2).

End JsNumber.

(** ** The Web Crypto global

    [utilityHelper.ts] uses the global [crypto] of Node (the Web Crypto
    API), not the [crypto] module.  [getRandomValues_error n] is what
    [new Uint8Array(n)] followed by [crypto.getRandomValues] raises for
    [n] above 65536 bytes (the quota of [getRandomValues], or the range
    error of an array that cannot be allocated). *)

Class WebCrypto : Type := {
  getRandomValues_error : Z -> error;
  getRandomValues_failure : error
}.

Module webcrypto.
Section WithWebCrypto.
Context `{WebCrypto}.

(** [const array = new Uint8Array(byteLength); crypto.getRandomValues(array)]
    for [byteLength >= 0]: the filled array. *)
Definition getRandomValues (byteLength : Z) : M bytes :=
  fun w =>
    if 65536 <? byteLength then
      (Throw (getRandomValues_error byteLength), w)
    else if Z.of_nat (length (entropy w)) <? byteLength then
      (Throw getRandomValues_failure, w)
    else
      (Ok (take (Z.to_nat byteLength) (entropy w)),
       World (files w) (drop (Z.to_nat byteLength) (entropy w)) (logged w) (calls w)).

End WithWebCrypto.
End webcrypto.

(** ** [src/helpers/utilityHelper.ts], continued *)

Module UtilityHelper.
Section WithPlatform.
Context `{Platform} `{WebCrypto}.

(** [fs.promises.access] resolves exactly when the path is in the file
    store.  An omitted [envName] is printed as [undefined]. *)
Definition doesFileExists (filePath : string) (envName : option string) : M bool :=
  tryLogRethrow
    (let relativePath := path_relative process_cwd filePath in
     exists_ <- fs.existsSync filePath ;;
     if exists_ then ret true
     else
       logger.warn ("File " +:+ default "undefined" envName +:+
                    " does not exist on path: '" +:+ relativePath +:+ "'") ;;;
       ret exists_)
    "doesFileExists"
    (Some "Failed to check file existence").

Definition readFile (path : string) : M string :=
  tryLogRethrow
    (present <- doesFileExists path None ;;
     (if negb present then throw (Error ("File not found: " +:+ path)) else ret tt) ;;;
     content <- fs.readFileSync path ;;
     logger.info ("Successfully loaded file: " +:+ path) ;;;
     ret content)
    "loadFile" None.

(** [arr[arr.length - 1 - index]] for an integer [index]; [None] is
    [undefined].  Reading an element of an array does not throw: the
    [catch] block cannot be reached. *)
Definition getReversedData (arr : list string) (index : Z) : option string :=
  let i := Z.of_nat (length arr) - 1 - index in
  if i <? 0 then None else nth_error arr (Z.to_nat i).

(** Both methods below work on strings with methods that do not throw:
    their [catch] blocks cannot be reached. *)
Definition normalizeString (str : string) : string :=
  JsText.replaceWhiteSpaceRuns " " false (JsString.trim str).

(** [value] defaults to the empty string; [None] is [null] or
    [undefined]. *)
Definition safeReplace (value : option string) : string :=
  JsText.removeWhiteSpace (JsText.removeRWhiteSpace (default "" value)).

(** The rendering of one byte in [createRandomString]. *)
Definition byteToHex (byte : Byte.byte) : string :=
  JsText.padStart (JsNumber.toString16 (Byte.to_N byte)) 2 "0".

(** [length] is an integer. *)
Definition createRandomString (length : Z) : M string :=
  if length <=? 0 then throw (Error "Length must be a positive integer.")
  else
    tryLogRethrow
      (let byteLength := JsNumber.ceilHalf length in
       array <- webcrypto.getRandomValues byteLength ;;
       ret (JsText.slice0 (JsString.join (map byteToHex array) "") length))
      "createRandomString" None.

End WithPlatform.
End UtilityHelper.

(** ** [src/crypto/cryptoManager.ts]

    [this] is the object held in the static field [encryptionHandler].
    [encryptEnvironmentVariables] assigns its [envFilePath] and
    [secretKey]; the object it leaves behind is returned. *)

Module CryptoManager.
Section WithPlatform.
Context `{Platform} `{CryptoConfig}.

Definition generateSecretKey (this : Handler) : M string :=
  tryLogRethrow
    (EncryptionHandler.generateSecretKey this)
    "generateSecretKey" None.

(** The generated key is a string: the test for [undefined] and [null]
    cannot succeed. *)
Definition generateAndStoreSecretKey (this : Handler) (keyName : string) : M unit :=
  tryLogRethrow
    (secretKey <- generateSecretKey this ;;
     EnvFilesHandler.storeBaseEnvKey this keyName secretKey)
    "storeSecretKey" None.

Definition encryptEnvironmentVariables (this : Handler) (env secretKey : string) : M Handler :=
  tryLogRethrow
    (this' <- EncryptionHandler.initializeEncryption this env secretKey ;;
     EncryptionHandler.encryptEnvVariables this' ;;;
     ret this')
    "encryptEnvironmentVariables"
    (Some "Failed to encrypt environment variables").

End WithPlatform.
End CryptoManager.

(** ** [src/config/environment.config.ts], continued, and
    [src/utils/globalEnvConfig.ts] *)

Module EnvironmentFiles.

Definition DEV_ENV_FILE : string := ".env.dev".
Definition UAT_ENV_FILE : string := ".env.uat".
Definition PROD_ENV_FILE : string := ".env.prod".

(** The object literal, in the order of its properties. *)
Definition EnvironmentFilePathsMap : list (string * string) :=
  [("dev", DEV_ENV_FILE); ("uat", UAT_ENV_FILE); ("prod", PROD_ENV_FILE)].

(** [Object.keys(EnvironmentFilePathsMap)]. *)
Definition keys : list string := map fst EnvironmentFilePathsMap.

(** [EnvironmentFilePathsMap[env]]; [None] is [undefined]. *)
Fixpoint lookup (env : string) (m : list (string * string)) : option string :=
  match m with
  | [] => None
  | (k, v) :: rest => if String.eqb env k then Some v else lookup env rest
  end.

End EnvironmentFiles.

Module GlobalEnvConfig.

(** [ENV] is [process.env.ENV]; [None] is [undefined]. *)
Definition loadEnv (ENV : option string) : M string :=
  tryLogRethrow
    (match ENV with
     | Some env =>
         if negb (JsString.truthy env)
            || negb (existsb (String.eqb env) EnvironmentFiles.keys)
         then throw (Error ("Invalid environment specified: " +:+ env +:+
                            ". Expected one of: " +:+
                            JsString.join EnvironmentFiles.keys ", "))
         else ret env
     | None =>
         throw (Error ("Invalid environment specified: undefined" +:+
                       ". Expected one of: " +:+
                       JsString.join EnvironmentFiles.keys ", "))
     end)
    "loadEnv"
    (Some "Failed to load environment").

End GlobalEnvConfig.

(** ** More of what the proofs assume about the platform *)

(** The Base64 alphabet. *)
Definition isBase64Char (c : ascii) : bool :=
  let n := nat_of_ascii c in
  ((65 <=? n) && (n <=? 90) || (97 <=? n) && (n <=? 122)
   || (48 <=? n) && (n <=? 57))%nat
  || Ascii.eqb c "+" || Ascii.eqb c "/" || Ascii.eqb c "=".

(** [Buffer.prototype.toString("base64")] writes in that alphabet. *)
Class Base64Laws `{Platform} : Prop := {
  Buffer_base64_alphabet : forall b : bytes,
    JsString.forallb isBase64Char (Buffer_toString_base64 b) = true
}.

(** [argon2.hash] is called without the [raw] option: what it returns is
    not the raw hash but its encoded form, a text that starts with the
    variant and the version, [$argon2id$v=19$], followed by the costs, the
    salt and the hash.  [CryptoJS.enc.Base64.parse] reads its argument up
    to the first padding character [=] and ignores the rest. *)
Class KeyDerivationLaws `{Platform} : Prop := {
  argon2_hash_encoded : forall (secretKey : string) (options : Argon2Options)
                               (encoded : string),
    argon2_hash secretKey options = inr encoded ->
    exists rest, encoded = "$argon2id$v=19$" +:+ rest;
  Base64_parse_padding : forall a b : string,
    Base64_parse (a +:+ "=" +:+ b) = Base64_parse a
}.

(** ** More vocabulary *)

(** A text whose last line is finished: it is empty or ends with a line
    terminator. *)
Definition endsWithTerminator (s : string) : Prop :=
  s = "" \/ exists a t, s = a +:+ String t "" /\ JsString.isLineTerminator t = true.

(** The pieces of a line the loop of [encryptLines] works with: the
    text before the first [=] of the trimmed line, and the text between
    the first and the second [=] (empty when there is none). *)
Definition lineKey (line : string) : string :=
  default "undefined" (nth_error (JsString.split (JsString.trim line) "=") 0).

Definition lineValue (line : string) : string :=
  default "" (nth_error (JsString.split (JsString.trim line) "=") 1).

(** What the loop emits for a line that is not malformed, under the
    secret key [key]: nothing but the empty string for a blank line; the
    line itself when it has no value; else the key, [=] and a text that
    [decrypt] turns back into the trimmed value (when that is not empty). *)
Definition lineResult `{Platform} `{CryptoConfig} (key : string) (line out : string) : Prop :=
  if isBlank line then out = ""
  else if negb (JsString.truthy (lineValue line)) then out = line
  else exists text,
         out = lineKey line +:+ "=" +:+ text
         /\ (JsString.trim (lineValue line) <> "" ->
             forall w0, exists w1,
               CryptoService.decrypt text key w0 = (Ok (JsString.trim (lineValue line)), w1)).

(** No white space at either end, and inside only single spaces. *)
Fixpoint singleSpaced (s : string) : bool :=
  match s with
  | EmptyString => true
  | String c rest =>
      if JsString.isWhiteSpace c
      then Ascii.eqb c " "
           && match rest with
              | EmptyString => false
              | String d _ => negb (JsString.isWhiteSpace d)
              end
           && singleSpaced rest
      else singleSpaced rest
  end.

Definition isNormalized (s : string) : bool :=
  match s with
  | EmptyString => true
  | String c _ => negb (JsString.isWhiteSpace c) && singleSpaced s
  end.

Definition isHexDigit (c : ascii) : bool :=
  JsString.includes "0123456789abcdef" c.

(** The diagnostics of the malformed lines among [lines], the first of
    which is at position [index] of the file. *)
Fixpoint diagnostics (this : Handler) (index : nat) (lines : list string) : list string :=
  match lines with
  | [] => []
  | line :: rest =>
      if isMalformed line
      then EncryptionHandler.handleInvalidFormatError this index line
           :: diagnostics this (S index) rest
      else diagnostics this (S index) rest
  end.

(** The entries [encryptLines] adds to the log for a list of
    diagnostics: each of them, and one report of all when there is one. *)
Definition diagnosticsLog (errors : list string) : list (level * string) :=
  (map (fun d => (ErrorLevel, d)) errors ++
   match errors with
   | [] => []
   | _ :: _ =>
       [(ErrorLevel,
         "[Method: encryptLines] Failed to encrypt some lines: Error: " +:+
         JsString.join errors (String JsString.LF ""))]
   end)%list.

(** A text without [=], and a text without line feed. *)
Abbreviation noEquals s :=
  (JsString.forallb (fun c => negb (Ascii.eqb "=" c)) s).

Abbreviation noLineFeed s :=
  (JsString.forallb (fun c => negb (Ascii.eqb JsString.LF c)) s).

(** A line with a value to encrypt: the trimmed line has a second
    piece that is not empty. *)
Definition hasValue (line : string) : bool :=
  JsString.truthy (lineValue line).

(** The bytes of a list of draws from the random source, in the order
    they were taken: a draw is what one call of [encrypt] takes, the bytes
    of its salt and then the bytes of its IV. *)
Definition drawnBytes (draws : list (bytes * bytes)) : bytes :=
  concat (map (fun d => (fst d ++ snd d)%list) draws).

(** The emitted lines that carry an envelope, each beside the line it was
    made from: [out] holds one text for each of [lines] that is not
    malformed, in their order. *)
Definition encryptedPairs (lines out : list string) : list (string * string) :=
  List.filter (fun lo => hasValue (fst lo))
    (combine (List.filter (fun l => negb (isMalformed l)) lines) out).

(** The emitted text is the key of its line, [=] and the envelope whose
    salt and IV are the encodings of the two parts of the draw, which have
    the configured lengths. *)
Definition madeFrom `{Platform} `{CryptoConfig}
    (lo : string * string) (d : bytes * bytes) : Prop :=
  length (fst d) = Z.to_nat SALT_LENGTH
  /\ length (snd d) = Z.to_nat IV_LENGTH
  /\ exists p : EncryptionParams,
       snd lo = lineKey (fst lo) +:+ "=" +:+ JSON_stringify (EncryptionParams_toJson p)
       /\ salt p = Buffer_toString_base64 (fst d)
       /\ iv p = Buffer_toString_base64 (snd d).

(** ** The test double, continued *)

Module TestRuntime.

Definition webCrypto : WebCrypto := {|
  getRandomValues_error := fun _ =>
    JsError "QuotaExceededError" "The requested length exceeds 65,536 bytes";
  getRandomValues_failure := Error "Secure random source unavailable."
|}.

End TestRuntime.


(** * Proofs *)

(** ** Strings *)

Lemma append_nil_l (s : string) : "" +:+ s = s.
Proof. reflexivity. Qed.

Lemma append_cons (c : ascii) (s t : string) : String c s +:+ t = String c (s +:+ t).
Proof. reflexivity. Qed.

Lemma append_nil_r (s : string) : s +:+ "" = s.
Proof. induction s as [|c s IH]; [reflexivity|]. now rewrite append_cons, IH. Qed.

Lemma append_assoc (s t u : string) : (s +:+ t) +:+ u = s +:+ t +:+ u.
Proof. induction s as [|c s IH]; [reflexivity|]. now rewrite !append_cons, IH. Qed.

Lemma length_append (s t : string) :
  String.length (s +:+ t) = (String.length s + String.length t)%nat.
Proof. induction s as [|c s IH]; [reflexivity|]. rewrite append_cons. simpl. now rewrite IH. Qed.

Lemma append_eq_nil (s t : string) : s +:+ t = "" -> s = "" /\ t = "".
Proof.
  destruct s; [intros Ht; change (t = "") in Ht; now subst|].
  rewrite append_cons. discriminate.
Qed.

Lemma substring_0_append (s t : string) :
  String.substring 0 (String.length s) (s +:+ t) = s.
Proof.
  induction s as [|c s IH]; [now destruct t|]. rewrite append_cons. simpl. now rewrite IH.
Qed.

Lemma substring_all (s : string) : String.substring 0 (String.length s) s = s.
Proof. induction s as [|c s IH]; [reflexivity|]. simpl. now rewrite IH. Qed.

Lemma substring_skip_append (s t : string) (n : nat) :
  String.substring (String.length s) n (s +:+ t) = String.substring 0 n t.
Proof.
  induction s as [|c s IH]; [reflexivity|]. rewrite append_cons. simpl. exact IH.
Qed.

Lemma prefix_append (s t : string) : String.prefix s (s +:+ t) = true.
Proof.
  induction s as [|c s IH]; [now destruct t|]. rewrite append_cons. simpl.
  destruct (ascii_dec c c); [exact IH|congruence].
Qed.

Lemma forallb_append (p : ascii -> bool) (s t : string) :
  JsString.forallb p (s +:+ t) = JsString.forallb p s && JsString.forallb p t.
Proof.
  induction s as [|c s IH]; [reflexivity|]. rewrite append_cons. simpl.
  now rewrite IH, andb_assoc.
Qed.

Lemma splitBy_nonempty (p : ascii -> bool) (s : string) : JsString.splitBy p s <> [].
Proof.
  destruct s as [|c s]; simpl; [discriminate|].
  destruct (p c); [discriminate|]. destruct (JsString.splitBy p s); discriminate.
Qed.

Lemma splitBy_cons_other (p : ascii -> bool) (c : ascii) (s : string) :
  p c = false ->
  JsString.splitBy p (String c s) =
  String c (hd "" (JsString.splitBy p s)) :: tl (JsString.splitBy p s).
Proof.
  intros Hc. simpl. rewrite Hc.
  destruct (JsString.splitBy p s) eqn:Hs; [|reflexivity].
  now apply splitBy_nonempty in Hs.
Qed.

Lemma splitBy_piece (p : ascii -> bool) (s : string) :
  JsString.forallb (fun c => negb (p c)) s = true -> JsString.splitBy p s = [s].
Proof.
  induction s as [|c s IH]; [reflexivity|].
  simpl. intros [Hc Hs]%andb_true_iff. apply negb_true_iff in Hc.
  rewrite Hc, (IH Hs). reflexivity.
Qed.

Lemma splitBy_separator (p : ascii -> bool) (a b : string) (t : ascii) :
  p t = true ->
  JsString.splitBy p (a +:+ String t b) = (JsString.splitBy p a ++ JsString.splitBy p b)%list.
Proof.
  intros Ht. induction a as [|c a IH].
  - rewrite append_nil_l. simpl. now rewrite Ht.
  - rewrite append_cons. simpl. rewrite IH.
    destruct (p c); [reflexivity|].
    destruct (JsString.splitBy p a) eqn:Ha; [|reflexivity].
    now apply splitBy_nonempty in Ha.
Qed.

Lemma includes_append_char (a b : string) (c : ascii) :
  JsString.includes (a +:+ String c b) c = true.
Proof.
  induction a as [|d a IH].
  - rewrite append_nil_l. simpl. now rewrite Ascii.eqb_refl.
  - rewrite append_cons. simpl. rewrite IH. now destruct (Ascii.eqb d c).
Qed.

(** ** Running the monad *)

Ltac js_unfold :=
  cbv beta iota delta
    [bind ret throw tryCatch tryLogRethrow liftOutcome log trace withLogged
     logger.info logger.warn logger.error
     ErrorHandler.logError ErrorHandler.logMessage ErrorHandler.logThrowError
     ErrorHandler.formatErrorMessage] in *.

Lemma truthy_false_iff (s : string) : JsString.truthy s = false <-> s = "".
Proof.
  unfold JsString.truthy. destruct (String.eqb_spec s ""); simpl; split; congruence.
Qed.

Lemma truthy_true_iff (s : string) : JsString.truthy s = true <-> s <> "".
Proof.
  unfold JsString.truthy. destruct (String.eqb_spec s ""); simpl; split; congruence.
Qed.

Section Generators.
Context `{Platform} `{CryptoConfig}.

(** C5.  [generateSecretKey] has no guard on its length.  Asked for zero
    bytes it draws zero bytes and returns their encoding, where
    [generateSalt] and [generateIvAsBase64] throw their invalid-length
    error without touching the world; asked for a negative number of
    bytes it passes the number on to [crypto.randomBytes] and rethrows
    the library's range error. *)
Theorem generateSecretKey_accepts_zero_length (w : world) :
  CryptoUtil.generateSecretKey (Some 0) w =
    (Ok (Buffer_toString_base64 []),
     World (files w) (entropy w) (logged w) (calls w ++ [CallRandomBytes 0]))
  /\ CryptoUtil.generateSalt (Some 0) w =
       (Throw (Error "Salt length must be greater than zero."), w)
  /\ CryptoUtil.generateIvAsBase64 (Some 0) w =
       (Throw (Error "IV length must be greater than zero."), w)
  /\ CryptoUtil.generateSecretKey (Some (-1)) w =
       (Throw (randomBytes_RangeError (-1)),
        withLogged w
          [(ErrorLevel,
            "[Method: generateKey] Failed to generate key: Error: " +:+
            message (randomBytes_RangeError (-1)))]).
Proof.
  repeat split.
  unfold CryptoUtil.generateSecretKey, crypto.randomBytes. js_unfold. simpl.
  destruct (entropy w); reflexivity.
Qed.

End Generators.

Section Envelope.
Context `{Platform} `{CryptoConfig}.

Lemma validateParsedData_missing (j : json) (f : string) (w : world) :
  In f requiredFields ->
  JsValue.truthy (JsValue.getMember j f) = false ->
  exists e w',
    CryptoUtil.validateParsedData j w = (Throw e, w') /\ onlyLogged w w' /\
    (e = Error "Missing required properties in parsed data."
     \/ e = destructure_TypeError).
Proof.
  intros Hf Hfalsy.
  assert (Hcond : j = JNull \/
            negb (JsValue.truthy (JsValue.getMember j "salt"))
            || negb (JsValue.truthy (JsValue.getMember j "iv"))
            || negb (JsValue.truthy (JsValue.getMember j "cipherText"))
            || negb (JsValue.truthy (JsValue.getMember j "mac")) = true).
  { right. simpl in Hf.
    destruct Hf as [<-|[<-|[<-|[<-|[]]]]]; rewrite Hfalsy; simpl;
      rewrite ?orb_true_r; reflexivity. }
  unfold CryptoUtil.validateParsedData. js_unfold.
  destruct Hcond as [->|Hcond].
  - eexists _, _. split; [reflexivity|]. split; [repeat split|]. now right.
  - destruct j; try (rewrite Hcond; eexists _, _; split; [reflexivity|];
                     split; [repeat split|]; now left).
    eexists _, _. split; [reflexivity|]. split; [repeat split|]. now right.
Qed.

(** C9.  A text that is empty, that [JSON.parse] rejects, or that
    parses to a value lacking one of [salt], [iv], [cipherText], [mac]
    makes [parseEncryptedData] throw, and [decrypt] throws the same error
    from the same world: nothing but the log has changed, in particular
    no key was derived and no library call was traced. *)
Theorem decrypt_rejects_malformed_envelope (text secretKey : string) (w : world) :
  malformedEnvelope text ->
  exists e w',
    CryptoUtil.parseEncryptedData text w = (Throw e, w')
    /\ CryptoService.decrypt text secretKey w = (Throw e, w')
    /\ onlyLogged w w'
    /\ envelopeError text e.
Proof.
  intros Hbad.
  assert (Hparse : exists e w',
             CryptoUtil.parseEncryptedData text w = (Throw e, w')
             /\ onlyLogged w w' /\ envelopeError text e).
  { unfold CryptoUtil.parseEncryptedData.
    destruct (JsString.truthy text) eqn:Htext.
    - destruct Hbad as [->|[[e He]|(j & f & Hj & Hf & Hfalsy)]].
      + discriminate.
      + js_unfold. rewrite He. simpl.
        eexists _, _. split; [reflexivity|]. split; [repeat split|].
        right; left; exact He.
      + destruct w as [fs en lg cs].
        destruct (validateParsedData_missing j f (World fs en lg cs) Hf Hfalsy)
          as (e & w1 & Hv & (Hfs & Hen & Hcs) & He).
        js_unfold. rewrite Hj. simpl. rewrite Hv.
        eexists _, _. split; [reflexivity|].
        split; [repeat split; assumption|].
        destruct He as [->| ->]; [right; right; left|right; right; right]; reflexivity.
    - js_unfold. simpl.
      eexists _, _. split; [reflexivity|]. split; [repeat split|]. now left. }
  destruct Hparse as (e & w' & Hp & Hlog & He).
  exists e, w'. repeat split; try assumption; try apply Hlog.
  unfold CryptoService.decrypt, bind. now rewrite Hp.
Qed.


Lemma parseEncryptedData_complete (text : string) (p : EncryptionParams) (w : world) :
  text <> "" ->
  JSON_parse text = inr (EncryptionParams_toJson p) ->
  complete p ->
  CryptoUtil.parseEncryptedData text w = (Ok (EncryptionParams_toJson p), w).
Proof.
  intros Hne Hparse (Hs & Hi & Hc & Hm).
  apply truthy_true_iff in Hne, Hs, Hi, Hc, Hm.
  unfold CryptoUtil.parseEncryptedData, CryptoUtil.validateParsedData. js_unfold.
  rewrite Hne, Hparse. simpl. rewrite Hs, Hi, Hc, Hm. simpl.
  destruct w; reflexivity.
Qed.

Lemma singleCharacterChange_neq (s s' : string) :
  singleCharacterChange s s' -> s' <> s.
Proof.
  intros (pre & c & c' & post & Hc & -> & ->) Heq.
  apply (inj (String.app pre)) in Heq. congruence.
Qed.

Lemma macDisagrees_mismatch (key : bytes) (p : EncryptionParams) :
  macDisagrees key p -> hmacOf p key <> mac p.
Proof.
  intros [Hne | p0 Hauth Hs Hi Hc Hchg | p0 Hauth Hs Hi Hm Hchg Hcol].
  - exact Hne.
  - apply singleCharacterChange_neq in Hchg.
    unfold hmacOf, macInput in *. rewrite Hs, Hi, Hc. congruence.
  - congruence.
Qed.

(** C2.  [decrypt] derives the key, recomputes the HMAC over
    [salt:iv:cipherText] and compares it with the stored [mac] before the
    cipher is called.  When they disagree (the recomputed MAC differs;
    or one character of an authentic [mac] was changed; or one character
    of an authentic [cipherText] was changed and HMAC-SHA256 tells the
    two texts apart) the call throws the integrity error: the trace ends
    with the key derivation and the HMAC, no decryption took place and no
    plaintext is returned. *)
Theorem decrypt_detects_tampering
    (text secretKey derived : string) (p : EncryptionParams) (w : world) :
  text <> "" ->
  JSON_parse text = inr (EncryptionParams_toJson p) ->
  complete p ->
  argon2_hash secretKey (CryptoUtil.argon2Options (salt p)) = inr derived ->
  macDisagrees (Base64_parse derived) p ->
  exists w',
    CryptoService.decrypt text secretKey w = (Throw integrityError, w')
    /\ files w' = files w
    /\ entropy w' = entropy w
    /\ calls w' = (calls w ++ [CallArgon2 secretKey (Buffer_from_base64 (salt p));
                               CallHmac (macInput p)])%list.
Proof.
  intros Hne Hparse Hcomplete Hderive Hmac.
  apply macDisagrees_mismatch in Hmac.
  unfold CryptoService.decrypt, bind at 1.
  rewrite (parseEncryptedData_complete text p w Hne Hparse Hcomplete).
  destruct p as [s i c m]; simpl in *.
  unfold CryptoUtil.deriveKeyWithArgon2, CryptoUtil.generateMac, CryptoUtil.verifyMac.
  js_unfold. simpl. rewrite Hderive. simpl.
  unfold hmacOf, macInput in Hmac; simpl in Hmac.
  apply String.eqb_neq in Hmac. rewrite Hmac. simpl.
  eexists. split; [reflexivity|]. simpl.
  rewrite <- app_assoc. repeat split.
Qed.



(** What a successful [encrypt] went through. *)
Lemma encrypt_inversion (v secretKey : string) (w w' : world) (p : EncryptionParams) :
  CryptoService.encrypt v secretKey w = (Ok p, w') ->
  exists (saltBytes ivBytes c : bytes) (derived : string),
    saltBytes <> [] /\ salt p = Buffer_toString_base64 saltBytes
    /\ ivBytes <> [] /\ iv p = Buffer_toString_base64 ivBytes
    /\ argon2_hash secretKey (CryptoUtil.argon2Options (salt p)) = inr derived
    /\ AES_encrypt v (Base64_parse derived) (Base64_parse (iv p)) = inr c
    /\ cipherText p = Base64_stringify c
    /\ mac p = hmacOf p (Base64_parse derived).
Proof.
  unfold CryptoService.encrypt, CryptoUtil.generateSalt, CryptoUtil.generateIvAsBase64,
    CryptoUtil.deriveKeyWithArgon2, CryptoUtil.encryptData, CryptoUtil.generateMac,
    crypto.randomBytes, default.
  js_unfold. intros Henc.
  repeat match type of Henc with
         | context [if ?b then _ else _] => destruct b eqn:?; simpl in Henc; try discriminate
         | context [match ?x with inl _ => _ | inr _ => _ end] =>
             destruct x eqn:?; simpl in Henc; try discriminate
         end.
  injection Henc as <- <-. simpl.
  eexists _, _, _, _. repeat split; try eassumption.
  - intros Hnil.
    apply (f_equal (@length _)) in Hnil. rewrite length_take in Hnil. simpl in Hnil.
    apply Z.leb_gt in Heqb. apply Z.ltb_ge in Heqb1. lia.
  - intros Hnil.
    apply (f_equal (@length _)) in Hnil. rewrite length_take in Hnil. simpl in Hnil.
    apply Z.leb_gt in Heqb2. apply Z.ltb_ge in Heqb4. lia.
Qed.

(** X17. [encrypt] returns an envelope as soon as the configured lengths are
    positive, the random source has enough bytes, and the key derivation and
    the cipher succeed. *)
Lemma encrypt_returns (v secretKey derived : string) (c : bytes) (w : world) :
  0 < SALT_LENGTH <= 2 ^ 31 - 1 ->
  0 < IV_LENGTH <= 2 ^ 31 - 1 ->
  SALT_LENGTH + IV_LENGTH <= Z.of_nat (length (entropy w)) ->
  let salt := Buffer_toString_base64 (take (Z.to_nat SALT_LENGTH) (entropy w)) in
  let iv := Buffer_toString_base64
              (take (Z.to_nat IV_LENGTH) (drop (Z.to_nat SALT_LENGTH) (entropy w))) in
  argon2_hash secretKey (CryptoUtil.argon2Options salt) = inr derived ->
  AES_encrypt v (Base64_parse derived) (Base64_parse iv) = inr c ->
  exists w',
    CryptoService.encrypt v secretKey w =
      (Ok {| salt := salt; iv := iv; cipherText := Base64_stringify c;
             mac := Hex_stringify
                      (HmacSHA256 (salt +:+ ":" +:+ iv +:+ ":" +:+ Base64_stringify c)
                         (Base64_stringify (Base64_parse derived))) |}, w')
    /\ files w' = files w
    /\ entropy w' = drop (Z.to_nat SALT_LENGTH + Z.to_nat IV_LENGTH) (entropy w).
Proof.
  intros Hs Hi Hlen salt iv Hkey Haes.
  unfold CryptoService.encrypt, CryptoUtil.generateSalt, CryptoUtil.generateIvAsBase64,
    CryptoUtil.deriveKeyWithArgon2, CryptoUtil.encryptData, CryptoUtil.generateMac,
    crypto.randomBytes, default.
  js_unfold.
  destruct (Z.leb_spec SALT_LENGTH 0); [lia|].
  destruct (Z.ltb_spec SALT_LENGTH 0); [lia|].
  destruct (Z.ltb_spec (2 ^ 31 - 1) SALT_LENGTH); [lia|].
  cbn [orb].
  destruct (Z.ltb_spec (Z.of_nat (length (entropy w))) SALT_LENGTH); [lia|].
  cbn [entropy].
  destruct (Z.leb_spec IV_LENGTH 0); [lia|].
  destruct (Z.ltb_spec IV_LENGTH 0); [lia|].
  destruct (Z.ltb_spec (2 ^ 31 - 1) IV_LENGTH); [lia|].
  cbn [orb].
  match goal with
  | |- context [Z.ltb ?a IV_LENGTH] =>
      destruct (Z.ltb_spec a IV_LENGTH) as [Hshort|_];
        [cbn [entropy] in Hshort; rewrite length_drop in Hshort; lia|]
  end.
  cbn [entropy calls logged files]. fold salt. fold iv.
  rewrite Hkey. cbn [entropy calls logged files]. rewrite Haes.
  eexists. split; [reflexivity|]. cbn [entropy files].
  split; [reflexivity|]. now rewrite drop_drop.
Qed.

End Envelope.

Section RoundTrip.
Context `{Platform} `{CryptoConfig} `{!JsonLaws} `{!CryptoLaws}.

(** C1 (amended).  For a plaintext that is not empty: when [encrypt]
    returns an envelope, [decrypt] of its JSON serialization under the
    same secret key returns the plaintext, from any world. *)
Theorem decrypt_encrypt_roundtrip (v secretKey : string) (w w' : world) (p : EncryptionParams) :
  v <> "" ->
  CryptoService.encrypt v secretKey w = (Ok p, w') ->
  forall w0 : world, exists w1 : world,
    CryptoService.decrypt (JSON_stringify (EncryptionParams_toJson p)) secretKey w0 =
      (Ok v, w1).
Proof.
  intros Hv Henc w0.
  destruct (encrypt_inversion _ _ _ _ _ Henc)
    as (saltBytes & ivBytes & c & derived & Hsb & Hsalt & Hib & Hiv & Hkey & Haes & Hct & Hmac).
  assert (Hcomplete : complete p).
  { unfold complete. rewrite Hsalt, Hiv, Hct, Hmac.
    repeat split.
    - now apply Buffer_base64_nonempty.
    - now apply Buffer_base64_nonempty.
    - apply Base64_stringify_nonempty. eapply AES_encrypt_nonempty; eassumption.
    - apply Hex_stringify_Hmac_nonempty. }
  destruct (AES_decrypt_encrypt _ _ _ _ Haes) as (d & Hdec & Hutf).
  unfold CryptoService.decrypt, bind at 1.
  rewrite (parseEncryptedData_complete _ p w0
             (JSON_stringify_nonempty p) (JSON_parse_stringify p) Hcomplete).
  destruct p as [s i ct m]; simpl in *.
  unfold CryptoUtil.deriveKeyWithArgon2, CryptoUtil.generateMac, CryptoUtil.verifyMac,
    CryptoUtil.decryptData.
  js_unfold. simpl. rewrite Hkey. simpl.
  unfold hmacOf, macInput in Hmac; simpl in Hmac. rewrite <- Hmac.
  rewrite String.eqb_refl. simpl.
  rewrite Hct, Base64_parse_stringify, Hdec. simpl. rewrite Hutf. simpl.
  apply truthy_true_iff in Hv. rewrite Hv. simpl.
  eexists. reflexivity.
Qed.
End RoundTrip.

Lemma onlyLogged_refl (w : world) : onlyLogged w w.
Proof. repeat split. Qed.

Lemma onlyLogged_trans (w1 w2 w3 : world) :
  onlyLogged w1 w2 -> onlyLogged w2 w3 -> onlyLogged w1 w3.
Proof. unfold onlyLogged. intuition congruence. Qed.

Lemma onlyLogged_withLogged (w : world) (entries : list (level * string)) :
  onlyLogged w (withLogged w entries).
Proof. repeat split. Qed.

Lemma join_empty (x : string) (l : list string) (sep : string) :
  sep <> "" -> JsString.join (x :: l) sep = "" -> x = "" /\ l = [].
Proof.
  intros Hsep. unfold JsString.join. destruct l as [|y l]; simpl.
  - now intros ->.
  - intros [_ Habs]%append_eq_nil. apply append_eq_nil in Habs as [Habs _]. congruence.
Qed.

Lemma trim_nonempty (line : string) : JsString.trim line <> "" -> line <> "".
Proof. intros Ht ->. now apply Ht. Qed.

Section LineLoop.
Context `{Platform} `{CryptoConfig}.


(** The loop only ever appends to its two arrays. *)
Lemma encryptLines_for_accumulators (this : Handler) (lines : list string) :
  forall (index : nat) (encryptedLines errors : list string) (w : world),
    EncryptionHandler.encryptLines_for this index lines encryptedLines errors w =
    match EncryptionHandler.encryptLines_for this index lines [] [] w with
    | (Ok (out, errs), w') => (Ok (encryptedLines ++ out, errors ++ errs)%list, w')
    | (Throw e, w') => (Throw e, w')
    end.
Proof.
  induction lines as [|line rest IH]; intros index acc errs w.
  - simpl. unfold ret. now rewrite !app_nil_r.
  - cbn [EncryptionHandler.encryptLines_for app].
    destruct (String.eqb (JsString.trim line) "").
    { rewrite (IH _ (acc ++ [""])%list), (IH _ [""]).
      destruct (EncryptionHandler.encryptLines_for this (S index) rest [] [] w) as [[[o e]|x] w'];
        [|reflexivity].
      now rewrite <- !app_assoc. }
    destruct (negb (JsString.includes (JsString.trim line) "=")).
    { js_unfold.
      match goal with
      | |- context [EncryptionHandler.encryptLines_for this (S index) rest [] [?m] ?w1] =>
          rewrite (IH _ acc (errs ++ [m])%list w1), (IH _ [] [m] w1)
      end.
      match goal with
      | |- context [EncryptionHandler.encryptLines_for this (S index) rest [] [] ?w1] =>
          destruct (EncryptionHandler.encryptLines_for this (S index) rest [] [] w1) as [[[o e]|x] w']
      end; [|reflexivity].
      now rewrite <- !app_assoc. }
    assert (Hkeep :
      EncryptionHandler.encryptLines_for this (S index) rest (acc ++ [line])%list errs w =
      match EncryptionHandler.encryptLines_for this (S index) rest [line] [] w with
      | (Ok (out, errs'), w') => (Ok (acc ++ out, errs ++ errs')%list, w')
      | (Throw e, w') => (Throw e, w')
      end).
    { rewrite (IH _ (acc ++ [line])%list), (IH _ [line]).
      destruct (EncryptionHandler.encryptLines_for this (S index) rest [] [] w) as [[[o e]|x] w'];
        [|reflexivity].
      now rewrite <- !app_assoc. }
    destruct (nth_error (JsString.split (JsString.trim line) "=") 1) as [v|];
      [|exact Hkeep].
    destruct (JsString.truthy v); [|exact Hkeep].
    unfold bind.
    destruct (CryptoService.encrypt (JsString.trim v) (secretKey this) w)
      as [[r|x] w1]; [|reflexivity].
    match goal with
    | |- context [EncryptionHandler.encryptLines_for this (S index) rest [?m] [] ?w1] =>
        rewrite (IH _ (acc ++ [m])%list errs w1), (IH _ [m] [] w1)
    end.
    destruct (EncryptionHandler.encryptLines_for this (S index) rest [] [] w1) as [[[o e]|x] w'];
      [|reflexivity].
    now rewrite <- !app_assoc.
Qed.



Lemma encryptLines_for_blank (this : Handler) (index : nat) (line : string)
    (rest encryptedLines errors : list string) (w : world) :
  JsString.trim line = "" ->
  EncryptionHandler.encryptLines_for this index (line :: rest) encryptedLines errors w =
  EncryptionHandler.encryptLines_for this (S index) rest (encryptedLines ++ [""])%list errors w.
Proof.
  intros Hblank. cbn [EncryptionHandler.encryptLines_for]. now rewrite Hblank.
Qed.

Lemma encryptLines_for_malformed (this : Handler) (index : nat) (line : string)
    (rest encryptedLines errors : list string) (w : world) :
  JsString.trim line <> "" ->
  JsString.includes (JsString.trim line) "=" = false ->
  EncryptionHandler.encryptLines_for this index (line :: rest) encryptedLines errors w =
  EncryptionHandler.encryptLines_for this (S index) rest encryptedLines
    (errors ++ [EncryptionHandler.handleInvalidFormatError this index line])%list
    (withLogged w [(ErrorLevel, EncryptionHandler.handleInvalidFormatError this index line)]).
Proof.
  intros Hne Hinc. cbn [EncryptionHandler.encryptLines_for].
  apply String.eqb_neq in Hne. rewrite Hne, Hinc. reflexivity.
Qed.

Lemma encryptLines_for_app (this : Handler) (l1 l2 : list string) :
  forall (index : nat) (encryptedLines errors : list string) (w : world),
    EncryptionHandler.encryptLines_for this index (l1 ++ l2) encryptedLines errors w =
    match EncryptionHandler.encryptLines_for this index l1 encryptedLines errors w with
    | (Ok (out, errs), w') =>
        EncryptionHandler.encryptLines_for this (index + length l1) l2 out errs w'
    | (Throw e, w') => (Throw e, w')
    end.
Proof.
  induction l1 as [|line rest IH]; intros index acc errs w.
  - simpl. unfold ret. now rewrite Nat.add_0_r.
  - cbn [EncryptionHandler.encryptLines_for app length].
    replace (index + S (length rest))%nat with (S index + length rest)%nat by lia.
    destruct (String.eqb (JsString.trim line) ""); [apply IH|].
    destruct (negb (JsString.includes (JsString.trim line) "=")).
    { js_unfold. apply IH. }
    destruct (nth_error (JsString.split (JsString.trim line) "=") 1) as [v|];
      [|apply IH].
    destruct (JsString.truthy v); [|apply IH].
    unfold bind.
    destruct (CryptoService.encrypt (JsString.trim v) (secretKey this) w)
      as [[r|x] w1]; [apply IH|reflexivity].
Qed.

(** X26. A line whose trimmed text is [key=value] followed by nothing or by
    a further [=]: the loop encrypts the trimmed [value], the text between
    the first and the second [=], and emits [key=] and the serialized
    envelope. *)
Lemma encryptLines_for_assignment (this : Handler) (index : nat)
    (line key value more : string) (rest encryptedLines errors : list string) (w : world) :
  JsString.trim line = key +:+ String "=" (value +:+ more) ->
  JsString.forallb (fun c => negb (Ascii.eqb "=" c)) key = true ->
  JsString.forallb (fun c => negb (Ascii.eqb "=" c)) value = true ->
  (more = "" \/ exists more', more = String "=" more') ->
  value <> "" ->
  EncryptionHandler.encryptLines_for this index (line :: rest) encryptedLines errors w =
  (encryptionResult <- CryptoService.encrypt (JsString.trim value) (secretKey this) ;;
   EncryptionHandler.encryptLines_for this (S index) rest
     (encryptedLines ++
      [key +:+ "=" +:+ JSON_stringify (EncryptionParams_toJson encryptionResult)])
     errors) w.
Proof.
  intros Htrim Hkey Hvalue Hmore Hne.
  cbn [EncryptionHandler.encryptLines_for]. rewrite Htrim.
  assert (Hnonblank : String.eqb (key +:+ String "=" (value +:+ more)) "" = false).
  { apply String.eqb_neq. intros [_ Habs]%append_eq_nil. discriminate. }
  rewrite Hnonblank, includes_append_char. cbn [negb].
  assert (Hsplit : exists tl, JsString.split (key +:+ String "=" (value +:+ more)) "=" =
                              key :: value :: tl).
  { unfold JsString.split.
    rewrite (splitBy_separator _ key _ "=" eq_refl), (splitBy_piece _ key Hkey).
    destruct Hmore as [->|[more' ->]].
    - rewrite append_nil_r, (splitBy_piece _ value Hvalue). now exists [].
    - rewrite (splitBy_separator _ value _ "=" eq_refl), (splitBy_piece _ value Hvalue).
      eexists. reflexivity. }
  destruct Hsplit as [tl ->]. cbn [nth_error].
  apply truthy_true_iff in Hne. rewrite Hne. reflexivity.
Qed.

(** [encrypt] leaves the file store alone. *)
Lemma encrypt_files (value key : string) (w w' : world) (o : outcome EncryptionParams) :
  CryptoService.encrypt value key w = (o, w') -> files w' = files w.
Proof.
  unfold CryptoService.encrypt, CryptoUtil.generateSalt, CryptoUtil.generateIvAsBase64,
    CryptoUtil.deriveKeyWithArgon2, CryptoUtil.encryptData, CryptoUtil.generateMac,
    crypto.randomBytes, default.
  js_unfold. intros Henc.
  repeat match type of Henc with
         | context [if ?b then _ else _] => destruct b eqn:?; simpl in Henc
         | context [match ?x with inl _ => _ | inr _ => _ end] =>
             destruct x eqn:?; simpl in Henc
         end;
  injection Henc as _ <-; reflexivity.
Qed.

Lemma encryptLines_for_files (this : Handler) (lines : list string) :
  forall (index : nat) (encryptedLines errors : list string) (w w' : world)
         (o : outcome (list string * list string)),
    EncryptionHandler.encryptLines_for this index lines encryptedLines errors w = (o, w') ->
    files w' = files w.
Proof.
  induction lines as [|line rest IH]; intros index acc errs w w' o.
  - simpl. unfold ret. now intros [= _ <-].
  - cbn [EncryptionHandler.encryptLines_for].
    destruct (String.eqb (JsString.trim line) ""); [apply IH|].
    destruct (negb (JsString.includes (JsString.trim line) "=")).
    { js_unfold. intros Hrun. now apply IH in Hrun. }
    destruct (nth_error (JsString.split (JsString.trim line) "=") 1) as [v|];
      [|apply IH].
    destruct (JsString.truthy v); [|apply IH].
    unfold bind.
    destruct (CryptoService.encrypt (JsString.trim v) (secretKey this) w)
      as [[r|x] w1] eqn:Henc; apply encrypt_files in Henc.
    + intros Hrun. apply IH in Hrun. congruence.
    + intros [= _ <-]. exact Henc.
Qed.



(** C6.  A file whose lines are all blank is rejected with the
    empty-file error before the write step: the file store, the random
    source and the trace of library calls are what they were. *)
Theorem encryptEnvVariables_rejects_blank_file
    (this : Handler) (content : string) (w : world) :
  files w !! envFilePath this = Some content ->
  (forall line, In line (JsString.split content JsString.LF) -> isBlank line = true) ->
  exists w',
    EncryptionHandler.encryptEnvVariables this w = (Throw emptyFileError, w')
    /\ onlyLogged w w'.
Proof.
  intros Hfile Hblank. apply forallb_forall in Hblank.
  unfold EncryptionHandler.encryptEnvVariables, EncryptionHandler.readEnvFileAsLines,
    EncryptionHandler.encryptLines, fs.readFileSync.
  js_unfold. rewrite Hfile. simpl.
  unfold isBlank in Hblank. rewrite Hblank. simpl.
  eexists. split; [reflexivity|]. repeat split.
Qed.

(** When every line is blank or malformed, the loop emits one empty
    string per blank line and nothing else. *)
Lemma encryptLines_for_nothing_survives (this : Handler) (lines : list string) :
  (forall line, In line lines -> isBlank line = true \/ isMalformed line = true) ->
  forall (index : nat) (encryptedLines errors : list string) (w : world),
  exists errors' w',
    EncryptionHandler.encryptLines_for this index lines encryptedLines errors w =
      (Ok ((encryptedLines ++ repeat "" (length (List.filter isBlank lines)))%list,
           errors'), w')
    /\ onlyLogged w w'.
Proof.
  induction lines as [|line rest IH]; intros Hall index acc errs w.
  - simpl. unfold ret. rewrite app_nil_r. eauto using onlyLogged_refl.
  - assert (Hrest : forall l, In l rest -> isBlank l = true \/ isMalformed l = true)
      by (intros l Hl; apply Hall; now right).
    specialize (IH Hrest).
    destruct (isBlank line) eqn:Hb.
    + rewrite encryptLines_for_blank by (now apply String.eqb_eq).
      destruct (IH (S index) (acc ++ [""])%list errs w) as (e' & w' & Hrun & Hlog).
      exists e', w'. split; [|exact Hlog].
      rewrite Hrun. cbn [List.filter]. rewrite Hb. cbn [length repeat].
      now rewrite <- app_assoc.
    + destruct (Hall line (or_introl eq_refl)) as [Hb'|Hm]; [congruence|].
      unfold isMalformed in Hm. rewrite Hb in Hm. simpl in Hm.
      apply negb_true_iff in Hm.
      rewrite encryptLines_for_malformed;
        [|now apply String.eqb_neq|exact Hm].
      match goal with
      | |- context [EncryptionHandler.encryptLines_for this (S index) rest acc ?e ?w1] =>
          destruct (IH (S index) acc e w1) as (e' & w' & Hrun & Hlog)
      end.
      exists e', w'. split.
      * rewrite Hrun. cbn [List.filter]. now rewrite Hb.
      * eapply onlyLogged_trans; [apply onlyLogged_withLogged|exact Hlog].
Qed.

(** What one line contributes when the loop goes through. *)
Lemma encryptLines_for_cons_inversion (this : Handler) (index : nat) (line : string)
    (rest out errs : list string) (w w' : world) :
  EncryptionHandler.encryptLines_for this index (line :: rest) [] [] w = (Ok (out, errs), w') ->
  exists (w1 : world) (out' errs' : list string),
    EncryptionHandler.encryptLines_for this (S index) rest [] [] w1 = (Ok (out', errs'), w')
    /\ ((isBlank line = true /\ out = "" :: out')
        \/ (isMalformed line = true /\ out = out')
        \/ (isBlank line = false /\ isMalformed line = false
            /\ exists x, x <> "" /\ out = x :: out')).
Proof.
  intros Hrun. cbn [EncryptionHandler.encryptLines_for app] in Hrun.
  assert (Hkeep : forall w0 x,
    x <> "" -> isBlank line = false -> isMalformed line = false ->
    EncryptionHandler.encryptLines_for this (S index) rest [x] [] w0 = (Ok (out, errs), w') ->
    exists (w1 : world) (out' errs' : list string),
      EncryptionHandler.encryptLines_for this (S index) rest [] [] w1 = (Ok (out', errs'), w')
      /\ ((isBlank line = true /\ out = "" :: out')
          \/ (isMalformed line = true /\ out = out')
          \/ (isBlank line = false /\ isMalformed line = false
              /\ exists x, x <> "" /\ out = x :: out'))).
  { intros w0 x Hx Hb Hm. rewrite encryptLines_for_accumulators.
    destruct (EncryptionHandler.encryptLines_for this (S index) rest [] [] w0)
      as [[[o e]|y] w2] eqn:Hrest; [|discriminate].
    intros [= <- <- <-]. exists w0, o, e. split; [exact Hrest|]. right; right.
    repeat split; try assumption. now exists x. }
  destruct (String.eqb (JsString.trim line) "") eqn:Hb.
  { rewrite encryptLines_for_accumulators in Hrun.
    destruct (EncryptionHandler.encryptLines_for this (S index) rest [] [] w)
      as [[[o e]|x] w2] eqn:Hrest; [|discriminate].
    injection Hrun as <- <- <-. exists w, o, e. split; [exact Hrest|]. left. now split. }
  destruct (JsString.includes (JsString.trim line) "=") eqn:Hinc; cbn [negb] in Hrun.
  2:{ js_unfold. rewrite encryptLines_for_accumulators in Hrun.
      match type of Hrun with
      | context [EncryptionHandler.encryptLines_for this (S index) rest [] [] ?w1] =>
          destruct (EncryptionHandler.encryptLines_for this (S index) rest [] [] w1)
            as [[[o e]|x] w2] eqn:Hrest; [|discriminate];
          injection Hrun as <- <- <-; exists w1, o, e
      end.
      split; [exact Hrest|]. right; left. split; [|reflexivity].
      unfold isMalformed, isBlank. now rewrite Hb, Hinc. }
  assert (Hnb : isBlank line = false) by exact Hb.
  assert (Hnm : isMalformed line = false).
  { unfold isMalformed, isBlank. now rewrite Hb, Hinc. }
  assert (Hline : line <> "") by (apply trim_nonempty; now apply String.eqb_neq).
  destruct (nth_error (JsString.split (JsString.trim line) "=") 1) as [v|];
    [|now apply (Hkeep w line)].
  destruct (JsString.truthy v); [|now apply (Hkeep w line)].
  unfold bind in Hrun.
  destruct (CryptoService.encrypt (JsString.trim v) (secretKey this) w)
    as [[r|x] w1]; [|discriminate].
  refine (Hkeep w1 _ _ Hnb Hnm Hrun).
  intros [_ Habs]%append_eq_nil. apply append_eq_nil in Habs as [Habs _]. discriminate.
Qed.

(** X5. The loop emits nothing only when every line is malformed, and
    nothing but at most one empty string only when every line is blank or
    malformed and at most one is blank: the hypotheses of the theorem on
    empty output are the only way to get there. *)
Lemma encryptLines_for_output_empty (this : Handler) (lines : list string) :
  forall (index : nat) (out errs : list string) (w w' : world),
    EncryptionHandler.encryptLines_for this index lines [] [] w = (Ok (out, errs), w') ->
    (out = [] -> forall line, In line lines -> isMalformed line = true)
    /\ (JsString.join out (String JsString.LF "") = "" ->
        (forall line, In line lines -> isBlank line = true \/ isMalformed line = true)
        /\ (length (List.filter isBlank lines) <= 1)%nat).
Proof.
  induction lines as [|line rest IH]; intros index out errs w w' Hrun.
  - split; [intros _ l []|]. intros _. split; [intros l []|simpl; lia].
  - destruct (encryptLines_for_cons_inversion _ _ _ _ _ _ _ _ Hrun)
      as (w1 & out' & errs' & Hrest & Hcase).
    destruct (IH _ _ _ _ _ Hrest) as [IHnil IHjoin].
    assert (Hmal_nb : forall l, isMalformed l = true -> isBlank l = false).
    { unfold isMalformed. intros l [Hb _]%andb_true_iff. now apply negb_true_iff in Hb. }
    destruct Hcase as [[Hb ->]|[[Hm ->]|(Hb & Hm & x & Hx & ->)]].
    + split; [discriminate|].
      intros [_ ->]%join_empty; [|discriminate].
      specialize (IHnil eq_refl). split.
      * intros l [<-|Hl]; [now left|right; now apply IHnil].
      * cbn [List.filter]. rewrite Hb. cbn [length].
        assert (Hnone : List.filter isBlank rest = []).
        { rewrite (List.filter_ext_in isBlank (fun _ => false));
            [apply List.filter_false|].
          intros l Hl. exact (Hmal_nb l (IHnil l Hl)). }
        rewrite Hnone. simpl. lia.
    + split.
      * intros Hnil l [<-|Hl]; [exact Hm|now apply IHnil].
      * intros Hjoin. destruct (IHjoin Hjoin) as [Hall Hcount]. split.
        -- intros l [<-|Hl]; [now right|now apply Hall].
        -- cbn [List.filter]. now rewrite (Hmal_nb line Hm).
    + split; [discriminate|].
      intros [Habs _]%join_empty; [congruence|discriminate].
Qed.

(** C10.  A file with a non-blank line in which every non-blank line
    lacks [=] and at most one line is blank: the transform succeeds with
    no output characters, [writeFile] refuses the empty content, and the
    file store is what it was. *)
Theorem encryptEnvVariables_fails_when_nothing_survives
    (this : Handler) (content : string) (w : world) :
  files w !! envFilePath this = Some content ->
  (exists line, In line (JsString.split content JsString.LF) /\ isBlank line = false) ->
  (forall line, In line (JsString.split content JsString.LF) ->
                isBlank line = true \/ isMalformed line = true) ->
  (length (List.filter isBlank (JsString.split content JsString.LF)) <= 1)%nat ->
  exists w',
    EncryptionHandler.encryptEnvVariables this w = (Throw noContentError, w')
    /\ onlyLogged w w'.
Proof.
  intros Hfile (l0 & Hl0 & Hnb) Hall Hcount.
  set (lines := JsString.split content JsString.LF) in *.
  assert (Hcheck : List.forallb (fun line => String.eqb (JsString.trim line) "") lines = false).
  { apply not_true_is_false. intros Hf.
    rewrite forallb_forall in Hf. specialize (Hf l0 Hl0).
    unfold isBlank in Hnb. congruence. }
  destruct (encryptLines_for_nothing_survives this lines Hall 0%nat [] [] w)
    as (errs & w1 & Hrun & Hlog1).
  assert (Hjoin : JsString.join (repeat "" (length (List.filter isBlank lines)))
                    (String JsString.LF "") = "").
  { destruct (length (List.filter isBlank lines)) as [|[|n]]; [reflexivity..|lia]. }
  unfold EncryptionHandler.encryptEnvVariables, EncryptionHandler.readEnvFileAsLines,
    EncryptionHandler.encryptLines, EncryptionHandler.writeEnvFileLines,
    utilityHelper.writeFile, fs.readFileSync.
  js_unfold. rewrite Hfile. simpl. fold lines. rewrite Hcheck. simpl.
  destruct w as [fs en lg cs]. simpl. rewrite Hrun. simpl.
  destruct Hlog1 as (Hfs & Hen & Hcs). simpl in Hfs, Hen, Hcs.
  destruct (0 <? length errs)%nat; simpl; rewrite Hjoin; simpl;
    (eexists; split; [reflexivity|]; repeat split; simpl; assumption).
Qed.



(** C7.  A non-blank line without [=], at position [length pre] of the
    file: the loop logs one diagnostic with the 1-based line number and
    the raw line, adds it to the collected errors, emits nothing for the
    line and goes on with the lines after it; after the loop the
    collected diagnostics are logged as one report and [encryptLines]
    returns the lines emitted for the others.  [encryptEnvVariables] then
    writes them to the file and returns normally, provided they are not
    all empty. *)
Theorem malformed_line_is_reported_and_skipped
    (this : Handler) (content : string) (pre post : list string) (line : string)
    (w w1 w2 : world) (out1 errs1 out2 errs2 : list string) :
  let diagnostic :=
    "Line " +:+ JsString.ofNat (length pre + 1) +:+
    " doesn't contain any variables or has invalid format: " +:+ line in
  let report :=
    (ErrorLevel,
     "[Method: encryptLines] Failed to encrypt some lines: Error: " +:+
     JsString.join (errs1 ++ diagnostic :: errs2) (String JsString.LF "")) in
  files w !! envFilePath this = Some content ->
  JsString.split content JsString.LF = (pre ++ line :: post)%list ->
  isMalformed line = true ->
  EncryptionHandler.encryptLines_for this 0 pre [] [] w = (Ok (out1, errs1), w1) ->
  EncryptionHandler.encryptLines_for this (S (length pre)) post [] []
    (withLogged w1 [(ErrorLevel, diagnostic)]) = (Ok (out2, errs2), w2) ->
  EncryptionHandler.encryptLines this (pre ++ line :: post) w =
    (Ok (out1 ++ out2)%list, withLogged w2 [report])
  /\ (JsString.join (out1 ++ out2) (String JsString.LF "") <> "" ->
      exists w',
        EncryptionHandler.encryptEnvVariables this w = (Ok tt, w')
        /\ files w' = <[envFilePath this :=
                          JsString.join (out1 ++ out2) (String JsString.LF "")]> (files w)
        /\ exists more, logged w' = (logged w2 ++ report :: more)%list).
Proof.
  intros diagnostic report Hfile Hsplit Hbad Hpre Hpost.
  unfold isMalformed, isBlank in Hbad.
  apply andb_true_iff in Hbad as [Hnb Hinc].
  apply negb_true_iff in Hnb, Hinc.
  assert (Hcheck : List.forallb (fun l => String.eqb (JsString.trim l) "")
                     (pre ++ line :: post) = false).
  { rewrite forallb_app. cbn [List.forallb]. rewrite Hnb. simpl. apply andb_false_r. }
  assert (Hloop : EncryptionHandler.encryptLines_for this 0 (pre ++ line :: post) [] [] w =
                  (Ok ((out1 ++ out2)%list, (errs1 ++ diagnostic :: errs2)%list), w2)).
  { rewrite encryptLines_for_app, Hpre. cbn [Nat.add].
    rewrite encryptLines_for_malformed;
      [|now apply String.eqb_neq|exact Hinc].
    rewrite encryptLines_for_accumulators.
    unfold EncryptionHandler.handleInvalidFormatError. fold diagnostic.
    rewrite Hpost. now rewrite <- app_assoc. }
  assert (Hlines : EncryptionHandler.encryptLines this (pre ++ line :: post) w =
                   (Ok (out1 ++ out2)%list, withLogged w2 [report])).
  { unfold EncryptionHandler.encryptLines. js_unfold. rewrite Hcheck. simpl.
    destruct w as [fs en lg cs]. simpl. rewrite Hloop. simpl.
    rewrite length_app. cbn [length].
    replace (0 <? length errs1 + S (length errs2))%nat with true
      by (symmetry; apply Nat.ltb_lt; lia).
    reflexivity. }
  split; [exact Hlines|].
  intros Hout. apply truthy_true_iff in Hout.
  assert (Hfiles : files w2 = files w).
  { apply encryptLines_for_files in Hloop. exact Hloop. }
  unfold EncryptionHandler.encryptEnvVariables, EncryptionHandler.readEnvFileAsLines,
    EncryptionHandler.writeEnvFileLines, EncryptionHandler.logEncryptionSuccess,
    utilityHelper.writeFile, fs.readFileSync, fs.writeFileSync.
  unfold tryLogRethrow at 1 2. unfold tryCatch at 1 2. unfold bind at 1 2 3 4.
  rewrite Hfile. unfold ret at 1. rewrite Hsplit, Hlines.
  rewrite Hout. js_unfold. simpl.
  eexists. split; [reflexivity|]. simpl. rewrite Hfiles. split; [reflexivity|].
  rewrite <- !app_assoc. simpl. eexists. reflexivity.
Qed.



(** C3.  On the line [A=b=c] the value handed to [encrypt] is [b], the
    text between the first and the second [=]: [split] cuts at every
    [=] and the destructuring keeps two pieces.  The line is treated
    exactly like [A=b]. *)
Theorem encryptLines_truncates_value_at_second_equals (this : Handler) (w : world) :
  EncryptionHandler.encryptLines this ["A=b=c"] w =
    tryLogRethrow
      (encryptionResult <- CryptoService.encrypt "b" (secretKey this) ;;
       ret ["A=" +:+ JSON_stringify (EncryptionParams_toJson encryptionResult)])
      "encryptLines" (Some "Failed to encrypt lines") w
  /\ EncryptionHandler.encryptLines this ["A=b=c"] w =
     EncryptionHandler.encryptLines this ["A=b"] w.
Proof.
  split.
  - unfold EncryptionHandler.encryptLines, tryLogRethrow, tryCatch, bind. simpl.
    change (JsString.trim "b") with "b". unfold bind.
    destruct (CryptoService.encrypt "b" (secretKey this) w) as [[r|e] w1]; reflexivity.
  - reflexivity.
Qed.

(** C4.  A line of two spaces comes out as the empty string: the
    blank branch pushes the literal empty string, not the line. *)
Theorem encryptLines_empties_whitespace_line (this : Handler) (w : world) :
  EncryptionHandler.encryptLines this ["K="; "  "] w = (Ok ["K="; ""], w)
  /\ EncryptionHandler.encryptLines this ["A=1"; "  "] w =
     tryLogRethrow
       (encryptionResult <- CryptoService.encrypt "1" (secretKey this) ;;
        ret ["A=" +:+ JSON_stringify (EncryptionParams_toJson encryptionResult); ""])
       "encryptLines" (Some "Failed to encrypt lines") w.
Proof.
  split.
  - reflexivity.
  - unfold EncryptionHandler.encryptLines, tryLogRethrow, tryCatch, bind. simpl.
    change (JsString.trim "1") with "1". unfold bind.
    destruct (CryptoService.encrypt "1" (secretKey this) w) as [[r|e] w1]; reflexivity.
Qed.
End LineLoop.

(** ** Lines and the line-start search *)

Lemma breakLine_spec (s : string) :
  s = fst (JsString.breakLine s) +:+ snd (JsString.breakLine s)
  /\ noTerminator (fst (JsString.breakLine s)) = true
  /\ (snd (JsString.breakLine s) = ""
      \/ exists t r, snd (JsString.breakLine s) = String t r
                     /\ JsString.isLineTerminator t = true).
Proof.
  induction s as [|c s (IH1 & IH2 & IH3)]; [simpl; auto|].
  simpl. destruct (JsString.isLineTerminator c) eqn:Hc.
  - simpl. repeat split. right. eauto.
  - destruct (JsString.breakLine s) as [l r]. simpl in *.
    rewrite Hc. simpl. repeat split; [|assumption..].
    rewrite append_cons. now f_equal.
Qed.

Lemma regexLines_head (s : string) :
  hd "" (JsString.regexLines s) = fst (JsString.breakLine s).
Proof.
  unfold JsString.regexLines.
  induction s as [|c s IH]; [reflexivity|].
  simpl. destruct (JsString.isLineTerminator c) eqn:Hc; [reflexivity|].
  destruct (JsString.breakLine s) as [l r]. simpl in *.
  destruct (JsString.splitBy JsString.isLineTerminator s) eqn:Hs.
  - now apply splitBy_nonempty in Hs.
  - simpl in *. now subst.
Qed.

Lemma noTerminator_line (s : string) :
  noTerminator s = true -> JsString.regexLines s = [s].
Proof.
  unfold JsString.regexLines.
  induction s as [|c s IH]; [reflexivity|].
  simpl. intros [Hc Hs]%andb_true_iff. apply negb_true_iff in Hc.
  rewrite Hc, (IH Hs). reflexivity.
Qed.

(** A line terminator ends one line and starts the next. *)
Lemma regexLines_terminator (a b : string) (t : ascii) :
  JsString.isLineTerminator t = true ->
  JsString.regexLines (a +:+ String t b) =
  (JsString.regexLines a ++ JsString.regexLines b)%list.
Proof.
  intros Ht. unfold JsString.regexLines.
  induction a as [|c a IH].
  - rewrite append_nil_l. simpl. now rewrite Ht.
  - rewrite append_cons. simpl. rewrite IH.
    destruct (JsString.isLineTerminator c); [reflexivity|].
    destruct (JsString.splitBy JsString.isLineTerminator a) eqn:Ha; [|reflexivity].
    now apply splitBy_nonempty in Ha.
Qed.

(** Text without a terminator extends the last line. *)
Lemma regexLines_append_line (a y : string) :
  noTerminator y = true ->
  JsString.regexLines (a +:+ y) =
  (removelast (JsString.regexLines a) ++ [List.last (JsString.regexLines a) "" +:+ y])%list.
Proof.
  intros Hy. unfold JsString.regexLines.
  induction a as [|c a IH].
  - rewrite append_nil_l. simpl. now apply noTerminator_line.
  - rewrite append_cons. simpl. rewrite IH.
    pose proof (splitBy_nonempty JsString.isLineTerminator a) as Hne.
    destruct (JsString.splitBy JsString.isLineTerminator a) as [|l ls]; [congruence|].
    destruct (JsString.isLineTerminator c).
    + reflexivity.
    + destruct ls as [|l' ls']; [reflexivity|]. reflexivity.
Qed.

(** A line followed by nothing or by a terminator. *)
Lemma regexLines_line_rest (y rest : string) :
  noTerminator y = true ->
  (rest = "" \/ exists t r, rest = String t r /\ JsString.isLineTerminator t = true) ->
  JsString.regexLines (y +:+ rest) = y :: tl (JsString.regexLines (y +:+ rest))
  /\ forall x, noTerminator x = true ->
       JsString.regexLines (x +:+ rest) = x :: tl (JsString.regexLines (y +:+ rest)).
Proof.
  intros Hy [->|(t & r & -> & Ht)].
  - rewrite append_nil_r, (noTerminator_line y Hy). split; [reflexivity|].
    intros x Hx. now rewrite append_nil_r, (noTerminator_line x Hx).
  - rewrite (regexLines_terminator y r t Ht), (noTerminator_line y Hy).
    split; [reflexivity|].
    intros x Hx. now rewrite (regexLines_terminator x r t Ht), (noTerminator_line x Hx).
Qed.

Lemma prefix_breakLine (lit s : string) :
  noTerminator lit = true ->
  String.prefix lit s = String.prefix lit (fst (JsString.breakLine s)).
Proof.
  revert lit. induction s as [|c s IH]; intros lit Hlit; [reflexivity|].
  simpl JsString.breakLine.
  destruct (JsString.isLineTerminator c) eqn:Hc.
  - destruct lit as [|a lit]; [reflexivity|]. simpl in *.
    destruct (ascii_dec a c) as [->|]; [|reflexivity].
    rewrite Hc in Hlit. discriminate.
  - destruct (JsString.breakLine s) as [l r] eqn:Hb. simpl in *.
    destruct lit as [|a lit]; [reflexivity|]. simpl in *.
    destruct (ascii_dec a c); [|reflexivity].
    apply andb_true_iff in Hlit as [_ Hlit]. now apply IH.
Qed.

Lemma find_cons_false {A} (p : A -> bool) (x : A) (l : list A) :
  p x = false -> List.find p (x :: l) = List.find p l.
Proof. intros Hx. simpl. now rewrite Hx. Qed.

Lemma find_cons_true {A} (p : A -> bool) (x : A) (l : list A) :
  p x = true -> List.find p (x :: l) = Some x.
Proof. intros Hx. simpl. now rewrite Hx. Qed.

Lemma replaceFirst_cons_false (p : string -> bool) (x l : string) (ls : list string) :
  p l = false -> replaceFirst p x (l :: ls) = l :: replaceFirst p x ls.
Proof. intros Hl. simpl. now rewrite Hl. Qed.

Lemma replaceFirst_cons_true (p : string -> bool) (x l : string) (ls : list string) :
  p l = true -> replaceFirst p x (l :: ls) = x :: ls.
Proof. intros Hl. simpl. now rewrite Hl. Qed.

Section Search.
Variable lit : string.
Hypothesis lit_line : noTerminator lit = true.
Hypothesis lit_nonempty : lit <> "".

Local Abbreviation startsWith := (String.prefix lit).

Lemma startsWith_empty : String.prefix lit "" = false.
Proof. destruct lit; [congruence|reflexivity]. Qed.

(** The search finds the first line that starts with [lit]; looking
    from inside a line ([b] false), that line is not a candidate. *)
Lemma searchLineStart_find (input : string) :
  forall b : bool,
    match RegExpSemantics.searchLineStart lit b input with
    | Some (i, m) =>
        List.find startsWith (fromLineStart b (JsString.regexLines input)) =
        Some (fst (JsString.breakLine m))
    | None =>
        List.find startsWith (fromLineStart b (JsString.regexLines input)) = None
    end.
Proof.
  induction input as [|c s IH]; intros b.
  - cbn [RegExpSemantics.searchLineStart]. rewrite startsWith_empty, andb_false_r.
    cbv beta iota.
    destruct b; [|reflexivity].
    change ((if String.prefix lit "" then Some "" else None) = @None string).
    now rewrite startsWith_empty.
  - cbn [RegExpSemantics.searchLineStart].
    destruct (b && String.prefix lit (String c s)) eqn:Hhere.
    + apply andb_true_iff in Hhere as [-> Hp]. cbn [fromLineStart].
      pose proof (regexLines_head (String c s)) as Hhd.
      pose proof (splitBy_nonempty JsString.isLineTerminator (String c s)) as Hne.
      unfold JsString.regexLines in *.
      destruct (JsString.splitBy JsString.isLineTerminator (String c s)) as [|l ls];
        [congruence|].
      cbn [hd] in Hhd. subst l. apply find_cons_true.
      now rewrite <- (prefix_breakLine lit _ lit_line).
    + specialize (IH (JsString.isLineTerminator c)).
      assert (Hstep :
        List.find startsWith (fromLineStart b (JsString.regexLines (String c s))) =
        List.find startsWith
          (fromLineStart (JsString.isLineTerminator c) (JsString.regexLines s))).
      { unfold JsString.regexLines.
        destruct (JsString.isLineTerminator c) eqn:Hc.
        - simpl JsString.splitBy. rewrite Hc. cbn [fromLineStart].
          destruct b; [|reflexivity]. apply find_cons_false, startsWith_empty.
        - rewrite (splitBy_cons_other _ _ _ Hc). cbn [fromLineStart].
          destruct b; [|reflexivity]. cbn [tl]. apply find_cons_false. cbn [andb] in Hhere.
          rewrite (prefix_breakLine lit (String c s) lit_line) in Hhere.
          rewrite <- (regexLines_head (String c s)) in Hhere.
          unfold JsString.regexLines in Hhere.
          now rewrite (splitBy_cons_other _ _ _ Hc) in Hhere. }
      rewrite Hstep.
      destruct (RegExpSemantics.searchLineStart lit (JsString.isLineTerminator c) s)
        as [[i m]|]; exact IH.
Qed.

(** Where the search stops: the input is [before], then the matched
    line, then [rest]; putting another line [x] in its place changes
    that one line only. *)
Lemma searchLineStart_replace (input : string) :
  forall (b : bool) (i : nat) (m : string),
    RegExpSemantics.searchLineStart lit b input = Some (i, m) ->
    exists before,
      input = before +:+ m /\ i = String.length before /\
      forall x, noTerminator x = true ->
        JsString.regexLines (before +:+ x +:+ snd (JsString.breakLine m)) =
        if b then replaceFirst startsWith x (JsString.regexLines input)
        else hd "" (JsString.regexLines input)
             :: replaceFirst startsWith x (tl (JsString.regexLines input)).
Proof.
  induction input as [|c s IH]; intros b i m.
  - cbn [RegExpSemantics.searchLineStart]. rewrite startsWith_empty, andb_false_r.
    discriminate.
  - cbn [RegExpSemantics.searchLineStart].
    destruct (b && String.prefix lit (String c s)) eqn:Hhere.
    + intros [= <- <-]. apply andb_true_iff in Hhere as [-> Hp].
      exists "". split; [reflexivity|]. split; [reflexivity|].
      intros x Hx. rewrite append_nil_l.
      destruct (breakLine_spec (String c s)) as (Hsplit & Hline & Hrest).
      destruct (regexLines_line_rest _ _ Hline Hrest) as [Hl Hxl].
      rewrite <- Hsplit in Hl, Hxl. rewrite (Hxl x Hx). symmetry.
      rewrite Hl. cbn [tl]. apply replaceFirst_cons_true.
      now rewrite <- (prefix_breakLine lit _ lit_line).
    + destruct (RegExpSemantics.searchLineStart lit (JsString.isLineTerminator c) s)
        as [[i' m']|] eqn:Hs; [|discriminate].
      intros [= <- <-].
      destruct (IH _ _ _ Hs) as (before & Hin & Hi & Hrep).
      exists (String c before). rewrite append_cons, <- Hin.
      split; [reflexivity|]. split; [simpl; now rewrite Hi|].
      intros x Hx. rewrite append_cons. specialize (Hrep x Hx).
      unfold JsString.regexLines in *.
      destruct (JsString.isLineTerminator c) eqn:Hc.
      * simpl JsString.splitBy. rewrite Hc, Hrep.
        destruct b; [|reflexivity].
        symmetry. apply replaceFirst_cons_false, startsWith_empty.
      * rewrite !(splitBy_cons_other _ _ _ Hc), Hrep. cbn [hd tl].
        destruct b; [|reflexivity].
        symmetry. apply replaceFirst_cons_false. cbn [andb] in Hhere.
        rewrite (prefix_breakLine lit (String c s) lit_line) in Hhere.
        rewrite <- (regexLines_head (String c s)) in Hhere.
        unfold JsString.regexLines in Hhere.
        now rewrite (splitBy_cons_other _ _ _ Hc) in Hhere.
Qed.

End Search.

(** ** Lists of lines with one entry for a key *)

Section SoleEntry.
Variable p : string -> bool.

Lemma find_none_Forall (ls : list string) :
  List.find p ls = None <-> Forall (fun l => p l = false) ls.
Proof.
  induction ls as [|l ls IH]; simpl.
  - split; [constructor|reflexivity].
  - destruct (p l) eqn:Hl.
    + split; [discriminate|]. intros Hall. inversion Hall. congruence.
    + rewrite IH. split; [now constructor|]. intros Hall. now inversion Hall.
Qed.

Lemma find_sole (l : string) (ls : list string) :
  List.find p ls = Some l ->
  (length (List.filter p ls) <= 1)%nat ->
  soleEntry p l ls.
Proof.
  induction ls as [|a ls IH]; simpl; [discriminate|].
  destruct (p a) eqn:Ha.
  - intros [= ->] Hlen. exists [], ls. split; [reflexivity|]. split; [constructor|].
    simpl in Hlen. apply find_none_Forall.
    destruct (List.find p ls) as [y|] eqn:Hy; [|reflexivity].
    apply find_some in Hy as [Hin Hpy].
    assert (In y (List.filter p ls)) by (apply filter_In; auto).
    destruct (List.filter p ls); [contradiction|simpl in Hlen; lia].
  - intros Hfind Hlen. destruct (IH Hfind Hlen) as (A & B & -> & HA & HB).
    exists (a :: A), B. split; [reflexivity|]. split; [now constructor|assumption].
Qed.

Lemma soleEntry_find (x : string) (ls : list string) :
  soleEntry p x ls -> p x = true -> List.find p ls = Some x.
Proof.
  intros (A & B & -> & HA & _) Hx.
  induction HA as [|a A Ha _ IH]; simpl; [now rewrite Hx|now rewrite Ha].
Qed.

Lemma soleEntry_replaceFirst (x y : string) (ls : list string) :
  soleEntry p x ls -> p x = true -> soleEntry p y (replaceFirst p y ls).
Proof.
  intros (A & B & -> & HA & HB) Hx.
  exists A, B. split; [|split; assumption].
  induction HA as [|a A Ha _ IH]; simpl; [now rewrite Hx|now rewrite Ha, IH].
Qed.

Lemma soleEntry_count (x : string) (ls : list string) :
  soleEntry p x ls -> p x = true -> count_occ string_dec ls x = 1%nat.
Proof.
  intros (A & B & -> & HA & HB) Hx.
  assert (Hzero : forall C, Forall (fun l => p l = false) C ->
                            count_occ string_dec C x = 0%nat).
  { intros C HC. apply count_occ_not_In. intros Hin.
    rewrite List.Forall_forall in HC. apply HC in Hin. congruence. }
  rewrite count_occ_app, (Hzero A HA). simpl.
  destruct (string_dec x x); [|congruence]. now rewrite (Hzero B HB).
Qed.

Hypothesis p_empty : p "" = false.

Lemma Forall_removelast (ls : list string) :
  Forall (fun l => p l = false) ls -> Forall (fun l => p l = false) (removelast ls).
Proof.
  induction 1 as [|a ls Ha Hls IH]; [constructor|].
  simpl. destruct ls; [constructor|]. now constructor.
Qed.

(** After one update either some line satisfying [p] is the sole
    entry, or (the text was glued to an unfinished last line) there is
    none and the list ends with an empty line. *)
Lemma upsertLines_once (x : string) (ls : list string) :
  p x = true ->
  (length (List.filter p ls) <= 1)%nat ->
  (exists y, p y = true /\ soleEntry p y (upsertLines p x ls))
  \/ (List.find p (upsertLines p x ls) = None /\ List.last (upsertLines p x ls) "" = "").
Proof.
  intros Hx Hlen. unfold upsertLines.
  destruct (List.find p ls) as [l|] eqn:Hfind.
  - left. exists x. split; [assumption|].
    apply soleEntry_replaceFirst with (x := l).
    + now apply find_sole.
    + now apply find_some in Hfind.
  - apply find_none_Forall in Hfind. apply Forall_removelast in Hfind.
    destruct (p (List.last ls "" +:+ x)) eqn:Hglued.
    + left. exists (List.last ls "" +:+ x). split; [assumption|].
      exists (removelast ls), [""]. split; [reflexivity|]. split; [assumption|].
      now repeat constructor.
    + right. split.
      * apply find_none_Forall. apply Forall_app. split; [assumption|].
        now repeat constructor.
      * change [List.last ls "" +:+ x; ""] with ([List.last ls "" +:+ x] ++ [""])%list.
        now rewrite app_assoc, last_last.
Qed.

(** Two updates in a row leave the second value as the sole entry. *)
Lemma upsertLines_twice (x1 x2 : string) (ls : list string) :
  p x1 = true -> p x2 = true ->
  (length (List.filter p ls) <= 1)%nat ->
  soleEntry p x2 (upsertLines p x2 (upsertLines p x1 ls)).
Proof.
  intros H1 H2 Hlen.
  destruct (upsertLines_once x1 ls H1 Hlen) as [(y & Hy & Hsole)|[Hnone Hlast]].
  - unfold upsertLines at 1. rewrite (soleEntry_find y _ Hsole Hy).
    now apply soleEntry_replaceFirst with (x := y).
  - unfold upsertLines at 1. rewrite Hnone, Hlast, append_nil_l.
    apply find_none_Forall, Forall_removelast in Hnone.
    exists (removelast (upsertLines p x1 ls)), [""]. split; [reflexivity|].
    split; [assumption|]. now repeat constructor.
Qed.

End SoleEntry.

Lemma getSubstitution_plain (m before after : string) (captures : list (option string))
    (replacement : string) :
  JsString.forallb (fun c => negb (Ascii.eqb c "$")) replacement = true ->
  JsString.getSubstitution m before after captures replacement = replacement.
Proof.
  induction replacement as [|c r IH]; [reflexivity|].
  simpl. intros [Hc Hr]%andb_true_iff. rewrite Hc. now rewrite (IH Hr).
Qed.

Lemma forallb_impl (p q : ascii -> bool) (s : string) :
  (forall c, p c = true -> q c = true) ->
  JsString.forallb p s = true -> JsString.forallb q s = true.
Proof.
  intros Himp. induction s as [|c s IH]; [reflexivity|]. simpl.
  intros [Hc Hs]%andb_true_iff. now rewrite (Himp c Hc), (IH Hs).
Qed.

Lemma isLiteral_noTerminator (K : string) :
  RegExpSemantics.isLiteral K = true -> noTerminator K = true.
Proof. apply forallb_impl. now intros c [_ Hc]%andb_true_iff. Qed.

Lemma isLiteral_noDollar (K : string) :
  RegExpSemantics.isLiteral K = true ->
  JsString.forallb (fun c => negb (Ascii.eqb c "$")) K = true.
Proof.
  apply forallb_impl. intros c [Hc _]%andb_true_iff.
  destruct (Ascii.eqb_spec c "$") as [->|]; [discriminate|reflexivity].
Qed.

Lemma isPlainValue_noTerminator (v : string) :
  isPlainValue v = true -> noTerminator v = true.
Proof. apply forallb_impl. now intros c [_ Hc]%andb_true_iff. Qed.

Lemma isPlainValue_noDollar (v : string) :
  isPlainValue v = true ->
  JsString.forallb (fun c => negb (Ascii.eqb c "$")) v = true.
Proof. apply forallb_impl. now intros c [Hc _]%andb_true_iff. Qed.

Section Store.
Context `{Platform} `{!RegExpLaws}.
Variables (this : Handler) (K : string).
Hypothesis K_literal : RegExpSemantics.isLiteral K = true.

Local Abbreviation lit := (K +:+ "=").
Local Abbreviation keyLine := (String.prefix lit).

Lemma lit_line : noTerminator lit = true.
Proof.
  rewrite forallb_append, (isLiteral_noTerminator K K_literal). reflexivity.
Qed.

Lemma lit_nonempty : lit <> "".
Proof. intros [_ Habs]%append_eq_nil. discriminate. Qed.

Lemma keyLine_empty : keyLine "" = false.
Proof. exact (startsWith_empty lit lit_line lit_nonempty). Qed.

Lemma keyLine_entry (v : string) : keyLine (lit +:+ v) = true.
Proof. apply prefix_append. Qed.

(** One call of [storeBaseEnvKey]: the file is rewritten, and its lines
    change as [upsertLines] says. *)
Lemma storeBaseEnvKey_lines (v content : string) (w : world) :
  isPlainValue v = true ->
  files w !! baseEnvFilePath this = Some content ->
  exists content' w',
    EnvFilesHandler.storeBaseEnvKey this K v w = (Ok tt, w')
    /\ files w' = <[baseEnvFilePath this := content']> (files w)
    /\ JsString.regexLines content' =
       upsertLines keyLine (lit +:+ v) (JsString.regexLines content)
    /\ match List.find keyLine (JsString.regexLines content) with
       | None => content' = content +:+ K +:+ "=" +:+ v +:+ String JsString.LF ""
       | Some line =>
           exists before after,
             content = before +:+ line +:+ after
             /\ content' = before +:+ K +:+ "=" +:+ v +:+ after
       end.
Proof.
  intros Hv Hfile.
  assert (Hentry : noTerminator (lit +:+ v) = true).
  { rewrite forallb_append, lit_line. now apply isPlainValue_noTerminator. }
  assert (Hplain : JsString.forallb (fun c => negb (Ascii.eqb c "$"))
                     (K +:+ "=" +:+ v) = true).
  { rewrite !forallb_append, (isLiteral_noDollar K K_literal),
      (isPlainValue_noDollar v Hv). reflexivity. }
  pose proof (searchLineStart_find lit lit_line lit_nonempty content true) as Hfind.
  pose proof (searchLineStart_replace lit lit_line lit_nonempty content true) as Hrep.
  cbn [fromLineStart] in Hfind.
  unfold EnvFilesHandler.storeBaseEnvKey, EnvFilesHandler.readBaseEnvFile,
    EnvFilesHandler.writeKeyToBaseEnvFile, JsRegExp.test, JsRegExp.replace,
    utilityHelper.writeFile, fs.readFileSync, fs.writeFileSync.
  js_unfold. rewrite Hfile. simpl.
  rewrite (RegExp_exec_line K content K_literal).
  unfold RegExpSemantics.execLine.
  destruct (RegExpSemantics.searchLineStart lit true content) as [[i m]|] eqn:Hs.
  - destruct (Hrep i m eq_refl) as (before & Hc & Hi & Hlines).
    destruct (breakLine_spec m) as (Hm & Hline & Hrest).
    set (line := fst (JsString.breakLine m)) in *.
    set (rest := snd (JsString.breakLine m)) in *.
    simpl. rewrite Hfind.
    assert (Hbefore : String.substring 0 i content = before).
    { rewrite Hi, Hc. apply substring_0_append. }
    assert (Hafter : String.substring (i + String.length line)
                       (String.length content - (i + String.length line)) content = rest).
    { rewrite Hc, Hm, Hi, <- append_assoc, <- length_append.
      rewrite substring_skip_append.
      replace (String.length ((before +:+ line) +:+ rest) - String.length (before +:+ line))%nat
        with (String.length rest) by (rewrite (length_append (before +:+ line)); lia).
      apply substring_all. }
    rewrite Hbefore, Hafter, (getSubstitution_plain _ _ _ _ _ Hplain).
    assert (Htruthy : JsString.truthy (before +:+ (K +:+ "=" +:+ v) +:+ rest) = true).
    { apply truthy_true_iff. intros [_ Habs]%append_eq_nil.
      apply append_eq_nil in Habs as [Habs _].
      apply append_eq_nil in Habs as [_ Habs].
      apply append_eq_nil in Habs as [Habs _]. discriminate. }
    rewrite Htruthy. simpl.
    eexists _, _. split; [reflexivity|]. simpl. split; [reflexivity|].
    split.
    + unfold upsertLines. rewrite Hfind.
      rewrite <- (Hlines (lit +:+ v) Hentry).
      now rewrite !append_assoc.
    + exists before, rest. split.
      * now rewrite Hc, Hm.
      * now rewrite !append_assoc.
  - simpl. rewrite Hfind.
    assert (Htruthy : JsString.truthy
              (content +:+ K +:+ "=" +:+ v +:+ String JsString.LF "") = true).
    { apply truthy_true_iff. intros [_ Habs]%append_eq_nil.
      apply append_eq_nil in Habs as [_ Habs].
      apply append_eq_nil in Habs as [Habs _]. discriminate. }
    rewrite Htruthy. simpl.
    eexists _, _. split; [reflexivity|]. simpl. split; [reflexivity|].
    split; [|reflexivity].
    unfold upsertLines. rewrite Hfind.
    replace (content +:+ K +:+ "=" +:+ v +:+ String JsString.LF "")
      with ((content +:+ lit +:+ v) +:+ String JsString.LF "")
      by (now rewrite !append_assoc).
    rewrite (regexLines_terminator _ "" JsString.LF eq_refl).
    rewrite (regexLines_append_line content (lit +:+ v) Hentry).
    now rewrite <- app_assoc.
Qed.


Lemma getKeyValue_lines (content : string) (w : world) :
  files w !! baseEnvFilePath this = Some content ->
  EnvFilesHandler.getKeyValue this K w =
    (Ok (match List.find keyLine (JsString.regexLines content) with
         | Some line =>
             Some (String.substring (String.length lit)
                     (String.length line - String.length lit) line)
         | None => None
         end), w).
Proof.
  intros Hfile.
  pose proof (searchLineStart_find lit lit_line lit_nonempty content true) as Hfind.
  cbn [fromLineStart] in Hfind.
  unfold EnvFilesHandler.getKeyValue, EnvFilesHandler.readBaseEnvFile,
    JsRegExp.match_, fs.readFileSync.
  js_unfold. rewrite Hfile. simpl.
  rewrite (RegExp_exec_line_capture K content K_literal).
  unfold RegExpSemantics.execLineCapture.
  destruct (RegExpSemantics.searchLineStart lit true content) as [[i m]|];
    rewrite Hfind; destruct w; reflexivity.
Qed.

Lemma entry_value (v : string) :
  String.substring (String.length lit)
    (String.length (lit +:+ v) - String.length lit) (lit +:+ v) = v.
Proof.
  rewrite substring_skip_append, length_append.
  replace (String.length lit + String.length v - String.length lit)%nat
    with (String.length v) by lia.
  apply substring_all.
Qed.

End Store.

Section Upsert.
Context `{Platform} `{!RegExpLaws}.

(** X31.  Storing a key twice.  For a key name [K] of characters that
    stand for themselves in a pattern, values without [$] and without line
    terminator, and a file with at most one line starting with [K=]:
    [storeBaseEnvKey K v1] replaces the first such line by [K=v1] in
    place, or appends [K=v1] and a line feed when there is none; after
    [storeBaseEnvKey K v2] exactly one line of the file is [K=v2] and
    [getKeyValue K] returns [v2].  [getKeyValue] of a name no line
    starts with returns [undefined]. *)
Theorem storeBaseEnvKey_upsert
    (this : Handler) (K v1 v2 content : string) (w : world) :
  RegExpSemantics.isLiteral K = true ->
  isPlainValue v1 = true ->
  isPlainValue v2 = true ->
  files w !! baseEnvFilePath this = Some content ->
  (length (List.filter (String.prefix (K +:+ "=")) (JsString.regexLines content)) <= 1)%nat ->
  (exists content1 w1,
     EnvFilesHandler.storeBaseEnvKey this K v1 w = (Ok tt, w1)
     /\ files w1 = <[baseEnvFilePath this := content1]> (files w)
     /\ match List.find (String.prefix (K +:+ "=")) (JsString.regexLines content) with
        | None => content1 = content +:+ K +:+ "=" +:+ v1 +:+ String JsString.LF ""
        | Some line =>
            exists before after,
              content = before +:+ line +:+ after
              /\ content1 = before +:+ K +:+ "=" +:+ v1 +:+ after
        end
     /\ exists content2 w2,
          EnvFilesHandler.storeBaseEnvKey this K v2 w1 = (Ok tt, w2)
          /\ files w2 = <[baseEnvFilePath this := content2]> (files w)
          /\ count_occ string_dec (JsString.regexLines content2) (K +:+ "=" +:+ v2) = 1%nat
          /\ EnvFilesHandler.getKeyValue this K w2 = (Ok (Some v2), w2))
  /\ (forall name : string,
        RegExpSemantics.isLiteral name = true ->
        Forall (fun line => String.prefix (name +:+ "=") line = false)
               (JsString.regexLines content) ->
        EnvFilesHandler.getKeyValue this name w = (Ok None, w)).
Proof.
  intros HK Hv1 Hv2 Hfile Hlen. split.
  - destruct (storeBaseEnvKey_lines this K HK v1 content w Hv1 Hfile)
      as (c1 & w1 & Hrun1 & Hfiles1 & Hlines1 & Hshape1).
    assert (Hfile1 : files w1 !! baseEnvFilePath this = Some c1).
    { rewrite Hfiles1. apply lookup_insert_eq. }
    destruct (storeBaseEnvKey_lines this K HK v2 c1 w1 Hv2 Hfile1)
      as (c2 & w2 & Hrun2 & Hfiles2 & Hlines2 & _).
    assert (Hfile2 : files w2 !! baseEnvFilePath this = Some c2).
    { rewrite Hfiles2. apply lookup_insert_eq. }
    exists c1, w1. split; [exact Hrun1|]. split; [exact Hfiles1|].
    split; [exact Hshape1|].
    exists c2, w2. split; [exact Hrun2|].
    split; [rewrite Hfiles2, Hfiles1; apply insert_insert_eq|].
    assert (Hsole : soleEntry (String.prefix (K +:+ "=")) ((K +:+ "=") +:+ v2)
                      (JsString.regexLines c2)).
    { rewrite Hlines2, Hlines1.
      apply upsertLines_twice; try assumption.
      - exact (keyLine_empty K HK).
      - apply prefix_append.
      - apply prefix_append. }
    rewrite append_assoc in Hsole. split.
    + apply soleEntry_count with (p := String.prefix (K +:+ "=")); [exact Hsole|].
      rewrite <- append_assoc. apply prefix_append.
    + rewrite (getKeyValue_lines this K HK c2 w2 Hfile2).
      rewrite (soleEntry_find _ _ _ Hsole)
        by (rewrite <- append_assoc; apply prefix_append).
      rewrite <- append_assoc. now rewrite (entry_value K v2).
  - intros name Hname Hnone.
    rewrite (getKeyValue_lines this name Hname content w Hfile).
    apply find_none_Forall in Hnone. now rewrite Hnone.
Qed.

End Upsert.


(** * More of the repository, proved *)

(** ** The string helpers of [utilityHelper.ts] *)

(** X22. [getReversedData] counts from the last element: for an index inside
    the array it returns the element at that position of the reversed array,
    and for any other index it returns [undefined]; it never throws. *)
Theorem getReversedData_reads_from_the_end (arr : list string) (index : Z) :
  UtilityHelper.getReversedData arr index =
    if (0 <=? index) && (index <? Z.of_nat (length arr))
    then nth_error (rev arr) (Z.to_nat index)
    else None.
Proof.
  unfold UtilityHelper.getReversedData.
  destruct (Z.ltb_spec (Z.of_nat (length arr) - 1 - index) 0) as [Hneg|Hpos].
  - destruct (Z.ltb_spec index (Z.of_nat (length arr))); [lia|].
    now rewrite andb_false_r.
  - destruct (Z.leb_spec 0 index) as [Hi|Hi]; cbn [andb].
    + destruct (Z.ltb_spec index (Z.of_nat (length arr))); [|lia].
      rewrite nth_error_rev.
      destruct (Nat.ltb_spec (Z.to_nat index) (length arr)); [|lia].
      f_equal. lia.
    + apply nth_error_None. lia.
Qed.

Lemma trimEnd_fixed (c : ascii) (rest : string) :
  JsString.trimEnd (String c rest) = String c rest ->
  (rest = "" /\ JsString.isWhiteSpace c = false)
  \/ (rest <> "" /\ JsString.trimEnd rest = rest).
Proof.
  cbn [JsString.trimEnd].
  destruct (JsString.trimEnd rest) as [|d t] eqn:Ht.
  - destruct (JsString.isWhiteSpace c); [discriminate|].
    intros [= <-]. now left.
  - intros [= <-]. right. split; [discriminate|reflexivity].
Qed.

Lemma trimEnd_idempotent (s : string) :
  JsString.trimEnd (JsString.trimEnd s) = JsString.trimEnd s.
Proof.
  induction s as [|c s IH]; [reflexivity|].
  cbn [JsString.trimEnd].
  destruct (JsString.trimEnd s) as [|d t] eqn:Ht.
  - destruct (JsString.isWhiteSpace c) eqn:Hc; [reflexivity|].
    cbn [JsString.trimEnd]. now rewrite Hc.
  - cbn [JsString.trimEnd] in *. rewrite IH. reflexivity.
Qed.

Lemma trimStart_head (s : string) :
  JsString.trimStart s = ""
  \/ exists c r, JsString.trimStart s = String c r /\ JsString.isWhiteSpace c = false.
Proof.
  induction s as [|c s IH]; [now left|].
  cbn [JsString.trimStart]. destruct (JsString.isWhiteSpace c) eqn:Hc; [exact IH|].
  right. now exists c, s.
Qed.

Lemma trimEnd_head (c : ascii) (r : string) :
  JsString.isWhiteSpace c = false ->
  exists r', JsString.trimEnd (String c r) = String c r'.
Proof.
  intros Hc. cbn [JsString.trimEnd]. rewrite Hc.
  destruct (JsString.trimEnd r); eauto.
Qed.

Lemma trim_head (s : string) :
  JsString.trim s = ""
  \/ exists c r, JsString.trim s = String c r /\ JsString.isWhiteSpace c = false.
Proof.
  unfold JsString.trim.
  destruct (trimStart_head s) as [->|(c & r & -> & Hc)]; [now left|].
  right. destruct (trimEnd_head c r Hc) as [r' ->]. now exists c, r'.
Qed.

Lemma trim_trimEnd (s : string) : JsString.trimEnd (JsString.trim s) = JsString.trim s.
Proof. apply trimEnd_idempotent. Qed.

(** After a run of white space, a text that does not end in white space
    goes on with a character that is none. *)
Lemma replaceWhiteSpaceRuns_resume (r s : string) :
  s <> "" -> JsString.trimEnd s = s ->
  exists d t,
    JsText.replaceWhiteSpaceRuns r true s = String d t
    /\ JsString.isWhiteSpace d = false.
Proof.
  induction s as [|c s IH]; [congruence|]. intros _ Hfix.
  cbn [JsText.replaceWhiteSpaceRuns].
  destruct (JsString.isWhiteSpace c) eqn:Hc; [|eauto].
  destruct (trimEnd_fixed c s Hfix) as [[_ Hc']|[Hne Hs]]; [congruence|].
  now apply IH.
Qed.

Lemma singleSpaced_collapsed (s : string) :
  JsString.trimEnd s = s ->
  forall b, singleSpaced (JsText.replaceWhiteSpaceRuns " " b s) = true.
Proof.
  induction s as [|c s IH]; [reflexivity|]. intros Hfix b.
  cbn [JsText.replaceWhiteSpaceRuns].
  destruct (trimEnd_fixed c s Hfix) as [[-> Hc]|[Hne Hs]].
  - rewrite Hc. cbn. now rewrite Hc.
  - destruct (JsString.isWhiteSpace c) eqn:Hc.
    + destruct b; [now apply IH|].
      destruct (replaceWhiteSpaceRuns_resume " " s Hne Hs) as (d & t & Hrun & Hd).
      specialize (IH Hs true). rewrite Hrun in *.
      change (" " +:+ String d t) with (String " " (String d t)).
      cbn [singleSpaced]. change (JsString.isWhiteSpace " ") with true.
      cbn [Ascii.eqb Bool.eqb andb]. rewrite Hd. cbn [negb andb].
      cbn [singleSpaced] in IH. rewrite Hd in IH. exact IH.
    + cbn [singleSpaced]. rewrite Hc. now apply IH.
Qed.

Lemma singleSpaced_trimEnd (s : string) :
  singleSpaced s = true -> JsString.trimEnd s = s.
Proof.
  induction s as [|c s IH]; [reflexivity|].
  cbn [singleSpaced JsString.trimEnd].
  destruct (JsString.isWhiteSpace c) eqn:Hc.
  - intros [[_ Hnext]%andb_true_iff Hs]%andb_true_iff.
    rewrite (IH Hs). destruct s; [discriminate|reflexivity].
  - intros Hs. rewrite (IH Hs). now destruct s.
Qed.

Lemma singleSpaced_fixed (s : string) :
  singleSpaced s = true -> JsText.replaceWhiteSpaceRuns " " false s = s.
Proof.
  induction s as [|c s IH]; [reflexivity|].
  cbn [singleSpaced JsText.replaceWhiteSpaceRuns].
  destruct (JsString.isWhiteSpace c) eqn:Hc.
  - intros [[Hsp Hnext]%andb_true_iff Hs]%andb_true_iff.
    apply Ascii.eqb_eq in Hsp. subst c.
    destruct s as [|d s]; [discriminate|].
    apply negb_true_iff in Hnext.
    specialize (IH Hs). cbn [JsText.replaceWhiteSpaceRuns] in IH |- *.
    rewrite Hnext in IH |- *. now rewrite IH.
  - intros Hs. now rewrite (IH Hs).
Qed.

Lemma isNormalized_trim (s : string) : isNormalized s = true -> JsString.trim s = s.
Proof.
  destruct s as [|c s]; [reflexivity|].
  unfold isNormalized. intros [Hc Hs]%andb_true_iff. apply negb_true_iff in Hc.
  unfold JsString.trim. cbn [JsString.trimStart]. rewrite Hc.
  now apply singleSpaced_trimEnd.
Qed.

(** X23. [normalizeString] returns a text without white space at either end
    in which white space occurs only as single spaces; it changes nothing in
    such a text, and so applying it twice is applying it once. *)
Theorem normalizeString_normalizes (str : string) :
  isNormalized (UtilityHelper.normalizeString str) = true
  /\ (UtilityHelper.normalizeString str = str <-> isNormalized str = true)
  /\ UtilityHelper.normalizeString (UtilityHelper.normalizeString str) =
     UtilityHelper.normalizeString str.
Proof.
  assert (Hnorm : forall s, isNormalized (UtilityHelper.normalizeString s) = true).
  { intros s. unfold UtilityHelper.normalizeString.
    pose proof (trim_trimEnd s) as Hend.
    destruct (trim_head s) as [->|(c & r & Ht & Hc)]; [reflexivity|].
    rewrite Ht in *.
    pose proof (singleSpaced_collapsed _ Hend false) as Hss.
    cbn [JsText.replaceWhiteSpaceRuns] in *. rewrite Hc in *.
    unfold isNormalized. now rewrite Hc, Hss. }
  assert (Hfix : forall s, isNormalized s = true -> UtilityHelper.normalizeString s = s).
  { intros s Hs. unfold UtilityHelper.normalizeString.
    rewrite (isNormalized_trim s Hs).
    destruct s as [|c s]; [reflexivity|].
    apply andb_true_iff in Hs as [_ Hs]. now apply singleSpaced_fixed. }
  split; [apply Hnorm|]. split.
  - split; [intros <-; apply Hnorm|apply Hfix].
  - apply Hfix, Hnorm.
Qed.

Lemma removeWhiteSpace_clean (s : string) :
  JsString.forallb (fun c => negb (JsString.isWhiteSpace c)) (JsText.removeWhiteSpace s) = true.
Proof.
  induction s as [|c s IH]; [reflexivity|].
  cbn [JsText.removeWhiteSpace].
  destruct (JsString.isWhiteSpace c) eqn:Hc; [exact IH|].
  cbn [JsString.forallb]. now rewrite Hc, IH.
Qed.

Lemma removeWhiteSpace_fixed (s : string) :
  JsString.forallb (fun c => negb (JsString.isWhiteSpace c)) s = true ->
  JsText.removeWhiteSpace s = s.
Proof.
  induction s as [|c s IH]; [reflexivity|].
  cbn [JsString.forallb JsText.removeWhiteSpace].
  intros [Hc Hs]%andb_true_iff. apply negb_true_iff in Hc.
  now rewrite Hc, (IH Hs).
Qed.

Lemma removeRWhiteSpace_fixed (s : string) :
  JsString.forallb (fun c => negb (JsString.isWhiteSpace c)) s = true ->
  JsText.removeRWhiteSpace s = s.
Proof.
  induction s as [|c s IH]; [reflexivity|].
  cbn [JsString.forallb]. intros [_ Hs]%andb_true_iff.
  cbn [JsText.removeRWhiteSpace]. destruct s as [|d s]; [reflexivity|].
  pose proof Hs as Hs'. cbn [JsString.forallb] in Hs'.
  apply andb_true_iff in Hs' as [Hd _]. apply negb_true_iff in Hd.
  rewrite Hd, andb_false_r. now rewrite (IH Hs).
Qed.

(** X24. [safeReplace] returns a text without any white space, returns a
    text without white space as it is (a missing value as the empty text),
    and so applying it twice is applying it once. *)
Theorem safeReplace_removes_white_space (value : option string) :
  JsString.forallb (fun c => negb (JsString.isWhiteSpace c))
    (UtilityHelper.safeReplace value) = true
  /\ (UtilityHelper.safeReplace value = default "" value <->
      JsString.forallb (fun c => negb (JsString.isWhiteSpace c)) (default "" value) = true)
  /\ UtilityHelper.safeReplace (Some (UtilityHelper.safeReplace value)) =
     UtilityHelper.safeReplace value.
Proof.
  assert (Hfix : forall s,
    JsString.forallb (fun c => negb (JsString.isWhiteSpace c)) s = true ->
    UtilityHelper.safeReplace (Some s) = s).
  { intros s Hs.
    change (UtilityHelper.safeReplace (Some s))
      with (JsText.removeWhiteSpace (JsText.removeRWhiteSpace s)).
    now rewrite (removeRWhiteSpace_fixed s Hs), (removeWhiteSpace_fixed s Hs). }
  split; [apply removeWhiteSpace_clean|]. split.
  - split.
    + intros <-. apply removeWhiteSpace_clean.
    + intros Hs. destruct value as [s|]; [now apply Hfix|reflexivity].
  - apply Hfix, removeWhiteSpace_clean.
Qed.

(** ** [createRandomString] *)

Lemma byteToHex_length (b : Byte.byte) : String.length (UtilityHelper.byteToHex b) = 2%nat.
Proof. destruct b; reflexivity. Qed.

Lemma byteToHex_hex (b : Byte.byte) :
  JsString.forallb isHexDigit (UtilityHelper.byteToHex b) = true.
Proof. destruct b; reflexivity. Qed.

Lemma join_nothing_cons (x : string) (l : list string) :
  JsString.join (x :: l) "" = x +:+ JsString.join l "".
Proof.
  unfold JsString.join. destruct l as [|y l]; simpl.
  - now rewrite append_nil_r.
  - reflexivity.
Qed.

Lemma length_join_hex (l : bytes) :
  String.length (JsString.join (map UtilityHelper.byteToHex l) "") = (2 * length l)%nat.
Proof.
  induction l as [|b l IH]; [reflexivity|].
  cbn [map]. rewrite join_nothing_cons, length_append, byteToHex_length, IH.
  cbn [length]. lia.
Qed.

Lemma forallb_join_hex (l : bytes) :
  JsString.forallb isHexDigit (JsString.join (map UtilityHelper.byteToHex l) "") = true.
Proof.
  induction l as [|b l IH]; [reflexivity|].
  cbn [map]. now rewrite join_nothing_cons, forallb_append, byteToHex_hex, IH.
Qed.

Lemma length_substring_0 (n : nat) (s : string) :
  (n <= String.length s)%nat -> String.length (String.substring 0 n s) = n.
Proof.
  revert s. induction n as [|n IH]; intros s Hn.
  - now destruct s.
  - destruct s as [|c s]; [simpl in Hn; lia|].
    simpl in *. rewrite IH; [reflexivity|lia].
Qed.

Lemma forallb_substring_0 (p : ascii -> bool) (n : nat) (s : string) :
  JsString.forallb p s = true -> JsString.forallb p (String.substring 0 n s) = true.
Proof.
  revert s. induction n as [|n IH]; intros s Hs.
  - now destruct s.
  - destruct s as [|c s]; [reflexivity|].
    simpl in *. apply andb_true_iff in Hs as [Hc Hs]. now rewrite Hc, IH.
Qed.

Lemma ceilHalf_bounds (n : Z) :
  n <= 2 * JsNumber.ceilHalf n <= n + 1.
Proof.
  unfold JsNumber.ceilHalf.
  pose proof (Z.div_mod (- n) 2 ltac:(lia)).
  pose proof (Z.mod_pos_bound (- n) 2 ltac:(lia)).
  lia.
Qed.

Section RandomString.
Context `{WebCrypto}.

(** X21. [createRandomString n] for [1 <= n <= 131072], the random source
    holding the bytes needed: the result has exactly [n] characters, all of
    them lower-case hexadecimal digits; it is the beginning of the two-digit
    rendering of the next [ceil(n / 2)] random bytes, which are consumed.
    For [n <= 0] the call throws without logging; for [n] above 131072 the
    byte array is beyond what [getRandomValues] fills, and the call logs and
    rethrows that error. *)
Theorem createRandomString_length (n : Z) (w : world) :
  (0 < n <= 131072 ->
   JsNumber.ceilHalf n <= Z.of_nat (length (entropy w)) ->
   exists s,
     UtilityHelper.createRandomString n w =
       (Ok s, World (files w) (drop (Z.to_nat (JsNumber.ceilHalf n)) (entropy w))
                (logged w) (calls w))
     /\ s = String.substring 0 (Z.to_nat n)
              (JsString.join
                 (map UtilityHelper.byteToHex
                    (take (Z.to_nat (JsNumber.ceilHalf n)) (entropy w))) "")
     /\ String.length s = Z.to_nat n
     /\ JsString.forallb isHexDigit s = true)
  /\ (n <= 0 ->
      UtilityHelper.createRandomString n w =
        (Throw (Error "Length must be a positive integer."), w))
  /\ (131072 < n ->
      UtilityHelper.createRandomString n w =
        (Throw (getRandomValues_error (JsNumber.ceilHalf n)),
         withLogged w
           [(ErrorLevel,
             "[Method: createRandomString] Error: " +:+
             message (getRandomValues_error (JsNumber.ceilHalf n)))])).
Proof.
  pose proof (ceilHalf_bounds n) as Hceil.
  unfold UtilityHelper.createRandomString, webcrypto.getRandomValues.
  split; [|split].
  - intros Hn Hentropy.
    destruct (Z.leb_spec n 0); [lia|]. js_unfold.
    destruct (Z.ltb_spec 65536 (JsNumber.ceilHalf n)); [lia|].
    destruct (Z.ltb_spec (Z.of_nat (length (entropy w))) (JsNumber.ceilHalf n)); [lia|].
    eexists. split; [reflexivity|].
    unfold JsText.slice0. destruct (Z.ltb_spec n 0); [lia|].
    split; [reflexivity|]. split.
    + apply length_substring_0. rewrite length_join_hex, length_take. lia.
    + apply forallb_substring_0, forallb_join_hex.
  - intros Hn. destruct (Z.leb_spec n 0); [reflexivity|lia].
  - intros Hn. destruct (Z.leb_spec n 0); [lia|]. js_unfold.
    destruct (Z.ltb_spec 65536 (JsNumber.ceilHalf n)); [|lia].
    reflexivity.
Qed.

End RandomString.

(** ** Files *)

Section Files.
Context `{Platform}.

(** X16. [readFile] of a path that is not in the store throws [File not
    found], after a warning (which names the file [undefined], no name being
    passed on) and an error entry; nothing else changes. *)
Theorem readFile_missing_file (path : string) (w : world) :
  files w !! path = None ->
  UtilityHelper.readFile path w =
    (Throw (Error ("File not found: " +:+ path)),
     withLogged w
       [(Warn, "File undefined does not exist on path: '" +:+
               path_relative process_cwd path +:+ "'");
        (ErrorLevel, "[Method: loadFile] Error: File not found: " +:+ path)]).
Proof.
  intros Hmissing.
  unfold UtilityHelper.readFile, UtilityHelper.doesFileExists,
    fs.readFileSync, fs.existsSync.
  js_unfold. rewrite Hmissing.
  rewrite bool_decide_eq_false_2 by (intros [x Hx]; discriminate).
  cbn. rewrite <- app_assoc. reflexivity.
Qed.

End Files.

(** ** The key store, one call at a time *)

Lemma endsWithTerminator_last (s : string) :
  endsWithTerminator s -> List.last (JsString.regexLines s) "" = "".
Proof.
  intros [->|(a & t & -> & Ht)]; [reflexivity|].
  rewrite (regexLines_terminator a "" t Ht).
  change (JsString.regexLines "") with [""]. apply last_last.
Qed.

Lemma find_app_false {A} (p : A -> bool) (l k : list A) :
  Forall (fun x => p x = false) k -> List.find p (l ++ k) = List.find p l.
Proof.
  intros Hk. induction l as [|a l IH]; simpl.
  - induction Hk as [|b k Hb _ IHk]; [reflexivity|]. simpl. now rewrite Hb.
  - now rewrite IH.
Qed.

Lemma find_app_skip {A} (p : A -> bool) (l k : list A) :
  Forall (fun x => p x = false) l -> List.find p (l ++ k) = List.find p k.
Proof.
  induction 1 as [|a l Ha _ IH]; [reflexivity|]. simpl. now rewrite Ha.
Qed.

Lemma find_replaceFirst (p : string -> bool) (x : string) (ls : list string) :
  p x = true -> List.find p ls <> None -> List.find p (replaceFirst p x ls) = Some x.
Proof.
  intros Hx. induction ls as [|l ls IH]; [intros Habs; now contradiction Habs|].
  simpl. destruct (p l) eqn:Hl; intros Hfind.
  - simpl. now rewrite Hx.
  - simpl. rewrite Hl. now apply IH.
Qed.

Lemma find_replaceFirst_other (p q : string -> bool) (x : string) (ls : list string) :
  (forall y, p y = true -> q y = false) -> p x = true ->
  List.find q (replaceFirst p x ls) = List.find q ls.
Proof.
  intros Hpq Hx. induction ls as [|l ls IH]; [reflexivity|].
  simpl. destruct (p l) eqn:Hl.
  - simpl. now rewrite (Hpq x Hx), (Hpq l Hl).
  - simpl. now rewrite IH.
Qed.

Lemma removelast_app_last (ls : list string) :
  ls <> [] -> ls = (removelast ls ++ [List.last ls ""])%list.
Proof. intros Hne. now apply app_removelast_last. Qed.

(** After an update of a text that has a line for the key, or whose
    last line is finished, the first line for the key is the new one. *)
Lemma upsertLines_find (p : string -> bool) (x : string) (ls : list string) :
  p x = true -> p "" = false ->
  List.find p ls <> None \/ List.last ls "" = "" ->
  List.find p (upsertLines p x ls) = Some x.
Proof.
  intros Hx Hempty Hcase. unfold upsertLines.
  destruct (List.find p ls) as [l|] eqn:Hfind.
  - apply find_replaceFirst; [exact Hx|congruence].
  - destruct Hcase as [Habs|Hlast]; [congruence|].
    rewrite Hlast, append_nil_l.
    apply find_none_Forall in Hfind.
    rewrite find_app_skip by (now apply Forall_removelast).
    simpl. now rewrite Hx.
Qed.

(** Such an update does not change which line is found for a pattern
    that excludes the lines of the key. *)
Lemma upsertLines_find_other (p q : string -> bool) (x : string) (ls : list string) :
  (forall y, p y = true -> q y = false) -> p x = true -> q "" = false ->
  ls <> [] ->
  List.find p ls <> None \/ List.last ls "" = "" ->
  List.find q (upsertLines p x ls) = List.find q ls.
Proof.
  intros Hpq Hx Hempty Hne Hcase. unfold upsertLines.
  destruct (List.find p ls) as [l|] eqn:Hfind.
  - now apply find_replaceFirst_other.
  - destruct Hcase as [Habs|Hlast]; [congruence|].
    rewrite Hlast, append_nil_l.
    assert (Hls : List.find q ls = List.find q (removelast ls)).
    { rewrite (removelast_app_last ls Hne) at 1. rewrite Hlast.
      apply find_app_false. now repeat constructor. }
    rewrite Hls. apply find_app_false.
    repeat constructor; [now apply Hpq|exact Hempty].
Qed.

Lemma string_prefix_nil (s : string) : String.prefix "" s = true.
Proof. now destruct s. Qed.

Lemma string_prefix_cons (a b : ascii) (s t : string) :
  String.prefix (String a s) (String b t) = Ascii.eqb a b && String.prefix s t.
Proof.
  simpl. destruct (ascii_dec a b) as [->|Hne].
  - now rewrite Ascii.eqb_refl.
  - apply Ascii.eqb_neq in Hne. now rewrite Hne.
Qed.

(** Two key names without [=] that differ have no line in common. *)
Lemma distinct_keys (K K' : string) :
  noEquals K = true -> noEquals K' = true -> K <> K' ->
  forall y, String.prefix (K +:+ "=") y = true -> String.prefix (K' +:+ "=") y = false.
Proof.
  revert K'. induction K as [|k K IH]; intros K' HK HK' Hne y Hy.
  - destruct K' as [|k' K']; [congruence|].
    rewrite append_nil_l in Hy. rewrite append_cons.
    destruct y as [|c y]; [reflexivity|].
    rewrite string_prefix_cons in *. apply andb_true_iff in Hy as [Hc _].
    apply Ascii.eqb_eq in Hc. subst c.
    cbn [JsString.forallb] in HK'. apply andb_true_iff in HK' as [Hk' _].
    apply negb_true_iff in Hk'. rewrite Ascii.eqb_sym, Hk'. reflexivity.
  - rewrite append_cons in Hy.
    destruct y as [|c y]; [discriminate|].
    rewrite string_prefix_cons in Hy. apply andb_true_iff in Hy as [Hc Hy].
    apply Ascii.eqb_eq in Hc. subst c.
    cbn [JsString.forallb] in HK. apply andb_true_iff in HK as [Hk HK].
    destruct K' as [|k' K'].
    + rewrite append_nil_l, string_prefix_cons.
      apply negb_true_iff in Hk. now rewrite Hk.
    + rewrite append_cons, string_prefix_cons.
      cbn [JsString.forallb] in HK'. apply andb_true_iff in HK' as [_ HK'].
      destruct (Ascii.eqb_spec k' k) as [->|]; [|reflexivity].
      cbn [andb]. apply (IH K' HK HK'); [congruence|exact Hy].
Qed.

(** A pattern shorter than the key does not match the new entry. *)
Lemma prefix_inside_key (pat K z : string) :
  noEquals K = true -> (String.length pat < String.length K)%nat ->
  String.prefix (pat +:+ "=") (K +:+ z) = false.
Proof.
  revert K. induction pat as [|a pat IH]; intros K HK Hlen.
  - destruct K as [|k K]; [simpl in Hlen; lia|].
    rewrite append_nil_l, append_cons, string_prefix_cons.
    cbn [JsString.forallb] in HK. apply andb_true_iff in HK as [Hk _].
    apply negb_true_iff in Hk. now rewrite Hk.
  - destruct K as [|k K]; [simpl in Hlen; lia|].
    rewrite !append_cons, string_prefix_cons.
    cbn [JsString.forallb] in HK. apply andb_true_iff in HK as [_ HK].
    rewrite IH; [apply andb_false_r|exact HK|simpl in Hlen; lia].
Qed.

(** Gluing the new entry to a line that is not empty does not make the
    line one of the key. *)
Lemma prefix_glued (pat K l z : string) :
  noEquals K = true -> (String.length pat <= String.length K)%nat -> l <> "" ->
  String.prefix (pat +:+ "=") (l +:+ K +:+ z) = String.prefix (pat +:+ "=") l.
Proof.
  revert l. induction pat as [|a pat IH]; intros l HK Hlen Hl.
  - destruct l as [|b l]; [congruence|].
    rewrite append_nil_l, append_cons, !string_prefix_cons, !string_prefix_nil. reflexivity.
  - destruct l as [|b l]; [congruence|].
    rewrite !append_cons, !string_prefix_cons. f_equal.
    destruct l as [|b' l].
    + rewrite append_nil_l.
      rewrite prefix_inside_key by (assumption || (simpl in Hlen; lia)).
      clear IH Hlen. now destruct pat.
    + apply IH; [exact HK|simpl in Hlen; lia|discriminate].
Qed.

Lemma isBase64Char_plain (s : string) :
  JsString.forallb isBase64Char s = true -> isPlainValue s = true.
Proof.
  apply forallb_impl. intros c Hc.
  destruct c as [[] [] [] [] [] [] [] []]; try discriminate; reflexivity.
Qed.

Section StoreMore.
Context `{Platform} `{!RegExpLaws}.

(** The heart of the two theorems on reading back what was stored. *)
Lemma storeBaseEnvKey_getKeyValue (this : Handler) (K v content : string) (w : world) :
  RegExpSemantics.isLiteral K = true ->
  isPlainValue v = true ->
  files w !! baseEnvFilePath this = Some content ->
  endsWithTerminator content
  \/ List.find (String.prefix (K +:+ "=")) (JsString.regexLines content) <> None ->
  exists content' w',
    EnvFilesHandler.storeBaseEnvKey this K v w = (Ok tt, w')
    /\ files w' = <[baseEnvFilePath this := content']> (files w)
    /\ entropy w' = entropy w
    /\ EnvFilesHandler.getKeyValue this K w' = (Ok (Some v), w').
Proof.
  intros HK Hv Hfile Hcase.
  destruct (storeBaseEnvKey_lines this K HK v content w Hv Hfile)
    as (c1 & w1 & Hrun & Hfiles & Hlines & _).
  assert (Hentropy : entropy w1 = entropy w).
  { revert Hrun.
    unfold EnvFilesHandler.storeBaseEnvKey, EnvFilesHandler.readBaseEnvFile,
      EnvFilesHandler.writeKeyToBaseEnvFile, JsRegExp.test, JsRegExp.replace,
      utilityHelper.writeFile, fs.readFileSync, fs.writeFileSync.
    js_unfold. rewrite Hfile. cbn [files entropy logged calls].
    rewrite (RegExp_exec_line K content HK). cbn [files entropy logged calls].
    destruct (RegExpSemantics.execLine (K +:+ "=") content) as [m|];
      rewrite ?bool_decide_eq_true_2 by eauto;
      rewrite ?bool_decide_eq_false_2 by (intros [x Hx]; discriminate);
      cbn [files entropy logged calls];
      match goal with
      | |- context [JsString.truthy ?s] => destruct (JsString.truthy s)
      end; cbn [negb files entropy logged calls]; intros [= <-]; reflexivity. }
  assert (Hfile1 : files w1 !! baseEnvFilePath this = Some c1).
  { rewrite Hfiles. apply lookup_insert_eq. }
  exists c1, w1. split; [exact Hrun|]. split; [exact Hfiles|]. split; [exact Hentropy|].
  rewrite (getKeyValue_lines this K HK c1 w1 Hfile1), Hlines.
  rewrite upsertLines_find.
  - now rewrite (entry_value K v).
  - apply prefix_append.
  - exact (keyLine_empty K HK).
  - destruct Hcase as [Hend|Hfind]; [right; now apply endsWithTerminator_last|now left].
Qed.

(** X9. Storing a value and reading it back. For a key name of characters
    that stand for themselves, a value without [$] and line terminator, and
    a base file that has a line for the key or is empty or ends with a line
    terminator: after [storeBaseEnvKey K v], [getKeyValue K] returns [v]. *)
Theorem getKeyValue_returns_stored_value
    (this : Handler) (K v content : string) (w : world) :
  RegExpSemantics.isLiteral K = true ->
  isPlainValue v = true ->
  files w !! baseEnvFilePath this = Some content ->
  endsWithTerminator content
  \/ List.find (String.prefix (K +:+ "=")) (JsString.regexLines content) <> None ->
  exists w',
    EnvFilesHandler.storeBaseEnvKey this K v w = (Ok tt, w')
    /\ EnvFilesHandler.getKeyValue this K w' = (Ok (Some v), w').
Proof.
  intros HK Hv Hfile Hcase.
  destruct (storeBaseEnvKey_getKeyValue this K v content w HK Hv Hfile Hcase)
    as (c1 & w1 & Hrun & _ & _ & Hget).
  now exists w1.
Qed.

(** X10. Storing a key leaves the others as they were. For two different key
    names of characters that stand for themselves and without [=], a value
    without [$] and line terminator, and a base file that has a line for the
    stored key or is empty or ends with a line terminator: [getKeyValue] of
    the other key returns after [storeBaseEnvKey] what it returned before. *)
Theorem storeBaseEnvKey_keeps_other_keys
    (this : Handler) (K K' v content : string) (w : world) :
  RegExpSemantics.isLiteral K = true ->
  RegExpSemantics.isLiteral K' = true ->
  noEquals K = true -> noEquals K' = true -> K <> K' ->
  isPlainValue v = true ->
  files w !! baseEnvFilePath this = Some content ->
  endsWithTerminator content
  \/ List.find (String.prefix (K +:+ "=")) (JsString.regexLines content) <> None ->
  exists r w',
    EnvFilesHandler.getKeyValue this K' w = (Ok r, w)
    /\ EnvFilesHandler.storeBaseEnvKey this K v w = (Ok tt, w')
    /\ EnvFilesHandler.getKeyValue this K' w' = (Ok r, w').
Proof.
  intros HK HK' Hn Hn' Hne Hv Hfile Hcase.
  destruct (storeBaseEnvKey_lines this K HK v content w Hv Hfile)
    as (c1 & w1 & Hrun & Hfiles & Hlines & _).
  assert (Hfile1 : files w1 !! baseEnvFilePath this = Some c1).
  { rewrite Hfiles. apply lookup_insert_eq. }
  eexists _, w1. split; [apply (getKeyValue_lines this K' HK' content w Hfile)|].
  split; [exact Hrun|].
  rewrite (getKeyValue_lines this K' HK' c1 w1 Hfile1), Hlines.
  rewrite (upsertLines_find_other (String.prefix (K +:+ "=")) (String.prefix (K' +:+ "="))).
  - reflexivity.
  - now apply distinct_keys.
  - apply prefix_append.
  - exact (keyLine_empty K' HK').
  - apply splitBy_nonempty.
  - destruct Hcase as [Hend|Hfind]; [right; now apply endsWithTerminator_last|now left].
Qed.

(** X11. A new key stored in a file whose last line is unfinished. For a key
    name [K] of characters that stand for themselves and without [=], a
    value without [$] and line terminator, and a base file without a line
    for the key whose last line [l] is not empty: the entry is glued to that
    line, so that [getKeyValue K] returns [undefined] right after
    [storeBaseEnvKey K v]; and when [l] is the entry [K'=v'] of another key
    with no earlier line, [getKeyValue K'] returns [v'] before and [v']
    followed by [K=v] after. *)
Theorem storeBaseEnvKey_glues_entry_to_unfinished_line
    (this : Handler) (K v content : string) (w : world) :
  RegExpSemantics.isLiteral K = true ->
  noEquals K = true ->
  isPlainValue v = true ->
  files w !! baseEnvFilePath this = Some content ->
  List.find (String.prefix (K +:+ "=")) (JsString.regexLines content) = None ->
  List.last (JsString.regexLines content) "" <> "" ->
  exists w',
    EnvFilesHandler.storeBaseEnvKey this K v w = (Ok tt, w')
    /\ files w' = <[baseEnvFilePath this :=
                      content +:+ K +:+ "=" +:+ v +:+ String JsString.LF ""]> (files w)
    /\ EnvFilesHandler.getKeyValue this K w' = (Ok None, w')
    /\ forall K' v' : string,
         RegExpSemantics.isLiteral K' = true ->
         List.last (JsString.regexLines content) "" = K' +:+ "=" +:+ v' ->
         List.find (String.prefix (K' +:+ "=")) (removelast (JsString.regexLines content)) = None ->
         EnvFilesHandler.getKeyValue this K' w = (Ok (Some v'), w)
         /\ EnvFilesHandler.getKeyValue this K' w' =
              (Ok (Some (v' +:+ K +:+ "=" +:+ v)), w').
Proof.
  intros HK Hn Hv Hfile Hnone Hlast.
  destruct (storeBaseEnvKey_lines this K HK v content w Hv Hfile)
    as (c1 & w1 & Hrun & Hfiles & Hlines & Hshape).
  rewrite Hnone in Hshape. subst c1.
  assert (Hfile1 : files w1 !! baseEnvFilePath this =
                   Some (content +:+ K +:+ "=" +:+ v +:+ String JsString.LF "")).
  { rewrite Hfiles. apply lookup_insert_eq. }
  set (ls := JsString.regexLines content) in *.
  assert (Hls : ls <> []) by apply splitBy_nonempty.
  assert (Hnew : JsString.regexLines (content +:+ K +:+ "=" +:+ v +:+ String JsString.LF "") =
                 (removelast ls ++ [List.last ls "" +:+ (K +:+ "=") +:+ v; ""])%list).
  { rewrite Hlines. unfold upsertLines. now rewrite Hnone. }
  exists w1. split; [exact Hrun|]. split; [exact Hfiles|]. split.
  - rewrite (getKeyValue_lines this K HK _ w1 Hfile1), Hnew.
    pose proof Hnone as Hall. apply find_none_Forall in Hall.
    rewrite find_app_skip
      by (apply Forall_removelast; assumption || exact (keyLine_empty K HK)).
    cbn [List.find].
    rewrite append_assoc, prefix_glued by (assumption || lia).
    assert (Hl : String.prefix (K +:+ "=") (List.last ls "") = false).
    { rewrite List.Forall_forall in Hall. apply Hall.
      rewrite (removelast_app_last ls Hls) at 2. apply in_or_app. right. now left. }
    rewrite Hl, (keyLine_empty K HK). reflexivity.
  - intros K' v' HK' Hentry Hearlier.
    apply find_none_Forall in Hearlier. split.
    + rewrite (getKeyValue_lines this K' HK' content w Hfile). fold ls.
      rewrite (removelast_app_last ls Hls), find_app_skip by exact Hearlier.
      cbn [List.find]. rewrite Hentry, <- append_assoc, prefix_append.
      now rewrite (entry_value K' v').
    + rewrite (getKeyValue_lines this K' HK' _ w1 Hfile1), Hnew.
      rewrite find_app_skip by exact Hearlier.
      cbn [List.find]. rewrite Hentry.
      replace ((K' +:+ "=" +:+ v') +:+ (K +:+ "=") +:+ v)
        with ((K' +:+ "=") +:+ (v' +:+ K +:+ "=" +:+ v))
        by (now rewrite !append_assoc).
      rewrite prefix_append. now rewrite (entry_value K' (v' +:+ K +:+ "=" +:+ v)).
Qed.

End StoreMore.

Section MissingBaseFile.
Context `{Platform}.

(** X12. Without a base file. [storeBaseEnvKey] does not create the base
    environment file (the constructor does): when the file is missing,
    [storeBaseEnvKey] and [getKeyValue] both throw the error of
    [fs.readFileSync], logged once by [readBaseEnvFile] and once by the
    method itself, and the file store stays as it is. *)
Theorem storeBaseEnvKey_needs_base_file
    (this : Handler) (keyName keyValue : string) (w : world) :
  files w !! baseEnvFilePath this = None ->
  let e := readFileSync_ENOENT (baseEnvFilePath this) in
  EnvFilesHandler.storeBaseEnvKey this keyName keyValue w =
    (Throw e,
     withLogged w
       [(ErrorLevel, "[Method: readEnvFile] Failed to read .env file: Error: " +:+ message e);
        (ErrorLevel, "[Method: storeKeyInEnv] Failed to store " +:+ keyName +:+
                     " in .env file: Error: " +:+ message e)])
  /\ EnvFilesHandler.getKeyValue this keyName w =
       (Throw e,
        withLogged w
          [(ErrorLevel, "[Method: readEnvFile] Failed to read .env file: Error: " +:+ message e);
           (ErrorLevel, "[Method: getKeyValue] Failed to read " +:+ keyName +:+
                        " from .env file: Error: " +:+ message e)]).
Proof.
  intros Hmissing e.
  unfold EnvFilesHandler.storeBaseEnvKey, EnvFilesHandler.getKeyValue,
    EnvFilesHandler.readBaseEnvFile, fs.readFileSync.
  js_unfold. rewrite Hmissing. fold e.
  split.
  - cbn [files entropy logged calls].
    assert (Ht : JsString.truthy ("Failed to store " +:+ keyName +:+ " in .env file") = true).
    { apply truthy_true_iff. intros [Habs _]%append_eq_nil. discriminate. }
    rewrite Ht. cbn. rewrite <- !app_assoc. cbn [app]. rewrite !append_assoc. reflexivity.
  - cbn [files entropy logged calls].
    assert (Ht : JsString.truthy ("Failed to read " +:+ keyName +:+ " from .env file") = true).
    { apply truthy_true_iff. intros [Habs _]%append_eq_nil. discriminate. }
    rewrite Ht. cbn. rewrite <- !app_assoc. cbn [app]. rewrite !append_assoc. reflexivity.
Qed.

End MissingBaseFile.

(** ** A value that is a replacement pattern *)

(** A replacement text is expanded past a prefix without [$]. *)
Lemma getSubstitution_append (m before after pre r : string)
    (captures : list (option string)) :
  JsString.forallb (fun c => negb (Ascii.eqb c "$")) pre = true ->
  JsString.getSubstitution m before after captures (pre +:+ r) =
  pre +:+ JsString.getSubstitution m before after captures r.
Proof.
  induction pre as [|c pre IH]; intros Hpre.
  - now rewrite !append_nil_l.
  - cbn [JsString.forallb] in Hpre. apply andb_true_iff in Hpre as [Hc Hpre].
    rewrite !append_cons. cbn [JsString.getSubstitution]. rewrite Hc.
    now rewrite (IH Hpre).
Qed.

Section ReplacementPattern.
Context `{Platform} `{!RegExpLaws}.
Variables (this : Handler) (K : string).
Hypothesis K_literal : RegExpSemantics.isLiteral K = true.

Local Abbreviation lit := (K +:+ "=").
Local Abbreviation keyLine := (String.prefix lit).

(** [storeBaseEnvKey K "$&"] on a file with a line for [K]: the line is
    replaced by [K=] followed by the line itself. *)
Lemma storeBaseEnvKey_matched_line (content line : string) (w : world) :
  files w !! baseEnvFilePath this = Some content ->
  List.find keyLine (JsString.regexLines content) = Some line ->
  exists content' w',
    EnvFilesHandler.storeBaseEnvKey this K "$&" w = (Ok tt, w')
    /\ files w' = <[baseEnvFilePath this := content']> (files w)
    /\ JsString.regexLines content' =
       replaceFirst keyLine (lit +:+ line) (JsString.regexLines content).
Proof.
  intros Hfile Hline.
  pose proof (searchLineStart_find lit (lit_line K K_literal) (lit_nonempty K)
                content true) as Hfind.
  pose proof (searchLineStart_replace lit (lit_line K K_literal) (lit_nonempty K)
                content true) as Hrep.
  cbn [fromLineStart] in Hfind.
  unfold EnvFilesHandler.storeBaseEnvKey, EnvFilesHandler.readBaseEnvFile,
    EnvFilesHandler.writeKeyToBaseEnvFile, JsRegExp.test, JsRegExp.replace,
    utilityHelper.writeFile, fs.readFileSync, fs.writeFileSync.
  js_unfold. rewrite Hfile. simpl.
  rewrite (RegExp_exec_line K content K_literal).
  unfold RegExpSemantics.execLine.
  destruct (RegExpSemantics.searchLineStart lit true content) as [[i m]|] eqn:Hs;
    [|congruence].
  destruct (Hrep i m eq_refl) as (before & Hc & Hi & Hlines).
  destruct (breakLine_spec m) as (Hm & Hnoterm & Hrest).
  assert (Hl : fst (JsString.breakLine m) = line) by congruence.
  rewrite Hl in *.
  set (rest := snd (JsString.breakLine m)) in *.
  simpl.
  assert (Hbefore : String.substring 0 i content = before).
  { rewrite Hi, Hc. apply substring_0_append. }
  assert (Hafter : String.substring (i + String.length line)
                     (String.length content - (i + String.length line)) content = rest).
  { rewrite Hc, Hm, Hi, <- append_assoc, <- length_append.
    rewrite substring_skip_append.
    replace (String.length ((before +:+ line) +:+ rest) - String.length (before +:+ line))%nat
      with (String.length rest) by (rewrite (length_append (before +:+ line)); lia).
    apply substring_all. }
  rewrite Hbefore, Hafter.
  replace (JsString.getSubstitution line before rest [] (K +:+ "=" +:+ "$&"))
    with (lit +:+ line).
  2:{ rewrite (getSubstitution_append _ _ _ K _ _ (isLiteral_noDollar K K_literal)).
      change ("=" +:+ "$&") with "=$&". cbn. rewrite append_nil_r.
      change (String "=" line) with ("=" +:+ line). now rewrite append_assoc. }
  assert (Htruthy : JsString.truthy (before +:+ (lit +:+ line) +:+ rest) = true).
  { apply truthy_true_iff. intros [_ Habs]%append_eq_nil.
    apply append_eq_nil in Habs as [Habs _].
    apply append_eq_nil in Habs as [Habs _].
    now apply (lit_nonempty K). }
  rewrite Htruthy. simpl.
  eexists _, _. split; [reflexivity|]. simpl. split; [reflexivity|].
  apply Hlines. rewrite forallb_append, (lit_line K K_literal). exact Hnoterm.
Qed.

(** [storeBaseEnvKey K "$&"] on a file without a line for [K]: the text
    [K=$&] and a line feed are appended. *)
Lemma storeBaseEnvKey_appended_pattern (content : string) (w : world) :
  files w !! baseEnvFilePath this = Some content ->
  List.find keyLine (JsString.regexLines content) = None ->
  exists w',
    EnvFilesHandler.storeBaseEnvKey this K "$&" w = (Ok tt, w')
    /\ files w' =
       <[baseEnvFilePath this := content +:+ K +:+ "=" +:+ "$&" +:+ String JsString.LF ""]>
         (files w).
Proof.
  intros Hfile Hnone.
  pose proof (searchLineStart_find lit (lit_line K K_literal) (lit_nonempty K)
                content true) as Hfind.
  cbn [fromLineStart] in Hfind.
  unfold EnvFilesHandler.storeBaseEnvKey, EnvFilesHandler.readBaseEnvFile,
    EnvFilesHandler.writeKeyToBaseEnvFile, JsRegExp.test, JsRegExp.replace,
    utilityHelper.writeFile, fs.readFileSync, fs.writeFileSync.
  js_unfold. rewrite Hfile. simpl.
  rewrite (RegExp_exec_line K content K_literal).
  unfold RegExpSemantics.execLine.
  destruct (RegExpSemantics.searchLineStart lit true content) as [[i m]|] eqn:Hs;
    [congruence|].
  simpl.
  assert (Htruthy : JsString.truthy
            (content +:+ K +:+ "=" +:+ "$&" +:+ String JsString.LF "") = true).
  { apply truthy_true_iff. intros [_ Habs]%append_eq_nil.
    apply append_eq_nil in Habs as [_ Habs].
    apply append_eq_nil in Habs as [Habs _]. discriminate. }
  rewrite Htruthy. simpl.
  eexists. split; reflexivity.
Qed.

End ReplacementPattern.

Lemma replaceFirst_app_skip (p : string -> bool) (x y : string) (A B : list string) :
  Forall (fun l => p l = false) A -> p y = true ->
  replaceFirst p x (A ++ y :: B) = (A ++ x :: B)%list.
Proof.
  intros HA Hy. induction HA as [|a A Ha _ IH]; cbn [app replaceFirst].
  - now rewrite Hy.
  - now rewrite Ha, IH.
Qed.

Section ReplacementPatternStored.
Context `{Platform} `{!RegExpLaws}.

(** C8. A value that is a replacement pattern. On a base file whose last
    line is finished and that has no line for the key [K]:
    [storeBaseEnvKey K v1] followed by [storeBaseEnvKey K "$&"] leaves the
    line [K=K=v1] where the claim wants [K=$&], and [getKeyValue K] returns
    [K=v1]: the second call takes the branch of [String.prototype.replace],
    in whose replacement text [$&] stands for the matched line.  The same
    value stored by the other branch (no line for [K] yet) is written as it
    is and read back as [$&]. *)
Theorem storeBaseEnvKey_expands_replacement_pattern
    (this : Handler) (K v1 content : string) (w : world) :
  RegExpSemantics.isLiteral K = true ->
  isPlainValue v1 = true ->
  files w !! baseEnvFilePath this = Some content ->
  endsWithTerminator content ->
  List.find (String.prefix (K +:+ "=")) (JsString.regexLines content) = None ->
  (exists w1 w2 content2,
     EnvFilesHandler.storeBaseEnvKey this K v1 w = (Ok tt, w1)
     /\ EnvFilesHandler.storeBaseEnvKey this K "$&" w1 = (Ok tt, w2)
     /\ files w2 = <[baseEnvFilePath this := content2]> (files w)
     /\ JsString.regexLines content2 =
        (removelast (JsString.regexLines content) ++
         [K +:+ "=" +:+ K +:+ "=" +:+ v1; ""])%list
     /\ EnvFilesHandler.getKeyValue this K w2 = (Ok (Some (K +:+ "=" +:+ v1)), w2))
  /\ (exists w2,
        EnvFilesHandler.storeBaseEnvKey this K "$&" w = (Ok tt, w2)
        /\ files w2 =
           <[baseEnvFilePath this :=
               content +:+ K +:+ "=" +:+ "$&" +:+ String JsString.LF ""]> (files w)
        /\ EnvFilesHandler.getKeyValue this K w2 = (Ok (Some "$&"), w2)).
Proof.
  intros HK Hv1 Hfile Hend Hnone.
  pose proof (endsWithTerminator_last content Hend) as Hlast.
  pose proof (proj1 (find_none_Forall _ _) Hnone) as Hall.
  pose proof (Forall_removelast _ _ Hall) as Hfront.
  split.
  - destruct (storeBaseEnvKey_lines this K HK v1 content w Hv1 Hfile)
      as (c1 & w1 & Hrun1 & Hfiles1 & Hlines1 & _).
    unfold upsertLines in Hlines1. rewrite Hnone, Hlast, append_nil_l in Hlines1.
    assert (Hfile1 : files w1 !! baseEnvFilePath this = Some c1).
    { rewrite Hfiles1. apply lookup_insert_eq. }
    assert (Hfind1 : List.find (String.prefix (K +:+ "=")) (JsString.regexLines c1) =
                     Some ((K +:+ "=") +:+ v1)).
    { rewrite Hlines1, (find_app_skip _ _ _ Hfront).
      apply find_cons_true, prefix_append. }
    destruct (storeBaseEnvKey_matched_line this K HK c1 _ w1 Hfile1 Hfind1)
      as (c2 & w2 & Hrun2 & Hfiles2 & Hlines2).
    assert (Hfile2 : files w2 !! baseEnvFilePath this = Some c2).
    { rewrite Hfiles2. apply lookup_insert_eq. }
    rewrite Hlines1 in Hlines2.
    rewrite (replaceFirst_app_skip _ _ _ _ _ Hfront (prefix_append _ _)) in Hlines2.
    exists w1, w2, c2. split; [exact Hrun1|]. split; [exact Hrun2|].
    split; [rewrite Hfiles2, Hfiles1; apply insert_insert_eq|].
    split; [now rewrite Hlines2, !append_assoc|].
    rewrite (getKeyValue_lines this K HK c2 w2 Hfile2), Hlines2.
    rewrite (find_app_skip _ _ _ Hfront), (find_cons_true _ _ _ (prefix_append _ _)).
    now rewrite (entry_value K), append_assoc.
  - destruct (storeBaseEnvKey_appended_pattern this K HK content w Hfile Hnone)
      as (w2 & Hrun & Hfiles).
    exists w2. split; [exact Hrun|]. split; [exact Hfiles|].
    assert (Hfile2 : files w2 !! baseEnvFilePath this =
                     Some (content +:+ K +:+ "=" +:+ "$&" +:+ String JsString.LF "")).
    { rewrite Hfiles. apply lookup_insert_eq. }
    rewrite (getKeyValue_lines this K HK _ w2 Hfile2).
    replace (content +:+ K +:+ "=" +:+ "$&" +:+ String JsString.LF "")
      with ((content +:+ (K +:+ "=") +:+ "$&") +:+ String JsString.LF "")
      by (now rewrite !append_assoc).
    rewrite (regexLines_terminator _ "" JsString.LF eq_refl).
    rewrite (regexLines_append_line content ((K +:+ "=") +:+ "$&")).
    2:{ rewrite forallb_append, (lit_line K HK). reflexivity. }
    rewrite Hlast, append_nil_l, <- app_assoc.
    rewrite (find_app_skip _ _ _ Hfront).
    cbn [app]. rewrite (find_cons_true _ _ _ (prefix_append _ _)).
    now rewrite (entry_value K).
Qed.

End ReplacementPatternStored.

(** ** [CryptoManager] *)

Section Manager.
Context `{Platform} `{CryptoConfig}.

(** What the three layers of key generation return when the random
    source delivers. *)
Lemma generateSecretKey_returns (this : Handler) (w : world) :
  0 <= SECRET_KEY_LENGTH <= 2 ^ 31 - 1 ->
  SECRET_KEY_LENGTH <= Z.of_nat (length (entropy w)) ->
  CryptoManager.generateSecretKey this w =
    (Ok (Buffer_toString_base64 (take (Z.to_nat SECRET_KEY_LENGTH) (entropy w))),
     World (files w) (drop (Z.to_nat SECRET_KEY_LENGTH) (entropy w)) (logged w)
       (calls w ++ [CallRandomBytes SECRET_KEY_LENGTH])).
Proof.
  intros Hrange Hentropy.
  unfold CryptoManager.generateSecretKey, EncryptionHandler.generateSecretKey,
    CryptoUtil.generateSecretKey, crypto.randomBytes, default.
  js_unfold.
  destruct (Z.ltb_spec SECRET_KEY_LENGTH 0); [lia|].
  destruct (Z.ltb_spec (2 ^ 31 - 1) SECRET_KEY_LENGTH); [lia|].
  cbn [orb].
  destruct (Z.ltb_spec (Z.of_nat (length (entropy w))) SECRET_KEY_LENGTH); [lia|].
  reflexivity.
Qed.

(** X8. A random source that cannot deliver the key. The error of
    [crypto.randomBytes] travels up through [CryptoUtil],
    [EncryptionHandler] and the two methods of [CryptoManager], each of
    which logs it once; the file store is not read or written. *)
Theorem generateAndStoreSecretKey_without_entropy
    (this : Handler) (keyName : string) (w : world) :
  0 <= SECRET_KEY_LENGTH <= 2 ^ 31 - 1 ->
  Z.of_nat (length (entropy w)) < SECRET_KEY_LENGTH ->
  CryptoManager.generateAndStoreSecretKey this keyName w =
    (Throw randomBytes_failure,
     withLogged w
       [(ErrorLevel, "[Method: generateKey] Failed to generate key: Error: " +:+
                     message randomBytes_failure);
        (ErrorLevel, "[Method: generateSecretKey] Failed to generate secret key: Error: " +:+
                     message randomBytes_failure);
        (ErrorLevel, "[Method: generateSecretKey] Error: " +:+ message randomBytes_failure);
        (ErrorLevel, "[Method: storeSecretKey] Error: " +:+ message randomBytes_failure)]).
Proof.
  intros Hrange Hentropy.
  unfold CryptoManager.generateAndStoreSecretKey, CryptoManager.generateSecretKey,
    EncryptionHandler.generateSecretKey, CryptoUtil.generateSecretKey,
    crypto.randomBytes, default.
  js_unfold.
  destruct (Z.ltb_spec SECRET_KEY_LENGTH 0); [lia|].
  destruct (Z.ltb_spec (2 ^ 31 - 1) SECRET_KEY_LENGTH); [lia|].
  cbn [orb].
  destruct (Z.ltb_spec (Z.of_nat (length (entropy w))) SECRET_KEY_LENGTH); [|lia].
  cbn [files entropy logged calls JsString.truthy String.eqb negb].
  cbn. rewrite <- !app_assoc. reflexivity.
Qed.

Context `{!RegExpLaws} `{!Base64Laws}.

(** X7. Generating a key and reading it back. For a key name of characters
    that stand for themselves, a random source that holds the bytes of the
    key, and a base file that has a line for the key or is empty or ends
    with a line terminator: [generateAndStoreSecretKey] stores the Base64
    text of the next [SECRET_KEY_LENGTH] random bytes, which [getKeyValue]
    then returns. *)
Theorem generateAndStoreSecretKey_then_getKeyValue
    (this : Handler) (keyName content : string) (w : world) :
  RegExpSemantics.isLiteral keyName = true ->
  0 <= SECRET_KEY_LENGTH <= 2 ^ 31 - 1 ->
  SECRET_KEY_LENGTH <= Z.of_nat (length (entropy w)) ->
  files w !! baseEnvFilePath this = Some content ->
  endsWithTerminator content
  \/ List.find (String.prefix (keyName +:+ "=")) (JsString.regexLines content) <> None ->
  exists w',
    CryptoManager.generateAndStoreSecretKey this keyName w = (Ok tt, w')
    /\ EnvFilesHandler.getKeyValue this keyName w' =
         (Ok (Some (Buffer_toString_base64
                      (take (Z.to_nat SECRET_KEY_LENGTH) (entropy w)))), w')
    /\ entropy w' = drop (Z.to_nat SECRET_KEY_LENGTH) (entropy w).
Proof.
  intros HK Hrange Hentropy Hfile Hcase.
  set (key := Buffer_toString_base64 (take (Z.to_nat SECRET_KEY_LENGTH) (entropy w))).
  set (w1 := World (files w) (drop (Z.to_nat SECRET_KEY_LENGTH) (entropy w)) (logged w)
               (calls w ++ [CallRandomBytes SECRET_KEY_LENGTH])).
  assert (Hplain : isPlainValue key = true)
    by apply isBase64Char_plain, Buffer_base64_alphabet.
  destruct (storeBaseEnvKey_getKeyValue this keyName key content w1 HK Hplain Hfile Hcase)
    as (c1 & w' & Hrun & _ & Hent & Hget).
  exists w'. split; [|split; [exact Hget|exact Hent]].
  unfold CryptoManager.generateAndStoreSecretKey, tryLogRethrow, tryCatch, bind.
  rewrite (generateSecretKey_returns this w Hrange Hentropy).
  fold key. fold w1. now rewrite Hrun.
Qed.

End Manager.

(** ** Random values and keys *)

Section Randomness.
Context `{Platform} `{CryptoConfig}.

(** X20. [generateIvAsBuffer n] for [0 < n <= 2^31 - 1], the random source
    holding [n] bytes: it returns exactly [n] bytes, the next ones of the
    source, which are gone from it afterwards; [generateIvAsBase64 n]
    returns the Base64 text of the same bytes and leaves the same world. *)
Theorem generateIvAsBuffer_length (n : Z) (w : world) :
  0 < n <= 2 ^ 31 - 1 ->
  n <= Z.of_nat (length (entropy w)) ->
  exists (buf : bytes) (w' : world),
    CryptoUtil.generateIvAsBuffer (Some n) w = (Ok buf, w')
    /\ length buf = Z.to_nat n
    /\ entropy w = (buf ++ entropy w')%list
    /\ files w' = files w
    /\ CryptoUtil.generateIvAsBase64 (Some n) w = (Ok (Buffer_toString_base64 buf), w').
Proof.
  intros Hn Hentropy.
  unfold CryptoUtil.generateIvAsBuffer, CryptoUtil.generateIvAsBase64,
    crypto.randomBytes.
  change (default IV_LENGTH (Some n)) with n.
  js_unfold.
  destruct (Z.leb_spec n 0); [lia|].
  destruct (Z.ltb_spec n 0); [lia|].
  destruct (Z.ltb_spec (2 ^ 31 - 1) n); [lia|].
  cbn [orb].
  destruct (Z.ltb_spec (Z.of_nat (length (entropy w))) n); [lia|].
  eexists _, _. split; [reflexivity|]. cbn [entropy files].
  split; [rewrite length_take; lia|].
  split; [now rewrite take_drop|]. split; reflexivity.
Qed.

End Randomness.

Section Authentic.
Context `{Platform} `{CryptoConfig} `{!JsonLaws} `{!CryptoLaws}.

(** An envelope made by [encrypt] has its four fields, none empty. *)
Lemma encrypt_complete (v secretKey : string) (w w' : world) (p : EncryptionParams) :
  CryptoService.encrypt v secretKey w = (Ok p, w') -> complete p.
Proof.
  intros Henc.
  destruct (encrypt_inversion _ _ _ _ _ Henc)
    as (saltBytes & ivBytes & c & derived & Hsb & Hsalt & Hib & Hiv & Hkey & Haes & Hct & Hmac).
  unfold complete. rewrite Hsalt, Hiv, Hct, Hmac.
  repeat split.
  - now apply Buffer_base64_nonempty.
  - now apply Buffer_base64_nonempty.
  - apply Base64_stringify_nonempty. eapply AES_encrypt_nonempty; eassumption.
  - apply Hex_stringify_Hmac_nonempty.
Qed.

(** What [decrypt] does with a complete envelope whose MAC it finds
    right. *)
Lemma decrypt_authentic (text secretKey derived v : string) (d : bytes)
    (p : EncryptionParams) (w0 : world) :
  text <> "" ->
  JSON_parse text = inr (EncryptionParams_toJson p) ->
  complete p ->
  argon2_hash secretKey (CryptoUtil.argon2Options (salt p)) = inr derived ->
  mac p = hmacOf p (Base64_parse derived) ->
  AES_decrypt (Base64_parse (cipherText p)) (Base64_parse derived) (Base64_parse (iv p)) = inr d ->
  Utf8_stringify d = inr v ->
  v <> "" ->
  exists w1, CryptoService.decrypt text secretKey w0 = (Ok v, w1).
Proof.
  intros Hne Hparse Hcomplete Hkey Hmac Hdec Hutf Hv.
  unfold CryptoService.decrypt, bind at 1.
  rewrite (parseEncryptedData_complete text p w0 Hne Hparse Hcomplete).
  destruct p as [s i ct m]; simpl in *.
  unfold CryptoUtil.deriveKeyWithArgon2, CryptoUtil.generateMac, CryptoUtil.verifyMac,
    CryptoUtil.decryptData.
  js_unfold. simpl. rewrite Hkey. simpl.
  unfold hmacOf, macInput in Hmac; simpl in Hmac. rewrite <- Hmac.
  rewrite String.eqb_refl. simpl.
  rewrite Hdec. simpl. rewrite Hutf. simpl.
  apply truthy_true_iff in Hv. rewrite Hv. simpl.
  eexists. reflexivity.
Qed.

(** The serialized envelope of a plaintext that is not empty decrypts,
    under the key it was made with, to that plaintext. *)
Lemma decrypt_serialized (v secretKey : string) (w w' : world) (p : EncryptionParams) :
  v <> "" ->
  CryptoService.encrypt v secretKey w = (Ok p, w') ->
  forall w0 : world, exists w1 : world,
    CryptoService.decrypt (JSON_stringify (EncryptionParams_toJson p)) secretKey w0 =
      (Ok v, w1).
Proof.
  intros Hv Henc w0.
  pose proof (encrypt_complete _ _ _ _ _ Henc) as Hcomplete.
  destruct (encrypt_inversion _ _ _ _ _ Henc)
    as (saltBytes & ivBytes & c & derived & Hsb & Hsalt & Hib & Hiv & Hkey & Haes & Hct & Hmac).
  destruct (AES_decrypt_encrypt _ _ _ _ Haes) as (d & Hdec & Hutf).
  apply (decrypt_authentic _ secretKey derived v d p w0
           (JSON_stringify_nonempty p) (JSON_parse_stringify p) Hcomplete Hkey Hmac);
    [|exact Hutf|exact Hv].
  now rewrite Hct, Base64_parse_stringify.
Qed.

End Authentic.

(** ** The derived key does not depend on the secret key *)

Section AnyKey.
Context `{Platform} `{CryptoConfig} `{!KeyDerivationLaws}.

(** What [deriveKeyWithArgon2] hands on is what [Base64.parse] reads
    before the first [=] of the encoded hash: the text [$argon2id$v]. *)
Lemma derived_key_constant (secretKey derived : string) (options : Argon2Options) :
  argon2_hash secretKey options = inr derived ->
  Base64_parse derived = Base64_parse "$argon2id$v".
Proof.
  intros Hhash. destruct (argon2_hash_encoded _ _ _ Hhash) as [rest ->].
  change ("$argon2id$v=19$" +:+ rest) with ("$argon2id$v" +:+ "=" +:+ ("19$" +:+ rest)).
  apply Base64_parse_padding.
Qed.

Lemma decrypt_key_independent
    (text key1 key2 derived v : string) (p : EncryptionParams) (w w1 : world) :
  JSON_parse text = inr (EncryptionParams_toJson p) ->
  argon2_hash key2 (CryptoUtil.argon2Options (salt p)) = inr derived ->
  CryptoService.decrypt text key1 w = (Ok v, w1) ->
  exists w2,
    CryptoService.decrypt text key2 w = (Ok v, w2)
    /\ files w2 = files w1 /\ entropy w2 = entropy w1 /\ logged w2 = logged w1.
Proof.
  intros Hparse Hkey2.
  unfold CryptoService.decrypt, CryptoUtil.parseEncryptedData, CryptoUtil.validateParsedData,
    CryptoUtil.deriveKeyWithArgon2, CryptoUtil.generateMac, CryptoUtil.verifyMac,
    CryptoUtil.decryptData.
  js_unfold. rewrite Hparse.
  destruct p as [s i c m]. cbn. cbn in Hkey2.
  destruct (JsString.truthy text); cbn; [|discriminate].
  destruct (JsString.truthy s); cbn; [|discriminate].
  destruct (JsString.truthy i); cbn; [|discriminate].
  destruct (JsString.truthy c); cbn; [|discriminate].
  destruct (JsString.truthy m); cbn; [|discriminate].
  rewrite Hkey2. cbn.
  destruct (argon2_hash key1 _) as [e|derived1] eqn:Hkey1; cbn; [discriminate|].
  rewrite (derived_key_constant _ _ _ Hkey1), (derived_key_constant _ _ _ Hkey2).
  destruct (String.eqb _ m); cbn; [|discriminate].
  destruct (AES_decrypt _ _ _) as [e|d]; cbn; [discriminate|].
  destruct (Utf8_stringify d) as [e|v0]; cbn; [discriminate|].
  destruct (JsString.truthy v0); cbn; [|discriminate].
  intros [= <- <-]. eexists. split; [reflexivity|]. repeat split.
Qed.

End AnyKey.

Section AnyKeyRoundTrip.
Context `{Platform} `{CryptoConfig} `{!JsonLaws} `{!CryptoLaws} `{!KeyDerivationLaws}.

(** X18. Decrypting with another key. The key that [deriveKeyWithArgon2]
    returns is the same for every secret key and every salt: it is what
    [Base64.parse] reads of the encoded hash, the text before its first [=].
    So the secret key does not matter to [decrypt]: what it returns under
    one secret key for a text that parses to an envelope of four strings, it
    returns under every other secret key that Argon2 accepts, with the same
    files, random source and log; and the envelope [encrypt] makes of a
    plaintext that is not empty under one secret key is decrypted to that
    plaintext under any other. *)
Theorem decrypt_with_another_key (secretKey otherKey : string) :
  (forall (options options' : Argon2Options) (derived derived' : string),
      argon2_hash secretKey options = inr derived ->
      argon2_hash otherKey options' = inr derived' ->
      Base64_parse derived' = Base64_parse derived)
  /\ (forall (text derived v : string) (p : EncryptionParams) (w w1 : world),
        JSON_parse text = inr (EncryptionParams_toJson p) ->
        argon2_hash otherKey (CryptoUtil.argon2Options (salt p)) = inr derived ->
        CryptoService.decrypt text secretKey w = (Ok v, w1) ->
        exists w2,
          CryptoService.decrypt text otherKey w = (Ok v, w2)
          /\ files w2 = files w1 /\ entropy w2 = entropy w1 /\ logged w2 = logged w1)
  /\ (forall (v derived : string) (p : EncryptionParams) (w w' w0 : world),
        v <> "" ->
        CryptoService.encrypt v secretKey w = (Ok p, w') ->
        argon2_hash otherKey (CryptoUtil.argon2Options (salt p)) = inr derived ->
        exists w1,
          CryptoService.decrypt (JSON_stringify (EncryptionParams_toJson p)) otherKey w0 =
            (Ok v, w1)).
Proof.
  split; [|split].
  - intros options options' derived derived' Hone Htwo.
    now rewrite (derived_key_constant _ _ _ Hone), (derived_key_constant _ _ _ Htwo).
  - intros text derived v p w w1. apply decrypt_key_independent.
  - intros v derived p w w' w0 Hv Henc Hkey.
    destruct (decrypt_serialized v secretKey w w' p Hv Henc w0) as [w1 Hdec].
    destruct (decrypt_key_independent _ _ _ _ _ _ _ _ (JSON_parse_stringify p) Hkey Hdec)
      as (w2 & Hrun & _).
    now exists w2.
Qed.

End AnyKeyRoundTrip.

(** ** Lines of a file *)

Lemma join_cons_cons (x y : string) (l : list string) (sep : string) :
  JsString.join (x :: y :: l) sep = x +:+ sep +:+ JsString.join (y :: l) sep.
Proof. reflexivity. Qed.

Lemma join_split (s : string) (c : ascii) :
  JsString.join (JsString.split s c) (String c "") = s.
Proof.
  unfold JsString.split. induction s as [|a s IH]; [reflexivity|].
  pose proof (splitBy_nonempty (Ascii.eqb c) s) as Hne.
  cbn [JsString.splitBy].
  destruct (JsString.splitBy (Ascii.eqb c) s) as [|hd tl] eqn:Hs; [congruence|].
  destruct (Ascii.eqb_spec c a) as [->|Hca].
  - rewrite join_cons_cons, IH. reflexivity.
  - destruct tl as [|y tl].
    + unfold JsString.join in *. simpl in *. now rewrite IH.
    + rewrite join_cons_cons in *. rewrite append_cons. now rewrite IH.
Qed.

Lemma split_join (ls : list string) :
  ls <> [] -> Forall (fun l => noLineFeed l = true) ls ->
  JsString.split (JsString.join ls (String JsString.LF "")) JsString.LF = ls.
Proof.
  intros Hne Hall. unfold JsString.split.
  induction Hall as [|x ls Hx Hls IH]; [congruence|].
  destruct ls as [|y ls].
  - unfold JsString.join. simpl String.concat. now apply splitBy_piece.
  - rewrite join_cons_cons, append_cons, append_nil_l.
    rewrite splitBy_separator by apply Ascii.eqb_refl.
    rewrite (splitBy_piece _ x Hx), IH by discriminate. reflexivity.
Qed.

Section Lines.
Context `{Platform} `{CryptoConfig}.

(** X4. Reading the lines of the environment file and writing lines to it
    are inverse to each other. Writing back the lines read from a file that
    is not empty leaves the file store as it was; and reading after writing
    lines, none of which contains a line feed and which are not all empty,
    returns those lines. *)
Theorem readEnvFileAsLines_writeEnvFileLines
    (this : Handler) (content : string) (ls : list string) (w : world) :
  (files w !! envFilePath this = Some content -> content <> "" ->
   EncryptionHandler.readEnvFileAsLines this w = (Ok (JsString.split content JsString.LF), w)
   /\ exists w',
        EncryptionHandler.writeEnvFileLines this (JsString.split content JsString.LF) w =
          (Ok tt, w')
        /\ files w' = files w)
  /\ (Forall (fun l => noLineFeed l = true) ls ->
      JsString.join ls (String JsString.LF "") <> "" ->
      exists w1 w2,
        EncryptionHandler.writeEnvFileLines this ls w = (Ok tt, w1)
        /\ EncryptionHandler.readEnvFileAsLines this w1 = (Ok ls, w2)).
Proof.
  split.
  - intros Hfile Hcontent. apply truthy_true_iff in Hcontent.
    unfold EncryptionHandler.readEnvFileAsLines, EncryptionHandler.writeEnvFileLines,
      utilityHelper.writeFile, fs.readFileSync, fs.writeFileSync.
    rewrite join_split, Hcontent. js_unfold. rewrite Hfile. cbn [negb].
    split; [now destruct w|].
    eexists. split; [reflexivity|]. cbn [files]. now apply insert_id.
  - intros Hall Hjoin.
    assert (Hne : ls <> []) by (intros ->; now apply Hjoin).
    apply truthy_true_iff in Hjoin.
    unfold EncryptionHandler.readEnvFileAsLines, EncryptionHandler.writeEnvFileLines,
      utilityHelper.writeFile, fs.readFileSync, fs.writeFileSync.
    rewrite Hjoin. js_unfold. cbn [negb files entropy logged calls].
    eexists _, _. split; [reflexivity|].
    cbn [files]. rewrite lookup_insert_eq. now rewrite (split_join ls Hne Hall).
Qed.

Lemma encryptLines_files (this : Handler) (lines : list string) (w w' : world)
    (o : outcome (list string)) :
  EncryptionHandler.encryptLines this lines w = (o, w') -> files w' = files w.
Proof.
  unfold EncryptionHandler.encryptLines. js_unfold.
  destruct (List.forallb _ lines).
  - cbn. now intros [= _ <-].
  - cbn [files entropy logged calls].
    destruct (EncryptionHandler.encryptLines_for this 0 lines [] [] _)
      as [[[out errs]|e] w1] eqn:Hloop; apply encryptLines_for_files in Hloop.
    + destruct (0 <? length errs)%nat; cbn; intros [= _ <-]; exact Hloop.
    + cbn. intros [= _ <-]. exact Hloop.
Qed.

(** X3. [encryptEnvVariables] writes the whole result or nothing: when it
    throws (the file is missing or blank, the encryption of a line fails,
    nothing is left to write) the file store is what it was. *)
Theorem encryptEnvVariables_failure_writes_nothing
    (this : Handler) (w w' : world) (e : error) :
  EncryptionHandler.encryptEnvVariables this w = (Throw e, w') ->
  files w' = files w.
Proof.
  unfold EncryptionHandler.encryptEnvVariables, EncryptionHandler.readEnvFileAsLines,
    EncryptionHandler.writeEnvFileLines, EncryptionHandler.logEncryptionSuccess,
    utilityHelper.writeFile, fs.readFileSync, fs.writeFileSync.
  unfold tryLogRethrow at 1 2. unfold tryCatch at 1 2. unfold bind at 1 2 3 4.
  destruct (files w !! envFilePath this) as [content|].
  2:{ js_unfold. cbn. now intros [= _ <-]. }
  unfold ret at 1.
  destruct (EncryptionHandler.encryptLines this (JsString.split content JsString.LF) w)
    as [[out|e1] w1] eqn:Hlines; apply encryptLines_files in Hlines.
  - destruct (JsString.truthy (JsString.join out (String JsString.LF ""))); js_unfold; cbn.
    + discriminate.
    + now intros [= _ <-].
  - js_unfold. cbn. now intros [= _ <-].
Qed.

End Lines.

(** ** The file transform, end to end *)

Section Transform.
Context `{Platform} `{CryptoConfig} `{!JsonLaws} `{!CryptoLaws}.

(** One line of a loop that goes through: a malformed line leaves the
    output alone, any other line adds to it what [lineResult] says. *)
Lemma encryptLines_for_step (this : Handler) (index : nat) (line : string)
    (rest out errs : list string) (w w' : world) :
  EncryptionHandler.encryptLines_for this index (line :: rest) [] [] w = (Ok (out, errs), w') ->
  exists (w1 : world) (out' errs' : list string),
    EncryptionHandler.encryptLines_for this (S index) rest [] [] w1 = (Ok (out', errs'), w')
    /\ ((isMalformed line = true /\ out = out')
        \/ (isMalformed line = false
            /\ exists x, out = x :: out' /\ lineResult (secretKey this) line x)).
Proof.
  intros Hrun. cbn [EncryptionHandler.encryptLines_for app] in Hrun.
  assert (Hkeep : forall w0 x,
    isMalformed line = false -> lineResult (secretKey this) line x ->
    EncryptionHandler.encryptLines_for this (S index) rest [x] [] w0 = (Ok (out, errs), w') ->
    exists (w1 : world) (out' errs' : list string),
      EncryptionHandler.encryptLines_for this (S index) rest [] [] w1 = (Ok (out', errs'), w')
      /\ ((isMalformed line = true /\ out = out')
          \/ (isMalformed line = false
              /\ exists x, out = x :: out' /\ lineResult (secretKey this) line x))).
  { intros w0 x Hm Hx. rewrite encryptLines_for_accumulators.
    destruct (EncryptionHandler.encryptLines_for this (S index) rest [] [] w0)
      as [[[o e]|y] w2] eqn:Hrest; [|discriminate].
    intros [= <- <- <-]. exists w0, o, e. split; [exact Hrest|]. right.
    split; [exact Hm|]. now exists x. }
  destruct (String.eqb (JsString.trim line) "") eqn:Hb.
  { refine (Hkeep w "" _ _ Hrun).
    - unfold isMalformed, isBlank. now rewrite Hb.
    - unfold lineResult, isBlank. now rewrite Hb. }
  destruct (JsString.includes (JsString.trim line) "=") eqn:Hinc; cbn [negb] in Hrun.
  2:{ js_unfold. rewrite encryptLines_for_accumulators in Hrun.
      match type of Hrun with
      | context [EncryptionHandler.encryptLines_for this (S index) rest [] [] ?w1] =>
          destruct (EncryptionHandler.encryptLines_for this (S index) rest [] [] w1)
            as [[[o e]|x] w2] eqn:Hrest; [|discriminate];
          injection Hrun as <- <- <-; exists w1, o, e
      end.
      split; [exact Hrest|]. left. split; [|reflexivity].
      unfold isMalformed, isBlank. now rewrite Hb, Hinc. }
  assert (Hnm : isMalformed line = false).
  { unfold isMalformed, isBlank. now rewrite Hb, Hinc. }
  destruct (nth_error (JsString.split (JsString.trim line) "=") 1) as [v|] eqn:Hv.
  2:{ refine (Hkeep w line Hnm _ Hrun).
      unfold lineResult, isBlank, lineValue. rewrite Hb, Hv. reflexivity. }
  destruct (JsString.truthy v) eqn:Htruthy.
  2:{ refine (Hkeep w line Hnm _ Hrun).
      unfold lineResult, isBlank, lineValue. rewrite Hb, Hv. change (default "" (Some v)) with v.
      now rewrite Htruthy. }
  unfold bind in Hrun.
  destruct (CryptoService.encrypt (JsString.trim v) (secretKey this) w)
    as [[r|x] w1] eqn:Henc; [|discriminate].
  refine (Hkeep w1 _ Hnm _ Hrun).
  unfold lineResult, isBlank, lineValue. rewrite Hb, Hv. change (default "" (Some v)) with v.
  rewrite Htruthy. cbn [negb].
  eexists. split; [reflexivity|].
  intros Hvalue. exact (decrypt_serialized _ _ _ _ _ Hvalue Henc).
Qed.

(** The lines a loop that goes through emits are, in order, the
    results of the lines that are not malformed. *)
Lemma encryptLines_for_results (this : Handler) (lines : list string) :
  forall (index : nat) (out errs : list string) (w w' : world),
    EncryptionHandler.encryptLines_for this index lines [] [] w = (Ok (out, errs), w') ->
    Forall2 (lineResult (secretKey this))
      (List.filter (fun l => negb (isMalformed l)) lines) out.
Proof.
  induction lines as [|line rest IH]; intros index out errs w w' Hrun.
  - cbn in Hrun. injection Hrun as <- _ _. constructor.
  - destruct (encryptLines_for_step _ _ _ _ _ _ _ _ Hrun)
      as (w1 & out' & errs' & Hrest & Hcase).
    specialize (IH _ _ _ _ _ Hrest). cbn [List.filter].
    destruct Hcase as [[Hm ->]|(Hm & x & -> & Hx)]; rewrite Hm; cbn [negb].
    + exact IH.
    + now constructor.
Qed.

(** X1. Encrypting a file and reading it back. When [encryptEnvVariables]
    returns, the environment file holds, joined by line feeds and in their
    order, one line for each line of the old content that is not malformed:
    the empty line for a blank line; the line itself, as it was, for a line
    without value; and for a line with a value the key, [=] and a text from
    which [decrypt], under the secret key of the object, returns the trimmed
    value (provided the trimmed value is not empty). The success message
    counts all of these lines. *)
Theorem encryptEnvVariables_then_decrypt
    (this : Handler) (content : string) (w w' : world) :
  files w !! envFilePath this = Some content ->
  EncryptionHandler.encryptEnvVariables this w = (Ok tt, w') ->
  exists out : list string,
    files w' = <[envFilePath this := JsString.join out (String JsString.LF "")]> (files w)
    /\ Forall2 (lineResult (secretKey this))
         (List.filter (fun l => negb (isMalformed l)) (JsString.split content JsString.LF))
         out
    /\ List.last (logged w') (Info, "") =
         (Info, "Encryption complete. Successfully encrypted " +:+
                JsString.ofNat (length out) +:+ " variable(s) in the " +:+
                path_relative process_cwd (envFilePath this) +:+ " file.").
Proof.
  intros Hfile.
  unfold EncryptionHandler.encryptEnvVariables, EncryptionHandler.readEnvFileAsLines,
    EncryptionHandler.writeEnvFileLines, EncryptionHandler.logEncryptionSuccess,
    utilityHelper.writeFile, fs.readFileSync, fs.writeFileSync.
  unfold tryLogRethrow at 1 2. unfold tryCatch at 1 2. unfold bind at 1 2 3 4.
  rewrite Hfile. unfold ret at 1.
  set (lines := JsString.split content JsString.LF).
  destruct (EncryptionHandler.encryptLines this lines w) as [[out|e1] w1] eqn:Hlines.
  2:{ js_unfold. cbn. discriminate. }
  destruct (JsString.truthy (JsString.join out (String JsString.LF ""))) eqn:Hout;
    js_unfold; cbn; [|discriminate].
  intros [= <-]. exists out. cbn [files logged].
  assert (Hfiles : files w1 = files w) by (now apply encryptLines_files in Hlines).
  rewrite Hfiles. split; [reflexivity|]. split; [|now rewrite last_last].
  revert Hlines. unfold EncryptionHandler.encryptLines. js_unfold.
  destruct (List.forallb _ lines); [cbn; discriminate|].
  cbn [files entropy logged calls].
  destruct (EncryptionHandler.encryptLines_for this 0 lines [] [] _)
    as [[[out0 errs]|e] w2] eqn:Hloop; [|cbn; discriminate].
  apply encryptLines_for_results in Hloop.
  destruct (0 <? length errs)%nat; cbn; intros [= <- _]; exact Hloop.
Qed.

End Transform.

Section ManagerEncrypt.
Context `{Platform} `{CryptoConfig}.

(** X6. [CryptoManager.encryptEnvironmentVariables]. With an empty secret
    key it throws [Key not found in .env file] before any file is read: the
    error is logged once by each of the four layers and nothing else
    changes. With a secret key that is not empty it runs
    [encryptEnvVariables] on the file of the environment under that key and
    adds one log entry to a failure. Either way the [envFilePath] and
    [secretKey] an earlier call left in the object play no part. *)
Theorem encryptEnvironmentVariables_sets_path_and_key
    (this : Handler) (env : string) (w : world) :
  CryptoManager.encryptEnvironmentVariables this env "" w =
    (Throw (Error "Key not found in .env file"),
     withLogged w
       [(ErrorLevel, "Key not found in .env file");
        (ErrorLevel, "[Method: getSecretKey] Failed to get secret key: " +:+
                     "Error: Key not found in .env file");
        (ErrorLevel, "[Method: initializeEncryption] Failed to initialize encryption: " +:+
                     "Error: Key not found in .env file");
        (ErrorLevel, "[Method: encryptEnvironmentVariables] " +:+
                     "Failed to encrypt environment variables: " +:+
                     "Error: Key not found in .env file")])
  /\ (forall key : string,
        key <> "" ->
        let this' := {| envDirPath := envDirPath this;
                        envFilePath := path_resolve (envDirPath this) env;
                        secretKey := key;
                        baseEnvFilePath := baseEnvFilePath this |} in
        CryptoManager.encryptEnvironmentVariables this env key w =
          match EncryptionHandler.encryptEnvVariables this' w with
          | (Ok _, w') => (Ok this', w')
          | (Throw e, w') =>
              (Throw e,
               withLogged w'
                 [(ErrorLevel, "[Method: encryptEnvironmentVariables] " +:+
                               "Failed to encrypt environment variables: Error: " +:+
                               message e)])
          end)
  /\ (forall (other : Handler) (key : string),
        envDirPath other = envDirPath this ->
        baseEnvFilePath other = baseEnvFilePath this ->
        CryptoManager.encryptEnvironmentVariables other env key w =
        CryptoManager.encryptEnvironmentVariables this env key w).
Proof.
  split; [|split].
  - unfold CryptoManager.encryptEnvironmentVariables, EncryptionHandler.initializeEncryption,
      EncryptionHandler.getSecretKey.
    js_unfold. cbn. rewrite <- !app_assoc. reflexivity.
  - intros key Hkey this'. apply truthy_true_iff in Hkey.
    unfold CryptoManager.encryptEnvironmentVariables, EncryptionHandler.initializeEncryption,
      EncryptionHandler.getSecretKey.
    js_unfold. rewrite Hkey. cbn [negb]. fold this'.
    replace {| files := files w; entropy := entropy w; logged := logged w; calls := calls w |}
      with w by (now destruct w).
    destruct (EncryptionHandler.encryptEnvVariables this' w) as [[[]|e] w']; reflexivity.
  - intros other key Hdir Hbase.
    unfold CryptoManager.encryptEnvironmentVariables, EncryptionHandler.initializeEncryption,
      EncryptionHandler.getSecretKey.
    now rewrite Hdir, Hbase.
Qed.

End ManagerEncrypt.

(** ** Diagnostics *)

Section Diagnostics.
Context `{Platform} `{CryptoConfig}.

(** A successful [encrypt] writes nothing to the log. *)
Lemma encrypt_logged (v secretKey : string) (w w' : world) (p : EncryptionParams) :
  CryptoService.encrypt v secretKey w = (Ok p, w') -> logged w' = logged w.
Proof.
  unfold CryptoService.encrypt, CryptoUtil.generateSalt, CryptoUtil.generateIvAsBase64,
    CryptoUtil.deriveKeyWithArgon2, CryptoUtil.encryptData, CryptoUtil.generateMac,
    crypto.randomBytes, default.
  js_unfold. intros Henc.
  repeat match type of Henc with
         | context [if ?b then _ else _] => destruct b eqn:?; simpl in Henc; try discriminate
         | context [match ?x with inl _ => _ | inr _ => _ end] =>
             destruct x eqn:?; simpl in Henc; try discriminate
         end.
  injection Henc as _ <-. reflexivity.
Qed.

Lemma encryptLines_for_step_log (this : Handler) (index : nat) (line : string)
    (rest out errs : list string) (w w' : world) :
  EncryptionHandler.encryptLines_for this index (line :: rest) [] [] w = (Ok (out, errs), w') ->
  exists (w1 : world) (out' errs' : list string),
    EncryptionHandler.encryptLines_for this (S index) rest [] [] w1 = (Ok (out', errs'), w')
    /\ ((isMalformed line = true /\ out = out'
         /\ errs = EncryptionHandler.handleInvalidFormatError this index line :: errs'
         /\ logged w1 =
            (logged w ++
             [(ErrorLevel, EncryptionHandler.handleInvalidFormatError this index line)])%list)
        \/ (isMalformed line = false
            /\ (exists x, out = x :: out') /\ errs = errs' /\ logged w1 = logged w)).
Proof.
  intros Hrun. cbn [EncryptionHandler.encryptLines_for app] in Hrun.
  assert (Hkeep : forall w0 x,
    isMalformed line = false -> logged w0 = logged w ->
    EncryptionHandler.encryptLines_for this (S index) rest [x] [] w0 = (Ok (out, errs), w') ->
    exists (w1 : world) (out' errs' : list string),
      EncryptionHandler.encryptLines_for this (S index) rest [] [] w1 = (Ok (out', errs'), w')
      /\ ((isMalformed line = true /\ out = out'
           /\ errs = EncryptionHandler.handleInvalidFormatError this index line :: errs'
           /\ logged w1 =
              (logged w ++
               [(ErrorLevel, EncryptionHandler.handleInvalidFormatError this index line)])%list)
          \/ (isMalformed line = false
              /\ (exists x, out = x :: out') /\ errs = errs' /\ logged w1 = logged w))).
  { intros w0 x Hm Hlog. rewrite encryptLines_for_accumulators.
    destruct (EncryptionHandler.encryptLines_for this (S index) rest [] [] w0)
      as [[[o e]|y] w2] eqn:Hrest; [|discriminate].
    intros [= <- <- <-]. exists w0, o, e. split; [exact Hrest|]. right.
    split; [exact Hm|]. split; [now exists x|]. now split. }
  destruct (String.eqb (JsString.trim line) "") eqn:Hb.
  { refine (Hkeep w "" _ eq_refl Hrun). unfold isMalformed, isBlank. now rewrite Hb. }
  destruct (JsString.includes (JsString.trim line) "=") eqn:Hinc; cbn [negb] in Hrun.
  2:{ js_unfold. rewrite encryptLines_for_accumulators in Hrun.
      match type of Hrun with
      | context [EncryptionHandler.encryptLines_for this (S index) rest [] [] ?w1] =>
          destruct (EncryptionHandler.encryptLines_for this (S index) rest [] [] w1)
            as [[[o e]|x] w2] eqn:Hrest; [|discriminate];
          injection Hrun as <- <- <-; exists w1, o, e
      end.
      split; [exact Hrest|]. left.
      split; [unfold isMalformed, isBlank; now rewrite Hb, Hinc|].
      repeat split. }
  assert (Hnm : isMalformed line = false).
  { unfold isMalformed, isBlank. now rewrite Hb, Hinc. }
  destruct (nth_error (JsString.split (JsString.trim line) "=") 1) as [v|];
    [|exact (Hkeep w line Hnm eq_refl Hrun)].
  destruct (JsString.truthy v); [|exact (Hkeep w line Hnm eq_refl Hrun)].
  unfold bind in Hrun.
  destruct (CryptoService.encrypt (JsString.trim v) (secretKey this) w)
    as [[r|x] w1] eqn:Henc; [|discriminate].
  exact (Hkeep w1 _ Hnm (encrypt_logged _ _ _ _ _ Henc) Hrun).
Qed.

Lemma encryptLines_for_diagnostics (this : Handler) (lines : list string) :
  forall (index : nat) (out errs : list string) (w w' : world),
    EncryptionHandler.encryptLines_for this index lines [] [] w = (Ok (out, errs), w') ->
    errs = diagnostics this index lines
    /\ logged w' = (logged w ++ map (fun d => (ErrorLevel, d)) errs)%list
    /\ (length out + length errs = length lines)%nat.
Proof.
  induction lines as [|line rest IH]; intros index out errs w w' Hrun.
  - cbn in Hrun. injection Hrun as <- <- <-. cbn. now rewrite app_nil_r.
  - destruct (encryptLines_for_step_log _ _ _ _ _ _ _ _ Hrun)
      as (w1 & out' & errs' & Hrest & Hcase).
    destruct (IH _ _ _ _ _ Hrest) as (Herrs & Hlog & Hlen).
    cbn [diagnostics length].
    destruct Hcase as [(Hm & -> & -> & Hlog1)|(Hm & [x ->] & -> & Hlog1)]; rewrite Hm.
    + split; [now rewrite Herrs|]. split.
      * rewrite Hlog, Hlog1, <- app_assoc. reflexivity.
      * cbn [length]. lia.
    + split; [exact Herrs|]. split; [now rewrite Hlog, Hlog1|]. cbn [length]. lia.
Qed.

(** X2. Every line is accounted for. When [encryptLines] returns, each line
    of the input has given either one line of the output or one diagnostic;
    the diagnostics are those of the malformed lines, in order, each with
    its 1-based line number and the raw line; and the log has grown by
    exactly these diagnostics, followed (when there is one) by a single
    report of all of them. *)
Theorem encryptLines_accounts_for_every_line
    (this : Handler) (lines out : list string) (w w' : world) :
  EncryptionHandler.encryptLines this lines w = (Ok out, w') ->
  (length out + length (diagnostics this 0 lines) = length lines)%nat
  /\ logged w' = (logged w ++ diagnosticsLog (diagnostics this 0 lines))%list.
Proof.
  unfold EncryptionHandler.encryptLines. js_unfold.
  destruct (List.forallb _ lines); [cbn; discriminate|].
  cbn [files entropy logged calls].
  replace {| files := files w; entropy := entropy w; logged := logged w; calls := calls w |}
    with w by (now destruct w).
  destruct (EncryptionHandler.encryptLines_for this 0 lines [] [] w)
    as [[[out0 errs]|e] w2] eqn:Hloop; [|cbn; discriminate].
  destruct (encryptLines_for_diagnostics _ _ _ _ _ _ _ Hloop) as (Herrs & Hlog & Hlen).
  rewrite <- Herrs. unfold diagnosticsLog.
  destruct errs as [|d errs]; cbn [Nat.ltb Nat.leb length]; cbn; intros [= <- <-].
  - split; [exact Hlen|]. cbn [logged]. rewrite Hlog. reflexivity.
  - split; [exact Hlen|]. cbn [logged]. rewrite Hlog, <- app_assoc. reflexivity.
Qed.

(** X19. [decrypt] returns only what it has authenticated. When [decrypt]
    returns a plaintext for a text that parses to an envelope of four
    strings, then the four fields are not empty, the stored MAC is the HMAC
    of the first three fields under the key derived from the secret key, the
    plaintext is the decryption of the ciphertext under that key, and it is
    not empty; the trace has grown by the key derivation, the HMAC and the
    decryption, in this order, and nothing else has changed. *)
Theorem decrypt_returns_authenticated_plaintext
    (text secretKey v : string) (p : EncryptionParams) (w w' : world) :
  JSON_parse text = inr (EncryptionParams_toJson p) ->
  CryptoService.decrypt text secretKey w = (Ok v, w') ->
  exists (derived : string) (d : bytes),
    complete p
    /\ argon2_hash secretKey (CryptoUtil.argon2Options (salt p)) = inr derived
    /\ mac p = hmacOf p (Base64_parse derived)
    /\ AES_decrypt (Base64_parse (cipherText p)) (Base64_parse derived)
         (Base64_parse (iv p)) = inr d
    /\ Utf8_stringify d = inr v
    /\ v <> ""
    /\ files w' = files w
    /\ entropy w' = entropy w
    /\ logged w' = logged w
    /\ calls w' = (calls w ++ [CallArgon2 secretKey (Buffer_from_base64 (salt p));
                               CallHmac (macInput p); CallAesDecrypt])%list.
Proof.
  intros Hparse.
  unfold CryptoService.decrypt, CryptoUtil.parseEncryptedData, CryptoUtil.validateParsedData,
    CryptoUtil.deriveKeyWithArgon2, CryptoUtil.generateMac, CryptoUtil.verifyMac,
    CryptoUtil.decryptData.
  js_unfold. rewrite Hparse.
  destruct p as [s i c m]. cbn.
  destruct (JsString.truthy text); cbn; [|discriminate].
  destruct (JsString.truthy s) eqn:Hs; cbn; [|discriminate].
  destruct (JsString.truthy i) eqn:Hi; cbn; [|discriminate].
  destruct (JsString.truthy c) eqn:Hc; cbn; [|discriminate].
  destruct (JsString.truthy m) eqn:Hm; cbn; [|discriminate].
  destruct (argon2_hash secretKey _) as [e|derived] eqn:Hkey; cbn; [discriminate|].
  destruct (String.eqb _ m) eqn:Hmac; cbn; [|discriminate].
  destruct (AES_decrypt _ _ _) as [e|d] eqn:Hdec; cbn; [discriminate|].
  destruct (Utf8_stringify d) as [e|v0] eqn:Hutf; cbn; [discriminate|].
  destruct (JsString.truthy v0) eqn:Hv; cbn; [|discriminate].
  intros [= <- <-].
  exists derived, d. unfold complete. cbn.
  repeat split; try (now apply truthy_true_iff); try assumption.
  - apply String.eqb_eq in Hmac. now rewrite <- Hmac.
  - now rewrite <- !app_assoc.
Qed.

End Diagnostics.


(** ** Random bytes are used once *)

Section Fresh.
Context `{Platform} `{CryptoConfig}.

Lemma encrypt_entropy (v secretKey : string) (w w' : world) (p : EncryptionParams) :
  CryptoService.encrypt v secretKey w = (Ok p, w') ->
  exists saltBytes ivBytes : bytes,
    entropy w = (saltBytes ++ ivBytes ++ entropy w')%list
    /\ length saltBytes = Z.to_nat SALT_LENGTH
    /\ length ivBytes = Z.to_nat IV_LENGTH
    /\ salt p = Buffer_toString_base64 saltBytes
    /\ iv p = Buffer_toString_base64 ivBytes.
Proof.
  unfold CryptoService.encrypt, CryptoUtil.generateSalt, CryptoUtil.generateIvAsBase64,
    CryptoUtil.deriveKeyWithArgon2, CryptoUtil.encryptData, CryptoUtil.generateMac,
    crypto.randomBytes, default.
  js_unfold. intros Henc.
  repeat match type of Henc with
         | context [if ?b then _ else _] => destruct b eqn:?; simpl in Henc; try discriminate
         | context [match ?x with inl _ => _ | inr _ => _ end] =>
             destruct x eqn:?; simpl in Henc; try discriminate
         end.
  injection Henc as <- <-. simpl.
  eexists _, _. split; [|split; [|split; [|split; reflexivity]]].
  - now rewrite !take_drop.
  - rewrite length_take. apply Z.ltb_ge in Heqb1. lia.
  - rewrite length_take, length_drop.
    apply Z.ltb_ge in Heqb4. simpl in Heqb4. rewrite length_drop in Heqb4. lia.
Qed.

(** One line of a loop that goes through, with what it takes from the
    random source. *)
Lemma encryptLines_for_step_draw (this : Handler) (index : nat) (line : string)
    (rest out errs : list string) (w w' : world) :
  EncryptionHandler.encryptLines_for this index (line :: rest) [] [] w = (Ok (out, errs), w') ->
  exists (w1 : world) (out' errs' : list string),
    EncryptionHandler.encryptLines_for this (S index) rest [] [] w1 = (Ok (out', errs'), w')
    /\ ((isMalformed line = true /\ hasValue line = false
         /\ out = out' /\ entropy w1 = entropy w)
        \/ (isMalformed line = false /\ hasValue line = false
            /\ entropy w1 = entropy w /\ exists x, out = x :: out')
        \/ (isMalformed line = false /\ hasValue line = true
            /\ exists (x : string) (d : bytes * bytes),
                 out = x :: out'
                 /\ madeFrom (line, x) d
                 /\ entropy w = (fst d ++ snd d ++ entropy w1)%list)).
Proof.
  intros Hrun. cbn [EncryptionHandler.encryptLines_for app] in Hrun.
  assert (Hkeep : forall x,
    isMalformed line = false -> hasValue line = false ->
    EncryptionHandler.encryptLines_for this (S index) rest [x] [] w = (Ok (out, errs), w') ->
    exists (w1 : world) (out' errs' : list string),
      EncryptionHandler.encryptLines_for this (S index) rest [] [] w1 = (Ok (out', errs'), w')
      /\ ((isMalformed line = true /\ hasValue line = false
           /\ out = out' /\ entropy w1 = entropy w)
          \/ (isMalformed line = false /\ hasValue line = false
              /\ entropy w1 = entropy w /\ exists x, out = x :: out')
          \/ (isMalformed line = false /\ hasValue line = true
              /\ exists (x : string) (d : bytes * bytes),
                   out = x :: out'
                   /\ madeFrom (line, x) d
                   /\ entropy w = (fst d ++ snd d ++ entropy w1)%list))).
  { intros x Hm Hv. rewrite encryptLines_for_accumulators.
    destruct (EncryptionHandler.encryptLines_for this (S index) rest [] [] w)
      as [[[o e]|y] w2] eqn:Hrest; [|discriminate].
    intros [= <- <- <-]. exists w, o, e. split; [exact Hrest|]. right. left.
    split; [exact Hm|]. split; [exact Hv|]. split; [reflexivity|]. now exists x. }
  destruct (String.eqb (JsString.trim line) "") eqn:Hb.
  { refine (Hkeep "" _ _ Hrun).
    - unfold isMalformed, isBlank. now rewrite Hb.
    - apply String.eqb_eq in Hb. unfold hasValue, lineValue. now rewrite Hb. }
  destruct (JsString.includes (JsString.trim line) "=") eqn:Hinc; cbn [negb] in Hrun.
  2:{ js_unfold. rewrite encryptLines_for_accumulators in Hrun.
      match type of Hrun with
      | context [EncryptionHandler.encryptLines_for this (S index) rest [] [] ?w1] =>
          destruct (EncryptionHandler.encryptLines_for this (S index) rest [] [] w1)
            as [[[o e]|x] w2] eqn:Hrest; [|discriminate];
          injection Hrun as <- <- <-; exists w1, o, e
      end.
      split; [exact Hrest|]. left.
      split; [unfold isMalformed, isBlank; now rewrite Hb, Hinc|].
      split; [|split; reflexivity].
      unfold hasValue, lineValue, JsString.split. rewrite splitBy_piece; [reflexivity|].
      clear -Hinc. induction (JsString.trim line) as [|c s IHs]; [reflexivity|].
      cbn [JsString.includes JsString.forallb] in Hinc |- *.
      rewrite Ascii.eqb_sym.
      destruct (Ascii.eqb c "="); [discriminate|]. now apply IHs. }
  assert (Hnm : isMalformed line = false).
  { unfold isMalformed, isBlank. now rewrite Hb, Hinc. }
  destruct (nth_error (JsString.split (JsString.trim line) "=") 1) as [v|] eqn:Hv.
  2:{ refine (Hkeep line Hnm _ Hrun). unfold hasValue, lineValue. now rewrite Hv. }
  destruct (JsString.truthy v) eqn:Htruthy.
  2:{ refine (Hkeep line Hnm _ Hrun). unfold hasValue, lineValue. rewrite Hv.
      change (default "" (Some v)) with v. exact Htruthy. }
  unfold bind in Hrun.
  destruct (CryptoService.encrypt (JsString.trim v) (secretKey this) w)
    as [[r|x] w1] eqn:Henc; [|discriminate].
  rewrite encryptLines_for_accumulators in Hrun.
  destruct (EncryptionHandler.encryptLines_for this (S index) rest [] [] w1)
    as [[[o e]|y] w2] eqn:Hrest; [|discriminate].
  injection Hrun as <- <- <-. exists w1, o, e. split; [exact Hrest|]. right. right.
  split; [exact Hnm|].
  split; [unfold hasValue, lineValue; rewrite Hv; exact Htruthy|].
  destruct (encrypt_entropy _ _ _ _ _ Henc) as (sb & ib & Hent & Hsb & Hib & Hsalt & Hiv).
  eexists _, (sb, ib). split; [reflexivity|]. split; [|exact Hent].
  split; [exact Hsb|]. split; [exact Hib|].
  exists r. split; [reflexivity|]. split; assumption.
Qed.

(** The draws of a loop that goes through: one for each line with a
    value, taken one after the other from the front of the random source. *)
Lemma encryptLines_for_draws (this : Handler) (lines : list string) :
  forall (index : nat) (out errs : list string) (w w' : world),
    EncryptionHandler.encryptLines_for this index lines [] [] w = (Ok (out, errs), w') ->
    exists draws : list (bytes * bytes),
      entropy w = (drawnBytes draws ++ entropy w')%list
      /\ Forall2 madeFrom (encryptedPairs lines out) draws
      /\ length draws = length (List.filter hasValue lines).
Proof.
  induction lines as [|line rest IH]; intros index out errs w w' Hrun.
  - cbn in Hrun. injection Hrun as _ _ <-. exists []. repeat split. constructor.
  - destruct (encryptLines_for_step_draw _ _ _ _ _ _ _ _ Hrun)
      as (w1 & out' & errs' & Hrest & Hcase).
    destruct (IH _ _ _ _ _ Hrest) as (draws & Hent & Hall & Hlen).
    unfold encryptedPairs in *. cbn [List.filter].
    destruct Hcase
      as [(Hm & Hv & -> & Hw)|[(Hm & Hv & Hw & x & ->)|(Hm & Hv & x & d & -> & Hx & Hw)]];
      rewrite Hm, Hv; cbn [negb combine List.filter fst].
    + exists draws. rewrite <- Hw. repeat split; assumption.
    + rewrite Hv. exists draws. rewrite <- Hw. repeat split; assumption.
    + rewrite Hv. exists (d :: draws). split; [|split].
      * unfold drawnBytes in *. cbn [map concat]. rewrite Hw, Hent, <- !app_assoc. reflexivity.
      * now constructor.
      * cbn [length]. now rewrite Hlen.
Qed.

(** X27. Random bytes are used once. When [encryptLines] returns, the bytes
    it has taken from the front of the random source are the draws of the
    lines that have a value, one draw for each such line and in the order of
    the lines: [SALT_LENGTH] bytes, of which the salt of that line's envelope
    is the encoding, followed by [IV_LENGTH] bytes, of which its IV is the
    encoding. The draws lie one after the other in the source and are gone
    from it afterwards, so no byte of the source goes into the salt or IV of
    two lines, or into both the salt and the IV of one. *)
Theorem encryptLines_uses_fresh_randomness
    (this : Handler) (lines out : list string) (w w' : world) :
  EncryptionHandler.encryptLines this lines w = (Ok out, w') ->
  exists draws : list (bytes * bytes),
    entropy w = (drawnBytes draws ++ entropy w')%list
    /\ Forall2 madeFrom (encryptedPairs lines out) draws
    /\ length draws = length (List.filter hasValue lines).
Proof.
  unfold EncryptionHandler.encryptLines. js_unfold.
  destruct (List.forallb _ lines); [cbn; discriminate|].
  cbn [files entropy logged calls].
  replace {| files := files w; entropy := entropy w; logged := logged w; calls := calls w |}
    with w by (now destruct w).
  destruct (EncryptionHandler.encryptLines_for this 0 lines [] [] w)
    as [[[out0 errs]|e] w2] eqn:Hloop; [|cbn; discriminate].
  apply encryptLines_for_draws in Hloop.
  destruct (0 <? length errs)%nat; cbn; intros [= <- <-]; exact Hloop.
Qed.

End Fresh.

(** ** The file transform returns *)


Section Succeeds.
Context `{Platform} `{CryptoConfig}.

(** The libraries do their part: Argon2 derives a key for every salt of
    the configured length, and AES encrypts every text. *)
Hypothesis lengths :
  0 < SALT_LENGTH <= 2 ^ 31 - 1 /\ 0 < IV_LENGTH <= 2 ^ 31 - 1.
Hypothesis argon2_derives : forall (secretKey : string) (saltBytes : bytes),
  length saltBytes = Z.to_nat SALT_LENGTH ->
  exists derived,
    argon2_hash secretKey (CryptoUtil.argon2Options (Buffer_toString_base64 saltBytes)) =
    inr derived.
Hypothesis AES_encrypts : forall (v : string) (key iv : bytes),
  exists c, AES_encrypt v key iv = inr c.




End Succeeds.


(** ** What [parseEncryptedData] lets through, and what [encrypt] calls *)

Section Accepts.
Context `{Platform} `{CryptoConfig}.

(** X29. [parseEncryptedData] returns a value exactly when the text is
    not empty, [JSON.parse] accepts it, and each of [salt], [iv],
    [cipherText] and [mac] is a member with a truthy value; it then
    returns the parsed value itself and leaves the world as it is.
    Nothing else is checked: members that are not strings and further
    members pass. *)
Theorem parseEncryptedData_accepts (text : string) (j : json) (w w' : world) :
  CryptoUtil.parseEncryptedData text w = (Ok j, w') <->
  (text <> ""
   /\ JSON_parse text = inr j
   /\ (forall f, In f requiredFields -> JsValue.truthy (JsValue.getMember j f) = true)
   /\ w' = w).
Proof.
  unfold CryptoUtil.parseEncryptedData, CryptoUtil.validateParsedData. js_unfold.
  split.
  - destruct (JsString.truthy text) eqn:Htext; cbn; [|discriminate].
    destruct (JSON_parse text) as [e|j0] eqn:Hparse; cbn; [discriminate|].
    assert (Hfields :
      negb (JsValue.truthy (JsValue.getMember j0 "salt"))
      || negb (JsValue.truthy (JsValue.getMember j0 "iv"))
      || negb (JsValue.truthy (JsValue.getMember j0 "cipherText"))
      || negb (JsValue.truthy (JsValue.getMember j0 "mac")) = false ->
      forall f, In f requiredFields -> JsValue.truthy (JsValue.getMember j0 f) = true).
    { intros Hall.
      apply orb_false_iff in Hall as [Hall Hm].
      apply orb_false_iff in Hall as [Hall Hc].
      apply orb_false_iff in Hall as [Hs Hi].
      apply negb_false_iff in Hs, Hi, Hc, Hm.
      intros f [<-|[<-|[<-|[<-|[]]]]]; assumption. }
    destruct j0; cbn; try discriminate;
      match goal with
      | |- context [if ?c then _ else _] =>
          destruct c eqn:Hc; cbn; [discriminate|]
      end;
      intros [= <- <-];
      (split; [now apply truthy_true_iff|]); (split; [reflexivity|]);
      (split; [|now destruct w]);
      apply Hfields; exact Hc.
  - intros (Htext & Hparse & Hfields & ->).
    apply truthy_true_iff in Htext. rewrite Htext, Hparse. cbn.
    pose proof (Hfields "salt" ltac:(cbn; auto)) as Hs.
    pose proof (Hfields "iv" ltac:(cbn; auto)) as Hi.
    pose proof (Hfields "cipherText" ltac:(cbn; auto 6)) as Hc.
    pose proof (Hfields "mac" ltac:(cbn; auto 6)) as Hm.
    destruct j; try discriminate Hs; cbn; cbn in Hs, Hi, Hc, Hm;
      rewrite ?Hs, ?Hi, ?Hc, ?Hm; cbn; now destruct w.
Qed.

(** X30. What a successful [encrypt] has called, in order: the random
    source for the salt and for the IV, Argon2 with the secret key and
    that salt, AES, and HMAC over [salt:iv:cipherText] of the envelope it
    returns (the MAC is made of the ciphertext, after encryption).  The
    log and the file store are as they were. *)
Theorem encrypt_trace (v secretKey : string) (w w' : world) (p : EncryptionParams) :
  CryptoService.encrypt v secretKey w = (Ok p, w') ->
  calls w' = (calls w ++
              [CallRandomBytes SALT_LENGTH; CallRandomBytes IV_LENGTH;
               CallArgon2 secretKey (Buffer_from_base64 (salt p));
               CallAesEncrypt; CallHmac (macInput p)])%list
  /\ logged w' = logged w
  /\ files w' = files w.
Proof.
  unfold CryptoService.encrypt, CryptoUtil.generateSalt, CryptoUtil.generateIvAsBase64,
    CryptoUtil.deriveKeyWithArgon2, CryptoUtil.encryptData, CryptoUtil.generateMac,
    crypto.randomBytes, default.
  js_unfold. intros Henc.
  repeat match type of Henc with
         | context [if ?b then _ else _] => destruct b eqn:?; simpl in Henc; try discriminate
         | context [match ?x with inl _ => _ | inr _ => _ end] =>
             destruct x eqn:?; simpl in Henc; try discriminate
         end.
  injection Henc as <- <-. simpl.
  rewrite <- !app_assoc. repeat split.
Qed.

End Accepts.

(** ** The environment *)

(** X25. [loadEnv] accepts exactly the three stages: for [dev], [uat] and
    [prod] it returns the stage, for which [EnvironmentFilePathsMap] then
    has the file [.env.] followed by the stage, and leaves the world as it
    is; for anything else, a missing or empty [ENV] included, it throws and
    logs once. *)
Theorem loadEnv_accepts_the_three_stages (ENV : option string) (w : world) :
  match ENV with
  | Some env =>
      if existsb (String.eqb env) ["dev"; "uat"; "prod"]
      then GlobalEnvConfig.loadEnv ENV w = (Ok env, w)
           /\ EnvironmentFiles.lookup env EnvironmentFiles.EnvironmentFilePathsMap =
              Some (".env." +:+ env)
      else exists e w',
             GlobalEnvConfig.loadEnv ENV w = (Throw e, w')
             /\ message e = "Invalid environment specified: " +:+ env +:+
                            ". Expected one of: dev, uat, prod"
             /\ length (logged w') = S (length (logged w))
  | None =>
      exists e w',
        GlobalEnvConfig.loadEnv ENV w = (Throw e, w')
        /\ message e = "Invalid environment specified: undefined" +:+
                       ". Expected one of: dev, uat, prod"
        /\ length (logged w') = S (length (logged w))
  end.
Proof.
  destruct ENV as [env|].
  - destruct (existsb (String.eqb env) ["dev"; "uat"; "prod"]) eqn:Hin.
    + assert (Hcases : env = "dev" \/ env = "uat" \/ env = "prod").
      { cbn in Hin.
        destruct (String.eqb_spec env "dev"); [now left|].
        destruct (String.eqb_spec env "uat"); [now right; left|].
        destruct (String.eqb_spec env "prod"); [now right; right|discriminate]. }
      destruct Hcases as [->|[->| ->]]; split; try reflexivity; now destruct w.
    + unfold GlobalEnvConfig.loadEnv.
      change EnvironmentFiles.keys with ["dev"; "uat"; "prod"].
      rewrite Hin, orb_true_r. js_unfold.
      eexists _, _. split; [reflexivity|]. split; [reflexivity|].
      cbn [logged]. rewrite length_app. cbn [length]. lia.
  - unfold GlobalEnvConfig.loadEnv. js_unfold.
    eexists _, _. split; [reflexivity|]. split; [reflexivity|].
    cbn [logged]. rewrite length_app. cbn [length]. lia.
Qed.


(** * The test double satisfies the laws *)

Module TestPlatformLaws.
Import TestPlatform.

Lemma hexDecode_byte (b : Byte.byte) (rest : string) :
  hexDecode (String (hexDigit (Byte.to_N b / 16))
               (String (hexDigit (Byte.to_N b mod 16)) rest)) =
  b :: hexDecode rest.
Proof. destruct b; reflexivity. Qed.

Lemma hexDecode_hexEncode (bs : bytes) : hexDecode (hexEncode bs) = bs.
Proof.
  induction bs as [|b bs IH]; [reflexivity|].
  cbn [hexEncode]. now rewrite hexDecode_byte, IH.
Qed.

Lemma hexEncode_nonempty (bs : bytes) : bs <> [] -> hexEncode bs <> "".
Proof. destruct bs; [congruence|discriminate]. Qed.

Lemma xorBits_involutive a k : xorBits k (xorBits k a) = a.
Proof.
  destruct a as (a0 & a1 & a2 & a3 & a4 & a5 & a6 & a7).
  destruct k as (k0 & k1 & k2 & k3 & k4 & k5 & k6 & k7).
  unfold xorBits. now rewrite <- !xorb_assoc, !xorb_nilpotent, !xorb_false_l.
Qed.

Lemma xorByte_involutive (k a : Byte.byte) : xorByte k (xorByte k a) = a.
Proof.
  unfold xorByte. now rewrite Byte.to_bits_of_bits, xorBits_involutive, Byte.of_bits_to_bits.
Qed.

Lemma map_xorByte_involutive (k : Byte.byte) (l : bytes) :
  map (xorByte k) (map (xorByte k) l) = l.
Proof.
  induction l as [|a l IH]; [reflexivity|]. simpl. now rewrite xorByte_involutive, IH.
Qed.

Lemma lex_string (s : string) :
  forall acc rest : string,
    lex (Inside acc) (escape s +:+ String DQUOTE rest) =
    TString (acc +:+ s) :: lex Outside rest.
Proof.
  induction s as [|c s IH]; intros acc rest.
  - rewrite append_nil_l, append_nil_r. reflexivity.
  - cbn [escape].
    replace (acc +:+ String c s) with ((acc +:+ String c "") +:+ s)
      by (now rewrite append_assoc).
    destruct (Ascii.eqb c DQUOTE) eqn:Hq.
    + apply Ascii.eqb_eq in Hq as ->. cbn [orb].
      rewrite !append_cons. cbn. apply IH.
    + destruct (Ascii.eqb c BACKSLASH) eqn:Hb.
      * apply Ascii.eqb_eq in Hb as ->. cbn [orb].
        rewrite !append_cons. cbn. apply IH.
      * cbn [orb]. rewrite append_cons. cbn [lex]. rewrite Hq, Hb. apply IH.
Qed.

Lemma lex_quoteThen (s rest : string) :
  lex Outside (quoteThen s rest) = TString s :: lex Outside rest.
Proof. unfold quoteThen. cbn. apply lex_string. Qed.

Lemma lex_punctuation (r : string) :
  lex Outside (String "{" r) = TLeftBrace :: lex Outside r
  /\ lex Outside (String "}" r) = TRightBrace :: lex Outside r
  /\ lex Outside (String ":" r) = TColon :: lex Outside r
  /\ lex Outside (String "," r) = TComma :: lex Outside r.
Proof. repeat split. Qed.

Lemma jsonLaws : @JsonLaws platform.
Proof.
  split.
  - intros [s i c m].
    cbv [JSON_parse JSON_stringify platform parse stringify EncryptionParams_toJson
         stringMembers stringifyMembers salt iv cipherText mac].
    repeat (rewrite ?lex_quoteThen;
            rewrite ?(proj1 (lex_punctuation _));
            rewrite ?(proj1 (proj2 (lex_punctuation _)));
            rewrite ?(proj1 (proj2 (proj2 (lex_punctuation _))));
            rewrite ?(proj2 (proj2 (proj2 (lex_punctuation _))))).
    reflexivity.
  - intros p. cbn. discriminate.
Qed.

Lemma list_byte_of_string_nonempty (s : string) :
  s <> "" -> String.list_byte_of_string s <> [].
Proof. destruct s; [congruence|discriminate]. Qed.

Lemma cryptoLaws : @CryptoLaws platform.
Proof.
  split; cbn.
  - apply hexEncode_nonempty.
  - apply hexDecode_hexEncode.
  - apply hexEncode_nonempty.
  - intros msg key. apply hexEncode_nonempty, list_byte_of_string_nonempty.
    intros [_ Habs]%append_eq_nil. discriminate.
  - intros v key iv c [= <-]. rewrite map_app. now destruct (map _ (String.list_byte_of_string v)).
  - intros v key iv c [= <-]. unfold decryptBytes. eexists. split; [reflexivity|].
    rewrite map_xorByte_involutive, removelast_last.
    now rewrite String.string_of_list_byte_of_string.
Qed.

Lemma spanLiteral_append (a b : string) :
  JsString.forallb isLiteralCharacter a = true ->
  match b with
  | EmptyString => True
  | String c _ => isLiteralCharacter c = false
  end ->
  spanLiteral (a +:+ b) = (a, b).
Proof.
  intros Ha Hb. induction a as [|c a IH].
  - rewrite append_nil_l. destruct b as [|c b]; [reflexivity|]. simpl. now rewrite Hb.
  - simpl in Ha. apply andb_true_iff in Ha as [Hc Ha].
    rewrite append_cons. simpl. now rewrite Hc, (IH Ha).
Qed.

Lemma regExpLaws : @RegExpLaws platform.
Proof.
  assert (Hlit : forall K, RegExpSemantics.isLiteral K = true ->
                           JsString.forallb isLiteralCharacter (K +:+ "=") = true).
  { intros K HK. rewrite forallb_append. unfold RegExpSemantics.isLiteral in HK.
    unfold isLiteralCharacter at 1. now rewrite HK. }
  split; intros K input HK; cbn [RegExp_exec platform].
  - change ("^" +:+ K +:+ "=.*") with (String "^" (K +:+ "=" +:+ ".*")).
    rewrite <- append_assoc. unfold exec.
    now rewrite (spanLiteral_append (K +:+ "=") ".*" (Hlit K HK) eq_refl).
  - change ("^" +:+ K +:+ "=(.*)$") with (String "^" (K +:+ "=" +:+ "(.*)$")).
    rewrite <- append_assoc. unfold exec.
    now rewrite (spanLiteral_append (K +:+ "=") "(.*)$" (Hlit K HK) eq_refl).
Qed.

End TestPlatformLaws.


(** * The theorems at concrete inputs *)

Module Examples.
Import TestPlatform TestPlatformLaws.
#[local] Existing Instances platform config.

Lemma decrypt_encrypt_roundtrip_witness :
  "hunter2" <> ""
  /\ exists p w',
       CryptoService.encrypt "hunter2" "s3cret" world0 = (Ok p, w')
       /\ exists w1,
            CryptoService.decrypt
              (JSON_stringify (EncryptionParams_toJson p)) "s3cret" world0 =
            (Ok "hunter2", w1).
Proof.
  assert (Hne : "hunter2" <> "") by discriminate.
  split; [exact Hne|].
  eexists _, _. split; [vm_compute; reflexivity|].
  eapply (@decrypt_encrypt_roundtrip platform config jsonLaws cryptoLaws
            "hunter2" "s3cret" world0 _ _ Hne).
  vm_compute; reflexivity.
Defined.

(** C1, as stated, fails on the empty plaintext. *)
Lemma roundtrip_fails_on_empty_plaintext :
  exists p w' w1,
    CryptoService.encrypt "" "s3cret" world0 = (Ok p, w')
    /\ CryptoService.decrypt
         (JSON_stringify (EncryptionParams_toJson p)) "s3cret" world0 =
       (Throw (Error "Decryption failed. The result is empty or malformed."), w1).
Proof.
  eexists _, _, _. split; vm_compute; reflexivity.
Qed.


Lemma decrypt_detects_tampering_witness :
  exists derived w',
    JSON_stringify (EncryptionParams_toJson tamperedEnvelope) <> ""
    /\ complete tamperedEnvelope
    /\ argon2_hash "s3cret" (CryptoUtil.argon2Options (salt tamperedEnvelope)) = inr derived
    /\ macDisagrees (Base64_parse derived) tamperedEnvelope
    /\ CryptoService.decrypt (JSON_stringify (EncryptionParams_toJson tamperedEnvelope))
         "s3cret" world0 = (Throw integrityError, w').
Proof.
  assert (Htext : JSON_stringify (EncryptionParams_toJson tamperedEnvelope) <> "")
    by discriminate.
  assert (Hcomplete : complete tamperedEnvelope) by (repeat split; discriminate).
  pose (derived := "$argon2id$v=19$" +:+ hexEncode (hexDecode (salt tamperedEnvelope)) +:+
                   "$" +:+ hexEncode (hexDecode (salt tamperedEnvelope) ++
                                      String.list_byte_of_string "s3cret")).
  assert (Hderive : argon2_hash "s3cret" (CryptoUtil.argon2Options (salt tamperedEnvelope)) =
                    inr derived) by (vm_compute; reflexivity).
  assert (Hmac : macDisagrees (Base64_parse derived) tamperedEnvelope).
  { apply macChanged with (original := sampleEnvelope);
      [vm_compute; reflexivity|reflexivity|reflexivity|reflexivity|].
    exists "", "7"%char, "f"%char.
    eexists. split; [discriminate|]. split; vm_compute; reflexivity. }
  destruct (decrypt_detects_tampering _ "s3cret" derived tamperedEnvelope world0
              Htext (JSON_parse_stringify (JsonLaws := jsonLaws) tamperedEnvelope)
              Hcomplete Hderive Hmac)
    as (w' & Hrun & _).
  exists derived, w'. repeat split; assumption || apply Hcomplete.
Defined.

Lemma decrypt_rejects_malformed_envelope_witness :
  malformedEnvelope "not an envelope"
  /\ exists e w',
       CryptoService.decrypt "not an envelope" "s3cret" world0 = (Throw e, w')
       /\ calls w' = [].
Proof.
  assert (Hbad : malformedEnvelope "not an envelope").
  { right; left. eexists. vm_compute; reflexivity. }
  split; [exact Hbad|].
  destruct (decrypt_rejects_malformed_envelope "not an envelope" "s3cret" world0 Hbad)
    as (e & w' & _ & Hrun & (_ & _ & Hcalls) & _).
  exists e, w'. split; [exact Hrun|exact Hcalls].
Defined.

Lemma encryptEnvVariables_rejects_blank_file_witness :
  exists w',
    EncryptionHandler.encryptEnvVariables handler
      (worldWith (envFilePath handler) (lines ["  "; ""; " "])) =
    (Throw emptyFileError, w')
    /\ files w' = {[ envFilePath handler := lines ["  "; ""; " "] ]}.
Proof.
  destruct (encryptEnvVariables_rejects_blank_file handler (lines ["  "; ""; " "])
              (worldWith (envFilePath handler) (lines ["  "; ""; " "])))
    as (w' & Hrun & Hfiles & _).
  - vm_compute; reflexivity.
  - apply (proj1 (forallb_forall isBlank _)). vm_compute; reflexivity.
  - exists w'. split; [exact Hrun|exact Hfiles].
Defined.

Lemma encryptEnvVariables_fails_when_nothing_survives_witness :
  exists w',
    EncryptionHandler.encryptEnvVariables handler
      (worldWith (envFilePath handler) (lines ["# credentials"; ""])) =
    (Throw noContentError, w')
    /\ files w' = {[ envFilePath handler := lines ["# credentials"; ""] ]}.
Proof.
  destruct (encryptEnvVariables_fails_when_nothing_survives handler
              (lines ["# credentials"; ""])
              (worldWith (envFilePath handler) (lines ["# credentials"; ""])))
    as (w' & Hrun & Hfiles & _).
  - vm_compute; reflexivity.
  - exists "# credentials". split; [left|]; vm_compute; reflexivity.
  - intros line [<-|[<-|[]]]; [right|left]; vm_compute; reflexivity.
  - vm_compute. apply le_n.
  - exists w'. split; [exact Hrun|exact Hfiles].
Defined.

Lemma malformed_line_is_reported_and_skipped_witness :
  isMalformed "badline" = true
  /\ exists out w',
       EncryptionHandler.encryptLines handler ["A=1"; ""; "B=2"; "badline"]
         (worldWith (envFilePath handler) (lines ["A=1"; ""; "B=2"; "badline"])) =
       (Ok out, w')
       /\ length out = 3%nat
       /\ nth_error out 1 = Some ""
       /\ In (ErrorLevel,
              "Line 4 doesn't contain any variables or has invalid format: badline")
            (logged w').
Proof.
  assert (Hbad : isMalformed "badline" = true) by (vm_compute; reflexivity).
  split; [exact Hbad|].
  eexists _, _. split.
  - refine (proj1 (malformed_line_is_reported_and_skipped handler
                     (lines ["A=1"; ""; "B=2"; "badline"]) ["A=1"; ""; "B=2"] []
                     "badline" _ _ _ _ _ _ _ _ _ Hbad _ _));
      vm_compute; reflexivity.
  - split; [vm_compute; reflexivity|]. split; [vm_compute; reflexivity|].
    vm_compute. left. reflexivity.
Defined.

Lemma storeBaseEnvKey_upsert_witness :
  exists w1 w2 content2,
    EnvFilesHandler.storeBaseEnvKey handler "UAT_SECRET_KEY" "b2xkIGtleQ==" 
      (worldWith (baseEnvFilePath handler) (lines ["DEV_SECRET_KEY=ZGV2"; ""])) = (Ok tt, w1)
    /\ EnvFilesHandler.storeBaseEnvKey handler "UAT_SECRET_KEY" "bmV3IGtleQ==" w1 = (Ok tt, w2)
    /\ files w2 !! baseEnvFilePath handler = Some content2
    /\ count_occ string_dec (JsString.regexLines content2)
         "UAT_SECRET_KEY=bmV3IGtleQ==" = 1%nat
    /\ EnvFilesHandler.getKeyValue handler "UAT_SECRET_KEY" w2 = (Ok (Some "bmV3IGtleQ=="), w2).
Proof.
  destruct (@storeBaseEnvKey_upsert platform regExpLaws handler "UAT_SECRET_KEY"
              "b2xkIGtleQ==" "bmV3IGtleQ==" (lines ["DEV_SECRET_KEY=ZGV2"; ""])
              (worldWith (baseEnvFilePath handler) (lines ["DEV_SECRET_KEY=ZGV2"; ""])))
    as [(c1 & w1 & Hrun1 & _ & _ & c2 & w2 & Hrun2 & Hfiles2 & Hcount & Hget) _].
  - vm_compute; reflexivity.
  - vm_compute; reflexivity.
  - vm_compute; reflexivity.
  - vm_compute; reflexivity.
  - vm_compute. apply le_0_n.
  - exists w1, w2, c2. repeat split; try assumption.
    rewrite Hfiles2. apply lookup_insert_eq.
Defined.

Lemma storeBaseEnvKey_expands_replacement_pattern_witness :
  exists w1 w2 content2,
    EnvFilesHandler.storeBaseEnvKey handler "K" "v1"
      (worldWith (baseEnvFilePath handler) "") = (Ok tt, w1)
    /\ EnvFilesHandler.storeBaseEnvKey handler "K" "$&" w1 = (Ok tt, w2)
    /\ files w2 !! baseEnvFilePath handler = Some content2
    /\ JsString.regexLines content2 = ["K=K=v1"; ""]
    /\ EnvFilesHandler.getKeyValue handler "K" w2 = (Ok (Some "K=v1"), w2)
    /\ exists w3,
         EnvFilesHandler.storeBaseEnvKey handler "K" "$&"
           (worldWith (baseEnvFilePath handler) "") = (Ok tt, w3)
         /\ files w3 !! baseEnvFilePath handler = Some (lines ["K=$&"; ""])
         /\ EnvFilesHandler.getKeyValue handler "K" w3 = (Ok (Some "$&"), w3).
Proof.
  destruct (@storeBaseEnvKey_expands_replacement_pattern platform regExpLaws handler
              "K" "v1" "" (worldWith (baseEnvFilePath handler) ""))
    as [(w1 & w2 & c2 & Hrun1 & Hrun2 & Hfiles2 & Hlines2 & Hget2)
        (w3 & Hrun3 & Hfiles3 & Hget3)].
  - vm_compute; reflexivity.
  - vm_compute; reflexivity.
  - vm_compute; reflexivity.
  - now left.
  - vm_compute; reflexivity.
  - exists w1, w2, c2. split; [exact Hrun1|]. split; [exact Hrun2|].
    split; [rewrite Hfiles2; apply lookup_insert_eq|].
    split; [exact Hlines2|]. split; [exact Hget2|].
    exists w3. split; [exact Hrun3|].
    split; [rewrite Hfiles3; apply lookup_insert_eq|exact Hget3].
Defined.

End Examples.

(** * The test double satisfies the further laws *)

Module TestRuntimeLaws.
Import TestPlatform.

Lemma hexEncode_alphabet (bs : bytes) :
  JsString.forallb isBase64Char (hexEncode bs) = true.
Proof.
  induction bs as [|b bs IH]; [reflexivity|].
  cbn [hexEncode JsString.forallb]. rewrite IH.
  destruct b; reflexivity.
Qed.

Lemma base64Laws : @Base64Laws platform.
Proof. split. exact hexEncode_alphabet. Qed.

Lemma hexDecode_padding (b a : string) :
  hexDecode (a +:+ "=" +:+ b) = hexDecode a
  /\ forall h : ascii, hexDecode (String h a +:+ "=" +:+ b) = hexDecode (String h a).
Proof.
  induction a as [|c a [IHa IHc]].
  - rewrite append_nil_l. change ("=" +:+ b) with (String "=" b). split.
    + now destruct b.
    + intros h. rewrite append_cons, append_nil_l. change ("=" +:+ b) with (String "=" b).
      cbn [hexDecode]. now destruct (hexValue h).
  - split; [apply IHc|].
    intros h.
    change (String h (String c a) +:+ "=" +:+ b)
      with (String h (String c (a +:+ "=" +:+ b))).
    cbn [hexDecode].
    destruct (hexValue h) as [hv|]; [|reflexivity].
    destruct (hexValue c) as [lv|]; [|reflexivity].
    destruct (Byte.of_N (16 * hv + lv)); [|reflexivity].
    now rewrite IHa.
Qed.

Lemma keyDerivationLaws : @KeyDerivationLaws platform.
Proof.
  split.
  - intros secretKey options encoded. cbn [argon2_hash platform]. unfold hash.
    destruct (length (argon2Salt options) <? 8)%nat; [discriminate|].
    intros [= <-]. eexists. reflexivity.
  - intros a b. exact (proj1 (hexDecode_padding b a)).
Qed.

End TestRuntimeLaws.

(** * More theorems at concrete inputs *)

Module MoreExamples.
Import TestPlatform TestPlatformLaws TestRuntime TestRuntimeLaws.
#[local] Existing Instances platform config webCrypto.

Lemma createRandomString_length_witness :
  exists s w',
    UtilityHelper.createRandomString 5 world0 = (Ok s, w')
    /\ String.length s = 5%nat
    /\ length (entropy w') = 61%nat
    /\ UtilityHelper.createRandomString 0 world0 =
         (Throw (Error "Length must be a positive integer."), world0)
    /\ exists e w2, UtilityHelper.createRandomString 131073 world0 = (Throw e, w2).
Proof.
  destruct (createRandomString_length 5 world0) as (Hok & _ & _).
  destruct Hok as (s & Hrun & _ & Hlen & _); [lia|vm_compute; discriminate|].
  destruct (createRandomString_length 0 world0) as (_ & Hzero & _).
  destruct (createRandomString_length 131073 world0) as (_ & _ & Hbig).
  eexists s, _. split; [exact Hrun|]. split; [exact Hlen|].
  split; [vm_compute; reflexivity|].
  split; [apply Hzero; lia|].
  eexists _, _. apply Hbig. lia.
Defined.

Lemma readFile_missing_file_witness :
  exists w',
    UtilityHelper.readFile "/work/notes.txt" world0 =
      (Throw (Error "File not found: /work/notes.txt"), w')
    /\ files w' = files world0.
Proof.
  eexists. split.
  - apply (readFile_missing_file "/work/notes.txt" world0). vm_compute; reflexivity.
  - reflexivity.
Defined.

Lemma getKeyValue_returns_stored_value_witness :
  exists w',
    EnvFilesHandler.storeBaseEnvKey handler "UAT_SECRET_KEY" "bmV3IGtleQ=="
      (worldWith (baseEnvFilePath handler) (lines ["DEV_SECRET_KEY=ZGV2"; ""])) = (Ok tt, w')
    /\ EnvFilesHandler.getKeyValue handler "UAT_SECRET_KEY" w' = (Ok (Some "bmV3IGtleQ=="), w').
Proof.
  apply (@getKeyValue_returns_stored_value platform regExpLaws handler "UAT_SECRET_KEY"
           "bmV3IGtleQ==" (lines ["DEV_SECRET_KEY=ZGV2"; ""])).
  - vm_compute; reflexivity.
  - vm_compute; reflexivity.
  - vm_compute; reflexivity.
  - left. right. exists "DEV_SECRET_KEY=ZGV2", JsString.LF.
    split; vm_compute; reflexivity.
Defined.

Lemma storeBaseEnvKey_keeps_other_keys_witness :
  exists w',
    EnvFilesHandler.getKeyValue handler "DEV_SECRET_KEY"
      (worldWith (baseEnvFilePath handler) (lines ["DEV_SECRET_KEY=ZGV2"; ""])) =
      (Ok (Some "ZGV2"),
       worldWith (baseEnvFilePath handler) (lines ["DEV_SECRET_KEY=ZGV2"; ""]))
    /\ EnvFilesHandler.storeBaseEnvKey handler "UAT_SECRET_KEY" "bmV3IGtleQ=="
         (worldWith (baseEnvFilePath handler) (lines ["DEV_SECRET_KEY=ZGV2"; ""])) = (Ok tt, w')
    /\ EnvFilesHandler.getKeyValue handler "DEV_SECRET_KEY" w' = (Ok (Some "ZGV2"), w').
Proof.
  destruct (@storeBaseEnvKey_keeps_other_keys platform regExpLaws handler
              "UAT_SECRET_KEY" "DEV_SECRET_KEY" "bmV3IGtleQ=="
              (lines ["DEV_SECRET_KEY=ZGV2"; ""])
              (worldWith (baseEnvFilePath handler) (lines ["DEV_SECRET_KEY=ZGV2"; ""])))
    as (r & w' & Hbefore & Hrun & Hafter).
  - vm_compute; reflexivity.
  - vm_compute; reflexivity.
  - vm_compute; reflexivity.
  - vm_compute; reflexivity.
  - discriminate.
  - vm_compute; reflexivity.
  - vm_compute; reflexivity.
  - left. right. exists "DEV_SECRET_KEY=ZGV2", JsString.LF.
    split; vm_compute; reflexivity.
  - assert (Hr : r = Some "ZGV2").
    { assert (Hcomputed :
        EnvFilesHandler.getKeyValue handler "DEV_SECRET_KEY"
          (worldWith (baseEnvFilePath handler) (lines ["DEV_SECRET_KEY=ZGV2"; ""])) =
        (Ok (Some "ZGV2"),
         worldWith (baseEnvFilePath handler) (lines ["DEV_SECRET_KEY=ZGV2"; ""])))
        by (vm_compute; reflexivity).
      rewrite Hcomputed in Hbefore. now injection Hbefore as <-. }
    subst r. exists w'. repeat split; assumption.
Defined.

Lemma storeBaseEnvKey_glues_entry_to_unfinished_line_witness :
  exists w',
    EnvFilesHandler.storeBaseEnvKey handler "UAT_SECRET_KEY" "bmV3IGtleQ=="
      (worldWith (baseEnvFilePath handler) "DEV_SECRET_KEY=ZGV2") = (Ok tt, w')
    /\ files w' !! baseEnvFilePath handler =
         Some (lines ["DEV_SECRET_KEY=ZGV2UAT_SECRET_KEY=bmV3IGtleQ=="; ""])
    /\ EnvFilesHandler.getKeyValue handler "UAT_SECRET_KEY" w' = (Ok None, w')
    /\ EnvFilesHandler.getKeyValue handler "DEV_SECRET_KEY" w' =
         (Ok (Some "ZGV2UAT_SECRET_KEY=bmV3IGtleQ=="), w').
Proof.
  destruct (@storeBaseEnvKey_glues_entry_to_unfinished_line platform regExpLaws handler
              "UAT_SECRET_KEY" "bmV3IGtleQ==" "DEV_SECRET_KEY=ZGV2"
              (worldWith (baseEnvFilePath handler) "DEV_SECRET_KEY=ZGV2"))
    as (w' & Hrun & Hfiles & Hget & Hother).
  - vm_compute; reflexivity.
  - vm_compute; reflexivity.
  - vm_compute; reflexivity.
  - vm_compute; reflexivity.
  - vm_compute; reflexivity.
  - vm_compute; discriminate.
  - exists w'. split; [exact Hrun|]. split; [rewrite Hfiles; apply lookup_insert_eq|].
    split; [exact Hget|].
    refine (proj2 (Hother "DEV_SECRET_KEY" "ZGV2" _ _ _)); vm_compute; reflexivity.
Defined.

Lemma generateAndStoreSecretKey_without_entropy_witness :
  exists w',
    CryptoManager.generateAndStoreSecretKey handler "UAT_SECRET_KEY"
      {| files := {[ baseEnvFilePath handler := "" ]}; entropy := [Byte.x00];
         logged := []; calls := [] |} =
    (Throw randomBytes_failure, w')
    /\ length (logged w') = 4%nat
    /\ files w' = {[ baseEnvFilePath handler := "" ]}.
Proof.
  eexists. split.
  - apply (generateAndStoreSecretKey_without_entropy handler "UAT_SECRET_KEY").
    + vm_compute. split; discriminate.
    + vm_compute; reflexivity.
  - split; reflexivity.
Defined.

Lemma generateAndStoreSecretKey_then_getKeyValue_witness :
  exists w',
    CryptoManager.generateAndStoreSecretKey handler "UAT_SECRET_KEY"
      (worldWith (baseEnvFilePath handler) "") = (Ok tt, w')
    /\ EnvFilesHandler.getKeyValue handler "UAT_SECRET_KEY" w' =
         (Ok (Some (hexEncode (repeat Byte.x3a 16 ++ repeat Byte.xc5 16))), w').
Proof.
  destruct (@generateAndStoreSecretKey_then_getKeyValue platform config regExpLaws base64Laws
              handler "UAT_SECRET_KEY" "" (worldWith (baseEnvFilePath handler) ""))
    as (w' & Hrun & Hget & _).
  - vm_compute; reflexivity.
  - vm_compute. split; discriminate.
  - vm_compute; discriminate.
  - vm_compute; reflexivity.
  - left. now left.
  - exists w'. split; [exact Hrun|exact Hget].
Defined.

Lemma generateIvAsBuffer_length_witness :
  exists buf w',
    CryptoUtil.generateIvAsBuffer (Some 12) world0 = (Ok buf, w')
    /\ length buf = 12%nat
    /\ CryptoUtil.generateIvAsBase64 (Some 12) world0 = (Ok (hexEncode buf), w').
Proof.
  destruct (generateIvAsBuffer_length 12 world0) as (buf & w' & Hrun & Hlen & _ & _ & Htext).
  - lia.
  - vm_compute; discriminate.
  - exists buf, w'. split; [exact Hrun|]. split; [exact Hlen|exact Htext].
Defined.

Lemma decrypt_with_another_key_witness :
  "hunter2" <> ""
  /\ (exists w', CryptoService.encrypt "hunter2" "s3cret" world0 = (Ok sampleEnvelope, w'))
  /\ exists w1,
       CryptoService.decrypt (JSON_stringify (EncryptionParams_toJson sampleEnvelope))
         "guess" world0 = (Ok "hunter2", w1).
Proof.
  assert (Hne : "hunter2" <> "") by discriminate.
  assert (Henc : exists w', CryptoService.encrypt "hunter2" "s3cret" world0 =
                            (Ok sampleEnvelope, w'))
    by (eexists; vm_compute; reflexivity).
  split; [exact Hne|]. split; [exact Henc|].
  destruct Henc as [w' Henc].
  destruct (@decrypt_with_another_key platform config jsonLaws cryptoLaws
              keyDerivationLaws "s3cret" "guess") as (_ & _ & Hround).
  eapply (Hround "hunter2" _ sampleEnvelope world0 w' world0 Hne Henc).
  vm_compute; reflexivity.
Defined.

Lemma readEnvFileAsLines_writeEnvFileLines_witness :
  exists w1 w2,
    EncryptionHandler.writeEnvFileLines handler ["A=1"; ""; "B=2"] world0 = (Ok tt, w1)
    /\ EncryptionHandler.readEnvFileAsLines handler w1 = (Ok ["A=1"; ""; "B=2"], w2)
    /\ exists w3,
         EncryptionHandler.writeEnvFileLines handler ["A=1"; ""; "B=2"] w1 = (Ok tt, w3)
         /\ files w3 = files w1.
Proof.
  destruct (readEnvFileAsLines_writeEnvFileLines handler "" ["A=1"; ""; "B=2"] world0)
    as [_ Hwr].
  destruct Hwr as (w1 & w2 & Hwrite & Hread);
    [repeat constructor|vm_compute; discriminate|].
  assert (Hfile : files w1 !! envFilePath handler = Some (lines ["A=1"; ""; "B=2"])).
  { revert Hwrite. vm_compute. intros [= <-]. reflexivity. }
  destruct (readEnvFileAsLines_writeEnvFileLines handler (lines ["A=1"; ""; "B=2"]) [] w1)
    as [Hrw _].
  destruct (Hrw Hfile) as (_ & w3 & Hback & Hsame); [vm_compute; discriminate|].
  exists w1, w2. split; [exact Hwrite|]. split; [exact Hread|].
  exists w3. split; [|exact Hsame].
  exact Hback.
Defined.

Lemma encryptEnvVariables_failure_writes_nothing_witness :
  exists e w',
    EncryptionHandler.encryptEnvVariables handler
      {| files := {[ envFilePath handler := lines ["A=1"; "B=2"; "C=3"] ]};
         entropy := entropy world0; logged := []; calls := [] |} = (Throw e, w')
    /\ files w' = {[ envFilePath handler := lines ["A=1"; "B=2"; "C=3"] ]}.
Proof.
  assert (Hrun : exists e w',
    EncryptionHandler.encryptEnvVariables handler
      {| files := {[ envFilePath handler := lines ["A=1"; "B=2"; "C=3"] ]};
         entropy := entropy world0; logged := []; calls := [] |} = (Throw e, w'))
    by (eexists _, _; vm_compute; reflexivity).
  destruct Hrun as (e & w' & Hrun).
  exists e, w'. split; [exact Hrun|].
  exact (encryptEnvVariables_failure_writes_nothing handler _ w' e Hrun).
Defined.

Lemma encryptEnvVariables_then_decrypt_witness :
  exists w' out,
    EncryptionHandler.encryptEnvVariables handler
      (worldWith (envFilePath handler) (lines ["A=1"; ""; " B = two "; "bad"; "C="])) =
      (Ok tt, w')
    /\ files w' !! envFilePath handler = Some (JsString.join out (String JsString.LF ""))
    /\ Forall2 (lineResult "s3cret") ["A=1"; ""; " B = two "; "C="] out.
Proof.
  assert (Hrun : exists w',
    EncryptionHandler.encryptEnvVariables handler
      (worldWith (envFilePath handler) (lines ["A=1"; ""; " B = two "; "bad"; "C="])) =
      (Ok tt, w'))
    by (eexists; vm_compute; reflexivity).
  destruct Hrun as (w' & Hrun).
  assert (Hfile :
    files (worldWith (envFilePath handler) (lines ["A=1"; ""; " B = two "; "bad"; "C="]))
      !! envFilePath handler = Some (lines ["A=1"; ""; " B = two "; "bad"; "C="]))
    by (vm_compute; reflexivity).
  destruct (@encryptEnvVariables_then_decrypt platform config jsonLaws cryptoLaws handler
              (lines ["A=1"; ""; " B = two "; "bad"; "C="]) _ w' Hfile Hrun)
    as (out & Hfiles & Hresults & _).
  exists w', out. split; [exact Hrun|].
  split; [rewrite Hfiles; apply lookup_insert_eq|exact Hresults].
Defined.

Lemma encryptEnvironmentVariables_sets_path_and_key_witness :
  exists w1 h w2,
    CryptoManager.encryptEnvironmentVariables handler ".env.uat" ""
      (worldWith "/work/envs/.env.uat" "A=1") =
      (Throw (Error "Key not found in .env file"), w1)
    /\ files w1 = {[ "/work/envs/.env.uat" := "A=1" ]}
    /\ CryptoManager.encryptEnvironmentVariables handler ".env.uat" "s3cret"
         (worldWith "/work/envs/.env.uat" "A=1") = (Ok h, w2)
    /\ secretKey h = "s3cret".
Proof.
  destruct (encryptEnvironmentVariables_sets_path_and_key handler ".env.uat"
              (worldWith "/work/envs/.env.uat" "A=1")) as (Hempty & Hkey & _).
  specialize (Hkey "s3cret" ltac:(discriminate)).
  eexists _, _, _. split; [exact Hempty|]. split; [reflexivity|].
  split; [rewrite Hkey; vm_compute; reflexivity|reflexivity].
Defined.

Lemma encryptLines_accounts_for_every_line_witness :
  exists out w',
    EncryptionHandler.encryptLines handler ["A=1"; "bad"; ""; "worse"]
      (worldWith (envFilePath handler) "") = (Ok out, w')
    /\ length out = 2%nat
    /\ logged w' =
       [(ErrorLevel, "Line 2 doesn't contain any variables or has invalid format: bad");
        (ErrorLevel, "Line 4 doesn't contain any variables or has invalid format: worse");
        (ErrorLevel,
         "[Method: encryptLines] Failed to encrypt some lines: Error: " +:+
         lines ["Line 2 doesn't contain any variables or has invalid format: bad";
                "Line 4 doesn't contain any variables or has invalid format: worse"])].
Proof.
  assert (Hrun : exists out w',
    EncryptionHandler.encryptLines handler ["A=1"; "bad"; ""; "worse"]
      (worldWith (envFilePath handler) "") = (Ok out, w'))
    by (eexists _, _; vm_compute; reflexivity).
  destruct Hrun as (out & w' & Hrun).
  destruct (encryptLines_accounts_for_every_line handler _ out _ w' Hrun) as (Hlen & Hlog).
  exists out, w'. split; [exact Hrun|]. split.
  - change (length (diagnostics handler 0 ["A=1"; "bad"; ""; "worse"])) with 2%nat in Hlen.
    cbn [length] in Hlen. lia.
  - rewrite Hlog. vm_compute; reflexivity.
Defined.

Lemma decrypt_returns_authenticated_plaintext_witness :
  exists w',
    CryptoService.decrypt (JSON_stringify (EncryptionParams_toJson sampleEnvelope))
      "s3cret" world0 = (Ok "hunter2", w')
    /\ complete sampleEnvelope
    /\ exists derived,
         argon2_hash "s3cret" (CryptoUtil.argon2Options (salt sampleEnvelope)) = inr derived
         /\ mac sampleEnvelope = hmacOf sampleEnvelope (Base64_parse derived).
Proof.
  assert (Hrun : exists w',
    CryptoService.decrypt (JSON_stringify (EncryptionParams_toJson sampleEnvelope))
      "s3cret" world0 = (Ok "hunter2", w'))
    by (eexists; vm_compute; reflexivity).
  destruct Hrun as (w' & Hrun).
  destruct (decrypt_returns_authenticated_plaintext _ "s3cret" "hunter2" sampleEnvelope
              world0 w' (JSON_parse_stringify (JsonLaws := jsonLaws) sampleEnvelope) Hrun)
    as (derived & d & Hcomplete & Hkey & Hmac & _).
  exists w'. split; [exact Hrun|]. split; [exact Hcomplete|].
  exists derived. split; [exact Hkey|exact Hmac].
Defined.

Lemma encrypt_returns_witness :
  exists p w',
    CryptoService.encrypt "hunter2" "s3cret" world0 = (Ok p, w')
    /\ salt p = hexEncode (repeat Byte.x3a 16)
    /\ iv p = hexEncode (repeat Byte.xc5 16)
    /\ length (entropy w') = 32%nat.
Proof.
  destruct (@encrypt_returns platform config "hunter2" "s3cret"
              ("$argon2id$v=19$" +:+ hexEncode (repeat Byte.x3a 16) +:+ "$" +:+
               hexEncode (repeat Byte.x3a 16 ++ String.list_byte_of_string "s3cret"))
              (map (xorByte (streamByte [] (repeat Byte.xc5 16)))
                 (String.list_byte_of_string "hunter2" ++ [Byte.x01]))
              world0)
    as (w' & Hrun & _ & Hentropy).
  - vm_compute. split; [reflexivity|discriminate].
  - vm_compute. split; [reflexivity|discriminate].
  - vm_compute; discriminate.
  - vm_compute; reflexivity.
  - vm_compute; reflexivity.
  - eexists _, w'. split; [exact Hrun|].
    split; [vm_compute; reflexivity|]. split; [vm_compute; reflexivity|].
    rewrite Hentropy. vm_compute; reflexivity.
Defined.

Lemma encryptLines_for_output_empty_witness :
  exists out errs w',
    EncryptionHandler.encryptLines_for handler 0 ["# credentials"; ""] [] []
      (worldWith (envFilePath handler) "") = (Ok (out, errs), w')
    /\ JsString.join out (String JsString.LF "") = ""
    /\ (forall line, In line ["# credentials"; ""] ->
                     isBlank line = true \/ isMalformed line = true).
Proof.
  assert (Hrun : exists out errs w',
    EncryptionHandler.encryptLines_for handler 0 ["# credentials"; ""] [] []
      (worldWith (envFilePath handler) "") = (Ok (out, errs), w')
    /\ JsString.join out (String JsString.LF "") = "")
    by (eexists _, _, _; split; vm_compute; reflexivity).
  destruct Hrun as (out & errs & w' & Hrun & Hjoin).
  destruct (encryptLines_for_output_empty handler _ 0%nat out errs _ w' Hrun) as [_ Hall].
  exists out, errs, w'. split; [exact Hrun|]. split; [exact Hjoin|].
  exact (proj1 (Hall Hjoin)).
Defined.

Lemma storeBaseEnvKey_needs_base_file_witness :
  exists e w',
    EnvFilesHandler.storeBaseEnvKey handler "UAT_SECRET_KEY" "bmV3IGtleQ==" world0 =
      (Throw e, w')
    /\ files w' = files world0
    /\ length (logged w') = 2%nat.
Proof.
  destruct (storeBaseEnvKey_needs_base_file handler "UAT_SECRET_KEY" "bmV3IGtleQ==" world0)
    as [Hstore _]; [vm_compute; reflexivity|].
  eexists _, _. split; [exact Hstore|]. split; reflexivity.
Defined.

Lemma encryptLines_for_assignment_witness :
  EncryptionHandler.encryptLines_for handler 0 [" TOKEN=abc=def "] [] [] world0 =
  EncryptionHandler.encryptLines_for handler 0 ["TOKEN=abc"] [] [] world0.
Proof.
  rewrite (encryptLines_for_assignment handler 0 " TOKEN=abc=def " "TOKEN" "abc" "=def");
    [|vm_compute; reflexivity|vm_compute; reflexivity|vm_compute; reflexivity
     |right; now exists "def"|discriminate].
  rewrite (encryptLines_for_assignment handler 0 "TOKEN=abc" "TOKEN" "abc" "");
    [|vm_compute; reflexivity|vm_compute; reflexivity|vm_compute; reflexivity
     |now left|discriminate].
  reflexivity.
Defined.

Lemma encryptLines_uses_fresh_randomness_witness :
  exists out w' draws,
    EncryptionHandler.encryptLines handler ["A=1"; ""; "bad"; "B=2"; "C="]
      (worldWith (envFilePath handler) "") = (Ok out, w')
    /\ entropy (worldWith (envFilePath handler) "") = (drawnBytes draws ++ entropy w')%list
    /\ Forall2 madeFrom (encryptedPairs ["A=1"; ""; "bad"; "B=2"; "C="] out) draws
    /\ length draws = 2%nat.
Proof.
  assert (Hrun : exists out w',
    EncryptionHandler.encryptLines handler ["A=1"; ""; "bad"; "B=2"; "C="]
      (worldWith (envFilePath handler) "") = (Ok out, w'))
    by (eexists _, _; vm_compute; reflexivity).
  destruct Hrun as (out & w' & Hrun).
  destruct (encryptLines_uses_fresh_randomness handler _ out _ w' Hrun)
    as (draws & Hent & Hall & Hlen).
  exists out, w', draws. split; [exact Hrun|]. split; [exact Hent|].
  split; [exact Hall|exact Hlen].
Defined.


Lemma encrypt_trace_witness :
  exists p w',
    CryptoService.encrypt "hunter2" "s3cret" world0 = (Ok p, w')
    /\ calls w' =
       [CallRandomBytes 16; CallRandomBytes 16;
        CallArgon2 "s3cret" (repeat Byte.x3a 16);
        CallAesEncrypt; CallHmac (macInput p)].
Proof.
  assert (Hrun : exists p w', CryptoService.encrypt "hunter2" "s3cret" world0 = (Ok p, w'))
    by (eexists _, _; vm_compute; reflexivity).
  destruct Hrun as (p & w' & Hrun).
  destruct (encrypt_trace "hunter2" "s3cret" world0 w' p Hrun) as (Hcalls & _ & _).
  exists p, w'. split; [exact Hrun|]. rewrite Hcalls.
  assert (Hsalt : salt p = hexEncode (repeat Byte.x3a 16)).
  { revert Hrun. vm_compute. now intros [= <- _]. }
  rewrite Hsalt. vm_compute; reflexivity.
Defined.

Lemma parseEncryptedData_accepts_witness :
  CryptoUtil.parseEncryptedData
    (JSON_stringify (EncryptionParams_toJson sampleEnvelope)) world0 =
  (Ok (EncryptionParams_toJson sampleEnvelope), world0).
Proof.
  apply (parseEncryptedData_accepts _ (EncryptionParams_toJson sampleEnvelope) world0 world0).
  split; [discriminate|]. split; [vm_compute; reflexivity|]. split; [|reflexivity].
  intros f [<-|[<-|[<-|[<-|[]]]]]; vm_compute; reflexivity.
Defined.

End MoreExamples.
